(** * pushsource: the Errata Tool source ([errata_source.py])

    A shallow embedding of [ErrataSource], the class that turns one advisory
    of Errata Tool into a list of push items, and the properties of its
    reconciliation steps.

    Python values are modelled as follows.
    - [str] is [string]; [None] is the [None] of an [option].
    - A [dict] with string keys is an association list in insertion order,
      since the order of [items()] decides the order of the output.
    - A [set] of strings is a [gset string]; [sorted] is a merge sort for the
      order of [String.compare], which is Python's order on strings.
    - An exception is a value of [exn]; a function that may raise returns a
      [result].
    - The item classes live in [pushsource.model]; what they do with the
      values [attr.evolve] gives them for an RPM and for a container image
      is the parameter [Model].
    - Logging, the calls made to the koji source and the one dictionary the
      code copies and pops from live in a [World] threaded by the monad [M]. *)

From Stdlib Require Import Ascii.
From stdpp Require Import base decidable option list sorting gmap strings.


(** ** Strings *)

Module Str.

(** [s.split(sep)] for a separator of one character. *)
Fixpoint split (sep : ascii) (s : string) : list string :=
  match s with
  | EmptyString => [EmptyString]
  | String c s' =>
      if Ascii.eqb c sep then EmptyString :: split sep s'
      else match split sep s' with
           | [] => [String c EmptyString]
           | w :: ws => String c w :: ws
           end
  end.

(** [sep.join(l)]. *)
Definition join (sep : string) (l : list string) : string :=
  String.concat sep l.

(** [s.startswith(p)]. *)
Fixpoint startswith (p s : string) : bool :=
  match p, s with
  | EmptyString, _ => true
  | String a p', String b s' => Ascii.eqb a b && startswith p' s'
  | String _ _, EmptyString => false
  end.

(** [needle in s]. *)
Fixpoint contains (needle s : string) : bool :=
  startswith needle s ||
  match s with
  | EmptyString => false
  | String _ s' => contains needle s'
  end.

(** The character [c] occurs in [s]. *)
Fixpoint occurs (c : ascii) (s : string) : Prop :=
  match s with
  | EmptyString => False
  | String a s' => a = c ∨ occurs c s'
  end.

(** Truth value of a string: the empty string is false. *)
Definition truthy (s : string) : bool :=
  match s with EmptyString => false | String _ _ => true end.

(** [l[-k]] for [k >= 1]; [None] stands for [IndexError]. *)
Definition index_from_end {A} (l : list A) (k : nat) : option A :=
  reverse l !! (k - 1).

(** [os.path.basename(p)] on POSIX: what follows the last slash. *)
Definition basename (p : string) : string :=
  default EmptyString (last (split "/" p)).

End Str.

(** ** Dictionaries *)

Definition dict (V : Type) : Type := list (string * V).

Section dict.
Context {V : Type}.

(** [d.get(k)]. *)
Fixpoint dict_get (d : dict V) (k : string) : option V :=
  match d with
  | [] => None
  | (k', v) :: d' => if decide (k' = k) then Some v else dict_get d' k
  end.

(** [d[k] = v]: an existing key keeps its position, a new one goes last. *)
Fixpoint dict_set (d : dict V) (k : string) (v : V) : dict V :=
  match d with
  | [] => [(k, v)]
  | (k', v') :: d' =>
      if decide (k' = k) then (k, v) :: d' else (k', v') :: dict_set d' k v
  end.

(** The dictionary left by [d.pop(k, default)]. *)
Fixpoint dict_del (d : dict V) (k : string) : dict V :=
  match d with
  | [] => []
  | (k', v) :: d' => if decide (k' = k) then d' else (k', v) :: dict_del d' k
  end.

(** [list(d.keys())]. *)
Definition dict_keys (d : dict V) : list string := d.*1.

End dict.

(** [sorted(s)] for a set, and [sorted(set(l))] for a list. *)
Definition sorted_set (s : gset string) : list string :=
  merge_sort String.le (elements s).

Definition sorted_of_list (l : list string) : list string :=
  sorted_set (list_to_set l).

(** ** Push items *)

(** Modelled from the spec: the push item classes of [pushsource.model],
    which the source imports and tells apart with [isinstance]; the spec
    lists them as the variants of a push item. *)
Inductive ItemClass :=
| ErratumPushItem
| RpmPushItem
| ModuleMdPushItem
| ModuleMdSourcePushItem
| ContainerImagePushItem
| OperatorManifestPushItem
| OtherPushItem.

Global Instance ItemClass_eq_dec : EqDecision ItemClass.
Proof. solve_decision. Defined.

(** Modelled from the spec: the attributes of a push item, declared in
    [pushsource.model], that the source reads or writes. The name, the
    state and the build are the strings koji provides; [dest] is the list
    of destinations, [None] when the item holds none (the source reads
    the advisory's as [erratum.dest or []]); the other attributes are
    optional, and a class that lacks one leaves it [None]. *)
Record PushItem := mkPushItem {
  cls : ItemClass;
  name : string;
  state : string;
  src : option string;
  dest : option (list string);
  origin : option string;
  build : string;
  signing_key : option string;
  sha256sum : option string;
  md5sum : option string;
  module_build : option string;
  dest_signing_key : option string;
}.

(** [attr.evolve(item, dest=d)] and [attr.evolve(item, origin=o)]: the
    source gives them a list and the name of the advisory. *)
Definition evolve_dest (item : PushItem) (d : option (list string)) : PushItem :=
  mkPushItem (cls item) (name item) (state item) (src item) d (origin item)
    (build item) (signing_key item) (sha256sum item) (md5sum item)
    (module_build item) (dest_signing_key item).

Definition evolve_origin (item : PushItem) (o : string) : PushItem :=
  mkPushItem (cls item) (name item) (state item) (src item) (dest item) (Some o)
    (build item) (signing_key item) (sha256sum item) (md5sum item)
    (module_build item) (dest_signing_key item).

(** Truth value of a list or of an optional list: [None] and [[]] are false. *)
Definition list_truthy {A} (l : list A) : bool :=
  match l with [] => false | _ :: _ => true end.

Definition opt_truthy {A} (o : option (list A)) : bool :=
  match o with Some l => list_truthy l | None => false end.

(** ** Exceptions, the log and the world *)

Inductive exn :=
| ValueError (msg : string)
| TypeError.

Inductive result (A : Type) :=
| Ok (a : A)
| Raise (e : exn).
Arguments Ok {A} a.
Arguments Raise {A} e.

(** The field-level validation of the push item classes, taken as a
    parameter: the classes live in [pushsource.model], outside this file,
    and the spec leaves their validation to them. [attr.evolve] builds a
    new instance of the class of the item, so the converters and the
    validators of the class run on the values it is given.
    [rpm_fields] is what [RpmPushItem] makes of the values given for
    [sha256sum], [md5sum] and [dest]: the values as the new item holds
    them, or the exception raised. [dest_signing_key_converter] is what
    [ContainerImagePushItem] makes of the value given for
    [dest_signing_key]. *)
Class Model := {
  rpm_fields :
    option string → option string → option (list string) →
    result (option string * option string * list string);
  dest_signing_key_converter : option string → option string;
}.

(** [attr.evolve(item, dest=d, dest_signing_key=key)] on a container
    image, [d] being a list. *)
Definition evolve_container `{Model} (item : PushItem) (d : list string)
    (key : option string) : PushItem :=
  mkPushItem (cls item) (name item) (state item) (src item) (Some d) (origin item)
    (build item) (signing_key item) (sha256sum item) (md5sum item)
    (module_build item) (dest_signing_key_converter key).

(** [attr.evolve(item, sha256sum=sha, md5sum=md, dest=d, origin=o,
    module_build=mb)] on an RPM: the new item, or the exception the class
    raises on the values given. *)
Definition evolve_rpm `{Model} (item : PushItem) (sha md : option string)
    (d : option (list string)) (o : string) (mb : option string)
    : result PushItem :=
  match rpm_fields sha md d with
  | Ok (sha', md', d') =>
      Ok (mkPushItem (cls item) (name item) (state item) (src item) (Some d')
            (Some o) (build item) (signing_key item) sha' md' mb
            (dest_signing_key item))
  | Raise e => Raise e
  end.

Inductive LogLevel := DEBUG | WARNING.

Inductive LogArg :=
| ArgStr (s : string)
| ArgOptStr (s : option string)
| ArgItem (item : PushItem).

(** One call of [LOG.debug] or [LOG.warning]: the format and its arguments. *)
Record LogRecord := mkLog {
  level : LogLevel;
  fmt : string;
  args : list LogArg;
}.

(** The keyword arguments of one call of [_koji_source]. *)
Inductive KojiSelector :=
| SelRpm (rpm : list string) (signing_key : option string)
| SelModule (module_build : list string) (module_filter_filename : list string)
| SelContainer (container_build : list string).

(** What happens to a koji source: [Source.get] builds it, a [with]
    statement enters it and, on the way out, exits it. *)
Inductive KojiEvent :=
| KojiGet (sel : KojiSelector)
| KojiEnter (sel : KojiSelector)
| KojiExit (sel : KojiSelector).

Global Instance KojiSelector_eq_dec : EqDecision KojiSelector.
Proof. solve_decision. Defined.
Global Instance KojiEvent_eq_dec : EqDecision KojiEvent.
Proof. solve_decision. Defined.

(** A reference to a dictionary object of the heap. *)
Definition ref := nat.

Record World := mkWorld {
  heap : list (dict (list string));
  log : list LogRecord;
  koji_events : list KojiEvent;
}.

Definition M (A : Type) : Type := World → World * result A.

Definition ret {A} (a : A) : M A := λ w, (w, Ok a).

Definition raise {A} (e : exn) : M A := λ w, (w, Raise e).

Definition bind {A B} (m : M A) (k : A → M B) : M B :=
  λ w, match m w with
       | (w', Ok a) => k a w'
       | (w', Raise e) => (w', Raise e)
       end.

Declare Scope py_scope.
Delimit Scope py_scope with py.
Notation "x <- m ;; k" := (bind m (λ x, k))
  (at level 100, m at next level, right associativity) : py_scope.
Notation "m ;; k" := (bind m (λ _, k))
  (at level 100, right associativity) : py_scope.
Local Open Scope py_scope.

(** [for x in l: s = body(x, s)], stopping at the first exception. *)
Fixpoint for_each {A S} (l : list A) (body : A → S → M S) (s : S) : M S :=
  match l with
  | [] => ret s
  | x :: l' => s' <- body x s ;; for_each l' body s'
  end.

Definition lift {A} (r : result A) : M A := λ w, (w, r).

Definition log_call (lv : LogLevel) (f : string) (a : list LogArg) : M unit :=
  λ w, (mkWorld (heap w) (log w ++ [mkLog lv f a]) (koji_events w), Ok tt).

Definition koji_event (e : KojiEvent) : M unit :=
  λ w, (mkWorld (heap w) (log w) (koji_events w ++ [e]), Ok tt).

(** Heap: a new dictionary object, the keys of one, and [pop]. A reference
    that the heap does not hold reads as the empty dictionary. *)
Definition deref (h : list (dict (list string))) (r : ref) : dict (list string) :=
  default [] (h !! r).

Definition heap_alloc (d : dict (list string)) : M ref :=
  λ w, (mkWorld (heap w ++ [d]) (log w) (koji_events w), Ok (length (heap w))).

Definition heap_read (r : ref) : M (dict (list string)) :=
  λ w, (w, Ok (deref (heap w) r)).

(** [d.pop(k, [])] on the object at [r]. *)
Definition heap_pop (r : ref) (k : string) : M (list string) :=
  λ w, let d := deref (heap w) r in
       (mkWorld (<[r := dict_del d k]> (heap w)) (log w) (koji_events w),
        Ok (default [] (dict_get d k))).

(** [try: m finally: cleanup], for a cleanup that does not raise. *)
Definition finally {A} (m : M A) (cleanup : M unit) : M A :=
  λ w, match m w with
       | (w', r) => ((cleanup w').1, r)
       end.

(** ** The raw responses of Errata Tool *)

(** One build of [get_advisory_cdn_file_list]. The dictionary under
    ["modules"] is an object of the heap: module reconciliation copies it
    and pops from the copy, and the FTP step reads it again later. *)
Module BuildInfo.
Record checksums_t := mkChecksums {
  sha256 : option (dict string);
  md5 : option (dict string);
}.
Record t := mk {
  rpms : option (dict (list string));
  modules : option ref;
  sig_key : option string;
  checksums : option checksums_t;
}.
End BuildInfo.

(** One build of [get_ftp_paths]. *)
Module Ftp.
Record t := mk {
  rpms : option (dict (list string));
  modules : option (list string);
  sig_key : option string;
}.
End Ftp.

(** One build of [get_advisory_cdn_docker_file_list]. *)
Module Docker.
Record repo_data := mkRepo {
  tags : option (list string);
  container_full_sig_key : option string;
}.
Record target_t := mkTarget {
  external_repos : option (dict repo_data);
  repos : option (dict repo_data);
}.
Record docker_t := mkDocker { target : option target_t }.
Record t := mk { docker : option docker_t }.
End Docker.

(** Modelled from the spec: the raw advisory payload the client returns,
    with its four views. *)
Record Raw (Metadata : Type) := mkRaw {
  advisory_cdn_metadata : Metadata;
  advisory_cdn_file_list : dict BuildInfo.t;
  advisory_cdn_docker_file_list : option (dict Docker.t);
  ftp_paths : dict Ftp.t;
}.
Arguments mkRaw {Metadata}.
Arguments advisory_cdn_metadata {Metadata}.
Arguments advisory_cdn_file_list {Metadata}.
Arguments advisory_cdn_docker_file_list {Metadata}.
Arguments ftp_paths {Metadata}.

(** The attributes of an [ErrataSource] the reconciliation reads. *)
Record ErrataSource := mkSource {
  _rpm_filter_arch : option (list string);
  _legacy_container_repos : bool;
  _koji_source_url : option string;
}.

(** [(o or {}).get(key)]: the field [f] of [o], [None] when [o] is. *)
Definition or_get {A B} (o : option A) (f : A → option B) : option B :=
  match o with Some a => f a | None => None end.

(** [sorted(l)] for a list of strings. *)
Definition sorted (l : list string) : list string := merge_sort String.le l.

(** The tables the first loop of [_add_ftp_paths] fills. *)
Record FtpTables := mkTables {
  rpm_to_paths : dict (list string);
  build_to_module_paths : dict (list string);
  builds_need_modules : gset string;
}.

Definition ftp_tables_step (t : FtpTables) (entry : string * Ftp.t) : FtpTables :=
  let '(build_nvr, build_map) := entry in
  let rpm_to_paths' :=
    fold_left (λ acc (kv : string * list string), dict_set acc kv.1 kv.2)
      (default [] (Ftp.rpms build_map)) (rpm_to_paths t) in
  let modules := default [] (Ftp.modules build_map) in
  mkTables rpm_to_paths'
    (dict_set (build_to_module_paths t) build_nvr modules)
    (if list_truthy modules then builds_need_modules t ∪ {[build_nvr]}
     else builds_need_modules t).

Definition ftp_tables (ftp : dict Ftp.t) : FtpTables :=
  fold_left ftp_tables_step ftp (mkTables [] [] ∅).

(** The loop of [_enrich_container_push_item] over the chosen repositories:
    it fills [dest] with one ["repo:tag"] per tag and [sig_keys] with the
    signing keys that are set. *)
Definition container_repo_step (acc : gset string * list string)
    (entry : string * Docker.repo_data) : gset string * list string :=
  let '(sig_keys, dest) := acc in
  let '(repo_id, repo_data) := entry in
  let dest' :=
    fold_left (λ d tag, d ++ [repo_id +:+ ":" +:+ tag])
      (default [] (Docker.tags repo_data)) dest in
  match Docker.container_full_sig_key repo_data with
  | Some sig_key =>
      if Str.truthy sig_key then (sig_keys ∪ {[sig_key]}, dest')
      else (sig_keys, dest')
  | None => (sig_keys, dest')
  end.

Definition container_repo_loop (repos : dict Docker.repo_data)
    : gset string * list string :=
  fold_left container_repo_step repos (∅, []).

(** ** ErrataSource *)

Section ErrataSource.

(** The collaborators of the source that live in other modules: the
    advisory metadata and [ErratumPushItem._from_data], [conv.archstr],
    and what iterating over a koji source yields for given arguments. *)
Variable Metadata : Type.
Variable ErratumPushItem_from_data : Metadata → PushItem.
Variable archstr : string → string.
Variable koji : KojiSelector → list PushItem.

Variable self : ErrataSource.
Context {model : Model}.

Definition _koji_source (kwargs : KojiSelector) : M KojiSelector :=
  if bool_decide (default false (Str.truthy <$> _koji_source_url self) = false)
  then raise (ValueError "A Koji source is required but none is specified")
  else (koji_event (KojiGet kwargs) ;; ret kwargs).

(** [with self._koji_source(...) as koji_source: body]. *)
Definition with_koji_source {A} (kwargs : KojiSelector)
    (body : KojiSelector → M A) : M A :=
  koji_source <- _koji_source kwargs ;;
  koji_event (KojiEnter koji_source) ;;
  finally (body koji_source) (koji_event (KojiExit koji_source)).

(** The repositories [_enrich_container_push_item] reads for an item:
    [external_repos], or [repos] when the legacy flag is set. *)
Definition container_repos (docker_file_list : dict Docker.t)
    (item : PushItem) : dict Docker.repo_data :=
  let errata_meta := dict_get docker_file_list (build item) in
  let target := or_get (or_get errata_meta Docker.docker) Docker.target in
  let repos := default [] (or_get target Docker.external_repos) in
  if _legacy_container_repos self
  then default [] (or_get target Docker.repos)
  else repos.

Definition _enrich_container_push_item (erratum : PushItem)
    (docker_file_list : dict Docker.t) (item : PushItem) : result PushItem :=
  let repos := container_repos docker_file_list item in
  let '(sig_keys, dest) := container_repo_loop repos in
  let dest := sorted_of_list dest in
  if negb (list_truthy dest) then
    Raise (ValueError ("Erratum " +:+ name erratum +:+
                       " requests container build " +:+ build item +:+
                       " but provides no repositories"))
  else if bool_decide (1 < size sig_keys) then
    Raise (ValueError ("Unsupported: erratum " +:+ name erratum +:+
                       " requests multiple signing keys (" +:+
                       Str.join ", " (sorted_set sig_keys) +:+
                       ") on build " +:+ build item))
  else
    let dest_signing_key := head (elements sig_keys) in
    Ok (evolve_container item dest dest_signing_key).

(** The body of the loop of [_push_items_from_container_manifests]. *)
Definition container_manifests_step (erratum : PushItem)
    (docker_file_list : dict Docker.t) (item : PushItem)
    (out : list PushItem) : M (list PushItem) :=
  if decide (cls item = ContainerImagePushItem) then
    item <- lift (_enrich_container_push_item erratum docker_file_list item) ;;
    ret (out ++ [evolve_origin item (name erratum)])
  else if decide (cls item = OperatorManifestPushItem) then
    ret (out ++ [evolve_origin item (name erratum)])
  else
    log_call DEBUG "Erratum %s: ignored unexpected item from koji source: %s"
      [ArgStr (name erratum); ArgItem item] ;;
    ret out.

Definition _push_items_from_container_manifests (erratum : PushItem)
    (docker_file_list : option (dict Docker.t)) : M (list PushItem) :=
  match docker_file_list with
  | None | Some [] => ret []
  | Some docker_file_list =>
      with_koji_source (SelContainer (dict_keys docker_file_list))
        (λ koji_source,
           for_each (koji koji_source)
             (container_manifests_step erratum docker_file_list) [])
  end.

(** The body of the loop of [_module_push_items_from_build]; [modules]
    is the copy the function made. *)
Definition module_push_items_step (erratum : PushItem) (modules : ref)
    (push_item : PushItem) (out : list PushItem) : M (list PushItem) :=
  match src push_item with
  | None => raise TypeError
  | Some path =>
      let basename := Str.basename path in
      dest <- heap_pop modules basename ;;
      ret (out ++ [evolve_origin (evolve_dest push_item (Some dest))
                     (name erratum)])
  end.

Definition _module_push_items_from_build (erratum : PushItem)
    (build_nvr : string) (build_info : BuildInfo.t) : M (list PushItem) :=
  declared <- match BuildInfo.modules build_info with
              | Some r => heap_read r
              | None => ret []
              end ;;
  modules <- heap_alloc declared ;;
  module_filenames <- (keys <- heap_read modules ;;
                       ret (dict_keys keys ++ ["modulemd.src.txt"])) ;;
  out <- with_koji_source (SelModule [build_nvr] module_filenames)
           (λ koji_source,
              for_each (koji koji_source)
                (module_push_items_step erratum modules) []) ;;
  remaining <- heap_read modules ;;
  let missing_modules := Str.join ", " (sorted (dict_keys remaining)) in
  if Str.truthy missing_modules then
    raise (ValueError ("koji build " +:+ build_nvr +:+
                       " does not contain " +:+ missing_modules +:+
                       " (requested by advisory " +:+ name erratum +:+ ")"))
  else ret out.

(** The test of the arch filter on one filename. *)
Definition arch_filter_keeps (ok_arches : list string) (filename : string) : bool :=
  let components := Str.split "." filename in
  bool_decide (3 ≤ length components) &&
  bool_decide (Str.index_from_end components 1 = Some "rpm") &&
  match Str.index_from_end components 2 with
  | Some arch => bool_decide (archstr arch ∈ ok_arches)
  | None => false
  end.

(** The body of the loop of [_filter_rpms_by_arch]. *)
Definition filter_rpms_step (erratum : PushItem) (ok_arches : list string)
    (filename : string) (out : list string) : M (list string) :=
  if arch_filter_keeps ok_arches filename then ret (out ++ [filename])
  else
    log_call DEBUG "Erratum %s: RPM removed by arch filter: %s"
      [ArgStr (name erratum); ArgStr filename] ;;
    ret out.

Definition _filter_rpms_by_arch (erratum : PushItem)
    (rpm_filenames : list string) : M (list string) :=
  match _rpm_filter_arch self with
  | None => ret rpm_filenames
  | Some filter_arch =>
      let ok_arches := archstr <$> filter_arch in
      for_each rpm_filenames (filter_rpms_step erratum ok_arches) []
  end.

(** [x or None] for an optional string. *)
Definition or_None (x : option string) : option string :=
  match x with
  | Some s => if Str.truthy s then Some s else None
  | None => None
  end.

(** The body of the loop of [_rpm_push_items_from_build]. *)
Definition rpm_push_items_step (erratum : PushItem) (build_nvr : string)
    (rpms : dict (list string)) (sha256sums md5sums : dict string)
    (push_item : PushItem) (out : list PushItem) : M (list PushItem) :=
  if bool_decide (state push_item = "NOTFOUND") then
    raise (ValueError ("Advisory refers to " +:+ name push_item +:+
                       " but RPM was not found in koji"))
  else
    let module_build :=
      if bool_decide (build push_item ≠ build_nvr) &&
         Str.contains ".module" (build push_item)
      then Some build_nvr else None in
    push_item <- lift (evolve_rpm push_item
                         (dict_get sha256sums (name push_item))
                         (dict_get md5sums (name push_item))
                         (dict_get rpms (name push_item))
                         (name erratum)
                         module_build) ;;
    ret (out ++ [push_item]).

Definition _rpm_push_items_from_build (erratum : PushItem)
    (build_nvr : string) (build_info : BuildInfo.t) : M (list PushItem) :=
  let rpms := default [] (BuildInfo.rpms build_info) in
  let signing_key := or_None (BuildInfo.sig_key build_info) in
  let sha256sums :=
    default [] (or_get (BuildInfo.checksums build_info) BuildInfo.sha256) in
  let md5sums :=
    default [] (or_get (BuildInfo.checksums build_info) BuildInfo.md5) in
  rpm_filenames <- _filter_rpms_by_arch erratum (dict_keys rpms) ;;
  koji_source <- _koji_source (SelRpm rpm_filenames signing_key) ;;
  for_each (koji koji_source)
    (rpm_push_items_step erratum build_nvr rpms sha256sums md5sums) [].

Definition _push_items_from_rpms (erratum : PushItem)
    (rpm_list : dict BuildInfo.t) : M (list PushItem) :=
  for_each rpm_list
    (λ (entry : string * BuildInfo.t) out,
       let '(build_nvr, build_info) := entry in
       rpm_items <- _rpm_push_items_from_build erratum build_nvr build_info ;;
       module_items <- _module_push_items_from_build erratum build_nvr build_info ;;
       ret ((out ++ rpm_items) ++ module_items))
    [].

(** The body of the second loop of [_add_ftp_paths]: the state is [out]
    and [builds_have_modules]. *)
Definition add_ftp_paths_step (erratum : PushItem) (tables : FtpTables)
    (item : PushItem) (st : list PushItem * gset string)
    : M (list PushItem * gset string) :=
  let '(out, builds_have_modules) := st in
  if decide (cls item = RpmPushItem) then
    let paths := default [] (dict_get (rpm_to_paths tables) (name item)) in
    match dest item with
    | None => raise TypeError
    | Some d =>
        ret (out ++ [evolve_dest item (Some (d ++ paths))], builds_have_modules)
    end
  else if decide (cls item = ModuleMdSourcePushItem) then
    let paths := dict_get (build_to_module_paths tables) (build item) in
    matched <- (if opt_truthy paths then
                  match dest item with
                  | None => raise TypeError
                  | Some d =>
                      ret (evolve_dest item (Some (d ++ default [] paths)),
                           builds_have_modules ∪ {[build item]})
                  end
                else ret (item, builds_have_modules)) ;;
    let '(item, builds_have_modules) := matched in
    if opt_truthy (dest item) then ret (out ++ [item], builds_have_modules)
    else
      log_call DEBUG
        "Erratum %s: modulemd source skipped due to no destinations: %s"
        [ArgStr (name erratum); ArgOptStr (src item)] ;;
      ret (out, builds_have_modules)
  else ret (out ++ [item], builds_have_modules).

(** [(raw.advisory_cdn_file_list.get(nvr) or {}).get("modules")], read
    from the heap as it is when the FTP step runs. *)
Definition cdn_file_list_modules (raw : Raw Metadata) (nvr : string)
    : M (dict (list string)) :=
  match or_get (dict_get (advisory_cdn_file_list raw) nvr) BuildInfo.modules with
  | Some r => heap_read r
  | None => ret []
  end.

(** The body of the loop of [_add_ftp_paths] over
    [builds_missing_modules]: the state is [builds_missing_et] and
    [builds_missing_koji]. *)
Definition missing_modules_step (raw : Raw Metadata) (nvr : string)
    (acc : list string * list string) : M (list string * list string) :=
  let '(builds_missing_et, builds_missing_koji) := acc in
  declared <- cdn_file_list_modules raw nvr ;;
  if negb (list_truthy declared)
  then ret (builds_missing_et ++ [nvr], builds_missing_koji)
  else ret (builds_missing_et, builds_missing_koji ++ [nvr]).

Definition _add_ftp_paths (items : list PushItem) (erratum : PushItem)
    (raw : Raw Metadata) : M (list PushItem) :=
  let tables := ftp_tables (ftp_paths raw) in
  st <- for_each items (add_ftp_paths_step erratum tables) ([], ∅) ;;
  let '(out, builds_have_modules) := st in
  let builds_missing_modules :=
    sorted_set (builds_need_modules tables ∖ builds_have_modules) in
  missing <- for_each builds_missing_modules (missing_modules_step raw)
               ([], []) ;;
  let '(builds_missing_et, builds_missing_koji) := missing in
  (if list_truthy builds_missing_et then
     log_call WARNING
       ("Erratum %s: ignoring module(s) from ftp_paths due to absence " +:+
        "in cdn_file_list: %s")
       [ArgStr (name erratum); ArgStr (Str.join ", " builds_missing_et)]
   else ret tt) ;;
  if list_truthy builds_missing_koji then
    raise (ValueError ("Erratum " +:+ name erratum +:+
                       ": missing modulemd sources on koji build(s): " +:+
                       Str.join ", " builds_missing_koji))
  else ret out.

(** The body of the loop of [_push_items_from_raw] that adds the
    destinations of an item to those of the advisory. *)
Definition erratum_dest_step (item : PushItem) (erratum_dest : gset string)
    : M (gset string) :=
  match dest item with
  | None => raise TypeError
  | Some d => ret (fold_left (λ s x, s ∪ {[x]}) d erratum_dest)
  end.

Definition _push_items_from_raw (raw : Raw Metadata) : M (list PushItem) :=
  let erratum := ErratumPushItem_from_data (advisory_cdn_metadata raw) in
  items <- _push_items_from_rpms erratum (advisory_cdn_file_list raw) ;;
  erratum_dest <- for_each items erratum_dest_step
                    (list_to_set (default [] (dest erratum))) ;;
  let erratum := evolve_dest erratum (Some (sorted_set erratum_dest)) in
  items <- _add_ftp_paths items erratum raw ;;
  containers <- _push_items_from_container_manifests erratum
                  (advisory_cdn_docker_file_list raw) ;;
  ret ([erratum] ++ (items ++ containers)).

End ErrataSource.

(** ** Notions the properties are stated with *)

(** What [_rpm_push_items_from_build] tests before it sets [module_build]:
    the build of the item is not the advisory's and contains [".module"]. *)
Definition names_module_build (build_nvr resolved : string) : Prop :=
  resolved ≠ build_nvr ∧ ∃ pre post, resolved = pre +:+ ".module" +:+ post.

(** Every koji event of [w] is one that [w0] already had, or the creation
    of a source. *)
Definition only_created (w0 w : World) : Prop :=
  ∀ e, e ∈ koji_events w → e ∈ koji_events w0 ∨ ∃ kwargs, e = KojiGet kwargs.

(** The FTP paths [_add_ftp_paths] matches with an RPM name and with a
    build: what its two tables hold, [[]] when they hold nothing. *)
Definition matched_rpm_paths {Metadata} (raw : Raw Metadata)
    (rpm_name : string) : list string :=
  default [] (dict_get (rpm_to_paths (ftp_tables (ftp_paths raw))) rpm_name).

Definition matched_module_paths {Metadata} (raw : Raw Metadata)
    (build_nvr : string) : list string :=
  default []
    (dict_get (build_to_module_paths (ftp_tables (ftp_paths raw))) build_nvr).

(** [res] is the RPM item [orig] after the FTP step: same item, its
    destinations followed by the matched paths. *)
Definition rpm_merged {Metadata} (raw : Raw Metadata)
    (orig res : PushItem) : Prop :=
  ∃ d, dest orig = Some d ∧
    res = evolve_dest orig (Some (d ++ matched_rpm_paths raw (name orig))) ∧
    dest res = Some (d ++ matched_rpm_paths raw (name orig)) ∧
    length (d ++ matched_rpm_paths raw (name orig))
      = length d + length (matched_rpm_paths raw (name orig)).

(** The FTP paths declare modules for a build. *)
Definition alt_declares_modules {Metadata} (raw : Raw Metadata)
    (nvr : string) : Prop :=
  ∃ build_map, (nvr, build_map) ∈ ftp_paths raw ∧
    opt_truthy (Ftp.modules build_map) = true.

(** Some module source among the items belongs to the build. *)
Definition module_source_matched (items : list PushItem) (nvr : string) : Prop :=
  ∃ item, item ∈ items ∧ cls item = ModuleMdSourcePushItem ∧ build item = nvr.

(** The FTP paths declare modules for a build that has no module source. *)
Definition missing_module_source {Metadata} (raw : Raw Metadata)
    (items : list PushItem) (nvr : string) : Prop :=
  alt_declares_modules raw nvr ∧ ¬ module_source_matched items nvr.

(** The modules the file list declares for a build, in world [w], and
    whether it declares any. *)
Definition manifest_modules {Metadata} (raw : Raw Metadata) (w : World)
    (nvr : string) : dict (list string) :=
  match or_get (dict_get (advisory_cdn_file_list raw) nvr) BuildInfo.modules with
  | Some r => deref (heap w) r
  | None => []
  end.

Definition manifest_declares_modules {Metadata} (raw : Raw Metadata)
    (w : World) (nvr : string) : Prop :=
  manifest_modules raw w nvr ≠ [].

(** The warning [_add_ftp_paths] logs for the builds it tolerates. *)
Definition missing_et_warning (erratum : PushItem) (builds : list string)
    : LogRecord :=
  mkLog WARNING
    ("Erratum %s: ignoring module(s) from ftp_paths due to absence " +:+
     "in cdn_file_list: %s")
    [ArgStr (name erratum); ArgStr (Str.join ", " builds)].

(** [x] is ["repo:tag"] for a tag some repository declares, and [k] is a
    signing key some repository declares. *)
Definition is_repo_tag (repos : dict Docker.repo_data) (x : string) : Prop :=
  ∃ repo_id repo_data tag,
    (repo_id, repo_data) ∈ repos ∧
    tag ∈ default [] (Docker.tags repo_data) ∧
    x = repo_id +:+ ":" +:+ tag.

Definition is_sig_key (repos : dict Docker.repo_data) (k : string) : Prop :=
  ∃ repo_id repo_data,
    (repo_id, repo_data) ∈ repos ∧
    Docker.container_full_sig_key repo_data = Some k ∧ k ≠ "".

(** The two errors of [_enrich_container_push_item]. *)
Definition no_repositories_error (erratum item : PushItem) : exn :=
  ValueError ("Erratum " +:+ name erratum +:+ " requests container build " +:+
              build item +:+ " but provides no repositories").

Definition multiple_signing_keys_error (erratum item : PushItem)
    (keys : list string) : exn :=
  ValueError ("Unsupported: erratum " +:+ name erratum +:+
              " requests multiple signing keys (" +:+ Str.join ", " keys +:+
              ") on build " +:+ build item).

(** A computation keeps a property of the world, whatever it returns. *)
Definition preserves {A} (P : World → Prop) (m : M A) : Prop :=
  ∀ w, P w → P (m w).1.

(** The heap is [h] followed by one more object: the state of the heap
    while [_module_push_items_from_build] works on its copy. *)
Definition heap_with_copy (h : list (dict (list string))) (w : World) : Prop :=
  ∃ copy, heap w = h ++ [copy].

(** ** Concrete advisories *)

Definition empty_world : World := mkWorld [] [] [].

(** The classes on the values of the advisories below: a list of
    destinations is kept and a missing one is a [TypeError]; checksums
    and signing keys are put in lower case. No checksum is refused: the
    advisories below hold none. *)
Definition lower_ascii (c : ascii) : ascii :=
  if bool_decide (65 ≤ nat_of_ascii c ≤ 90)%nat
  then ascii_of_nat (nat_of_ascii c + 32) else c.

Fixpoint lower (s : string) : string :=
  match s with
  | EmptyString => EmptyString
  | String c s' => String (lower_ascii c) (lower s')
  end.

Definition plain_model : Model := {|
  rpm_fields sha md d :=
    match d with
    | Some d => Ok (lower <$> sha, lower <$> md, d)
    | None => Raise TypeError
    end;
  dest_signing_key_converter key := lower <$> key;
|}.

(** An item as a koji source yields it: no destination, no origin. *)
Definition koji_item (c : ItemClass) (n st b : string) (s : option string)
    : PushItem :=
  mkPushItem c n st s (Some []) None b None None None None None.

Definition advisory_item (advisory_name : string) : PushItem :=
  koji_item ErratumPushItem advisory_name "PENDING" "" None.

Definition advisory : PushItem := advisory_item "RHSA-2020:0001".

Definition koji_url : option string := Some "koji:https://koji.example.com/".

Definition source_no_filter : ErrataSource := mkSource None false koji_url.

Definition source_x86_64 : ErrataSource := mkSource (Some ["x86_64"]) false koji_url.

(** A koji in which every RPM and module asked for belongs to build [b],
    RPMs are in state [st], ["modulemd.src.txt"] is a module source, and
    every container build holds one image. *)
Definition koji_of_build (b st : string) (kwargs : KojiSelector) : list PushItem :=
  match kwargs with
  | SelRpm rpm _ => (λ n, koji_item RpmPushItem n st b None) <$> rpm
  | SelModule _ filenames =>
      (λ n, koji_item
              (if decide (n = "modulemd.src.txt") then ModuleMdSourcePushItem
               else ModuleMdPushItem)
              n "PENDING" b (Some ("/mnt/koji/packages/" +:+ n))) <$> filenames
  | SelContainer builds =>
      (λ n, koji_item ContainerImagePushItem n "PENDING" n None) <$> builds
  end.

(** The example of the source: an RPM of a module, which Errata Tool lists
    under the module build. *)
Definition pgaudit_build : string :=
  "pgaudit-1.4.0-4.module+el8.1.1+4794+c82b6e09".

Definition postgresql_nvr : string :=
  "postgresql-12-8010120191120141335.e4e244f9".

Definition postgresql_info : BuildInfo.t :=
  BuildInfo.mk
    (Some [("pgaudit-debuginfo-1.4.0-4.module+el8.1.1+4794+c82b6e09.x86_64.rpm",
            ["rhel-8-for-x86_64-appstream-debug-rpms"])])
    None (Some "fd431d51") None.

Definition pgaudit_item : PushItem :=
  mkPushItem RpmPushItem
    "pgaudit-debuginfo-1.4.0-4.module+el8.1.1+4794+c82b6e09.x86_64.rpm"
    "PENDING" None (Some ["rhel-8-for-x86_64-appstream-debug-rpms"])
    (Some "RHSA-2020:0001") pgaudit_build None None None
    (Some postgresql_nvr) None.

(** An RPM whose build has "module" in its name, without the dot. *)
Definition modules_info : BuildInfo.t :=
  BuildInfo.mk
    (Some [("environment-modules-4.5.2-1.el8.x86_64.rpm",
            ["rhel-8-for-x86_64-baseos-rpms"])])
    None None None.

Definition modules_item : PushItem :=
  mkPushItem RpmPushItem "environment-modules-4.5.2-1.el8.x86_64.rpm"
    "PENDING" None (Some ["rhel-8-for-x86_64-baseos-rpms"])
    (Some "RHSA-2020:0001") "environment-modules-4.5.2-1.el8" None None None
    None None.

(** One build with one RPM, with and without destinations, and with a
    module. *)
Definition foo_info (d : list string) : BuildInfo.t :=
  BuildInfo.mk (Some [("foo-1.0-1.x86_64.rpm", d)]) None None None.

Definition foo_rpm_selector : KojiSelector := SelRpm ["foo-1.0-1.x86_64.rpm"] None.

Definition foo_rpm (d : list string) : PushItem :=
  mkPushItem RpmPushItem "foo-1.0-1.x86_64.rpm" "PENDING" None (Some d)
    (Some "RHSA-2020:0001") "foo-1.0-1" None None None None None.

Definition foo_module_info : BuildInfo.t :=
  BuildInfo.mk (Some [("foo-1.0-1.x86_64.rpm", ["repoA"])]) (Some 0) None None.

Definition foo_module_selector : KojiSelector :=
  SelModule ["foo-1.0-1"] ["modulemd.x86_64.txt"; "modulemd.src.txt"].

(** A world whose heap holds the modules declared for [foo-1.0-1]. *)
Definition foo_world : World :=
  mkWorld [[("modulemd.x86_64.txt", ["repoM"])]] [] [].

Definition foo_module_source (b : string) (d : list string) : PushItem :=
  mkPushItem ModuleMdSourcePushItem "modulemd.src.txt" "PENDING"
    (Some "/mnt/koji/packages/modulemd.src.txt") (Some d)
    (Some "RHSA-2020:0001") b None None None None None.

(** Container builds: one repository with a tag listed twice, two
    repositories with different signing keys, and the same two without any
    tag. *)
Definition docker_entry (external : dict Docker.repo_data) : Docker.t :=
  Docker.mk (Some (Docker.mkDocker (Some (Docker.mkTarget (Some external) None)))).

Definition image_repos : dict Docker.repo_data :=
  [("ns/img", Docker.mkRepo (Some ["latest"; "1.0"; "latest"]) (Some "deadbeef"))].

Definition image_repos_upper_key : dict Docker.repo_data :=
  [("ns/img", Docker.mkRepo (Some ["latest"; "1.0"; "latest"]) (Some "DEADBEEF"))].

Definition two_key_repos : dict Docker.repo_data :=
  [("ns/a", Docker.mkRepo (Some ["latest"]) (Some "199e2f91fd431d51"));
   ("ns/b", Docker.mkRepo (Some ["latest"]) (Some "5054e4a45a6340b3"))].

Definition two_key_repos_no_tag : dict Docker.repo_data :=
  [("ns/a", Docker.mkRepo (Some []) (Some "199e2f91fd431d51"));
   ("ns/b", Docker.mkRepo None (Some "5054e4a45a6340b3"))].

Definition image_item : PushItem :=
  koji_item ContainerImagePushItem "img-1.0-1" "PENDING" "img-1.0-1" None.

(** Raw data of advisories. *)
Definition raw_empty_dest : Raw string :=
  mkRaw "RHSA-2020:0001" [("foo-1.0-1", foo_info [])] None [].

Definition raw_full : Raw string :=
  mkRaw "RHSA-2020:0001" [("foo-1.0-1", foo_module_info)]
    (Some [("img-1.0-1", docker_entry image_repos)])
    [("foo-1.0-1",
      Ftp.mk (Some [("foo-1.0-1.x86_64.rpm", ["/ftp/pub/os/"; "repoA"])])
        (Some ["/ftp/pub/modules/"]) None)].

(** FTP paths that declare modules for [foo-1.0-1], with a file list that
    declares none, and with one that does. *)
Definition ftp_modules_only : dict Ftp.t :=
  [("foo-1.0-1", Ftp.mk None (Some ["/ftp/pub/modules/"]) None)].

Definition raw_missing_in_et : Raw string :=
  mkRaw "RHSA-2020:0001" [("foo-1.0-1", foo_info ["repoA"])] None ftp_modules_only.

Definition raw_missing_in_koji : Raw string :=
  mkRaw "RHSA-2020:0001" [("foo-1.0-1", foo_module_info)] None ftp_modules_only.

(** A source without koji, an advisory without builds, and FTP paths in
    which two builds list the same RPM. *)
Definition source_no_koji : ErrataSource := mkSource None false None.

Definition raw_no_builds : Raw string :=
  mkRaw "RHSA-2020:0001" [] None ftp_modules_only.

Definition ftp_two_builds : dict Ftp.t :=
  [("foo-1.0-1",
    Ftp.mk (Some [("foo-1.0-1.x86_64.rpm", ["/ftp/pub/os/"])]) None None);
   ("foo-1.0-2",
    Ftp.mk (Some [("foo-1.0-1.x86_64.rpm", ["/ftp/pub/updates/"])]) None None);
   ("bar-2.0-1",
    Ftp.mk (Some [("bar-2.0-1.noarch.rpm", ["/ftp/pub/os/"])]) None None)].

Definition raw_two_builds : Raw string :=
  mkRaw "RHSA-2020:0001" [] None ftp_two_builds.

(** A koji that yields, whatever it is asked, an RPM that the file lists
    below do not hold. *)
Definition koji_unlisted_rpm (kwargs : KojiSelector) : list PushItem :=
  [koji_item RpmPushItem "bar-1.0-1.x86_64.rpm" "PENDING" "bar-1.0-1" None].

(** A build with an RPM for two architectures, a koji that holds the
    module sources only, and the output for [raw_full]. *)
Definition two_arch_info : BuildInfo.t :=
  BuildInfo.mk
    (Some [("foo-1.0-1.x86_64.rpm", ["repoA"]);
           ("foo-1.0-1.s390x.rpm", ["repoB"])])
    None None None.

Definition koji_sources_only (b : string) (kwargs : KojiSelector)
    : list PushItem :=
  filter (λ item, cls item = ModuleMdSourcePushItem)
    (koji_of_build b "PENDING" kwargs).

Definition foo_module : PushItem :=
  mkPushItem ModuleMdPushItem "modulemd.x86_64.txt" "PENDING"
    (Some "/mnt/koji/packages/modulemd.x86_64.txt") (Some ["repoM"])
    (Some "RHSA-2020:0001") "foo-1.0-1" None None None None None.

Definition image_enriched : PushItem :=
  mkPushItem ContainerImagePushItem "img-1.0-1" "PENDING" None
    (Some ["ns/img:1.0"; "ns/img:latest"]) None "img-1.0-1" None None None None
    (Some "deadbeef").

Definition raw_full_output : list PushItem :=
  [evolve_dest advisory (Some ["repoA"; "repoM"]);
   foo_rpm ["repoA"; "/ftp/pub/os/"; "repoA"];
   foo_module;
   foo_module_source "foo-1.0-1" ["/ftp/pub/modules/"];
   evolve_origin image_enriched "RHSA-2020:0001"].

(** An advisory with a container build and no build in its file list. *)
Definition raw_containers_only : Raw string :=
  mkRaw "RHSA-2020:0001" [] (Some [("img-1.0-1", docker_entry image_repos)]) [].

(** ** The URL of the XML-RPC service *)

(** The attributes of the result of [urllib.parse.urlparse] that the
    source formats. *)
Module Url.
Record parsed := mkParsed {
  scheme : string;
  netloc : string;
  path : string;
}.
End Url.

Module Posix.

(** [s.endswith(suffix)]. *)
Fixpoint endswith (suffix s : string) : bool :=
  String.eqb suffix s ||
  match s with
  | EmptyString => false
  | String _ s' => endswith suffix s'
  end.

(** [os.path.join(a, b)] of [posixpath]: an absolute [b] replaces [a], and
    a separator is put between them unless [a] is empty or ends with one. *)
Definition join (a b : string) : string :=
  if Str.startswith "/" b then b
  else if negb (Str.truthy a) || endswith "/" a then a +:+ b
  else a +:+ "/" +:+ b.

End Posix.

Section service_url.

(** [urllib.parse.urlparse], of the standard library. *)
Variable urlparse : string → Url.parsed.

(** The property [_errata_service_url], as a function of [self._url]. *)
Definition _errata_service_url (_url : string) : string :=
  let parsed := urlparse _url in
  let base := Url.scheme parsed +:+ "://" +:+ Url.netloc parsed +:+ Url.path parsed in
  Posix.join base "errata/errata_service".

End service_url.

(** ** Further notions *)

(** What [_rpm_push_items_from_build] makes of an item koji yields and has:
    the item with the checksums and the destinations the file list holds
    under its name, the advisory as origin and the module build, as the
    class takes them, or the exception of the class. *)
Definition rpm_enriched `{Model} (erratum : PushItem) (build_nvr : string)
    (build_info : BuildInfo.t) (push_item : PushItem) : result PushItem :=
  evolve_rpm push_item
    (dict_get (default [] (or_get (BuildInfo.checksums build_info) BuildInfo.sha256))
       (name push_item))
    (dict_get (default [] (or_get (BuildInfo.checksums build_info) BuildInfo.md5))
       (name push_item))
    (dict_get (default [] (BuildInfo.rpms build_info)) (name push_item))
    (name erratum)
    (if bool_decide (build push_item ≠ build_nvr) &&
        Str.contains ".module" (build push_item)
     then Some build_nvr else None).

(** The error of [_rpm_push_items_from_build] for an RPM koji does not
    have. *)
Definition rpm_not_found_error (item : PushItem) : exn :=
  ValueError ("Advisory refers to " +:+ name item +:+
              " but RPM was not found in koji").

(** Koji has [item] and the class accepts what the file list holds for
    it: [res] is the item RPM reconciliation makes of [item]. *)
Definition rpm_accepted `{Model} (erratum : PushItem) (build_nvr : string)
    (build_info : BuildInfo.t) (item res : PushItem) : Prop :=
  state item ≠ "NOTFOUND" ∧
  rpm_enriched erratum build_nvr build_info item = Ok res.

(** The filenames [_rpm_push_items_from_build] asks koji for: those the
    file list declares, less those the arch filter removes. *)
Definition requested_rpms (archstr : string → string) (self : ErrataSource)
    (build_info : BuildInfo.t) : list string :=
  match _rpm_filter_arch self with
  | None => dict_keys (default [] (BuildInfo.rpms build_info))
  | Some filter_arch =>
      filter (λ f, arch_filter_keeps archstr (archstr <$> filter_arch) f)
        (dict_keys (default [] (BuildInfo.rpms build_info)))
  end.

(** The modules the file list declares for a build, in world [w]. *)
Definition declared_modules (build_info : BuildInfo.t) (w : World)
    : dict (list string) :=
  match BuildInfo.modules build_info with
  | Some r => deref (heap w) r
  | None => []
  end.

(** The base names of the files of the items koji yields. *)
Definition basenames (items : list PushItem) : list string :=
  omap (λ item, Str.basename <$> src item) items.

(** A koji source is configured. *)
Definition koji_configured (self : ErrataSource) : Prop :=
  default false (Str.truthy <$> _koji_source_url self) = true.

(** The error of [_koji_source]. *)
Definition koji_required_error : exn :=
  ValueError "A Koji source is required but none is specified".

(** The record [_filter_rpms_by_arch] logs for a filename it removes. *)
Definition removed_by_arch_filter (erratum : PushItem) (filename : string)
    : LogRecord :=
  mkLog DEBUG "Erratum %s: RPM removed by arch filter: %s"
    [ArgStr (name erratum); ArgStr filename].

(** The items an advisory needs no koji for: none in the file list and
    none among the container builds. *)
Definition no_container_builds (docker_file_list : option (dict Docker.t)) : Prop :=
  docker_file_list = None ∨ docker_file_list = Some [].

(** What the FTP step makes of one item: an RPM with its matched paths
    appended, a module source likewise if that leaves it a destination and
    nothing otherwise, any other item as it is. *)
Definition ftp_merged {Metadata} (raw : Raw Metadata) (item : PushItem)
    : list PushItem :=
  if decide (cls item = RpmPushItem) then
    [evolve_dest item
       (Some (default [] (dest item) ++ matched_rpm_paths raw (name item)))]
  else if decide (cls item = ModuleMdSourcePushItem) then
    if list_truthy (default [] (dest item) ++ matched_module_paths raw (build item))
    then [evolve_dest item
            (Some (default [] (dest item) ++
                   matched_module_paths raw (build item)))]
    else []
  else [item].

(** The items the loop of [_module_push_items_from_build] makes of the
    items koji yields, [modules] being the copy of the declared modules:
    each item gets the destinations declared under the base name of its
    file, which are then popped, so that a later item with the same base
    name gets none. The list stops at an item without a file, on which the
    loop raises. *)
Fixpoint module_items (erratum : PushItem) (modules : dict (list string))
    (items : list PushItem) : list PushItem :=
  match items with
  | [] => []
  | push_item :: rest =>
      match src push_item with
      | None => []
      | Some path =>
          evolve_origin
            (evolve_dest push_item
               (Some (default [] (dict_get modules (Str.basename path)))))
            (name erratum)
          :: module_items erratum (dict_del modules (Str.basename path)) rest
      end
  end.

(** The selector of module reconciliation: the build, and the declared
    filenames followed by ["modulemd.src.txt"]. *)
Definition module_selector (build_nvr : string) (build_info : BuildInfo.t)
    (w : World) : KojiSelector :=
  SelModule [build_nvr]
    (dict_keys (declared_modules build_info w) ++ ["modulemd.src.txt"]).

(** The error of [_module_push_items_from_build]. *)
Definition missing_modules_error (erratum : PushItem) (build_nvr : string)
    (missing : list string) : exn :=
  ValueError ("koji build " +:+ build_nvr +:+ " does not contain " +:+
              Str.join ", " missing +:+
              " (requested by advisory " +:+ name erratum +:+ ")").

(** A computation that changes the world by logging only, and one that
    changes it by logging and by koji events only: every property of the
    world that those keep, the computation keeps. *)
Definition log_only {A} (m : M A) : Prop :=
  ∀ P : World → Prop,
    (∀ lv f a, preserves P (log_call lv f a)) → preserves P m.

Definition log_and_koji_only {A} (m : M A) : Prop :=
  ∀ P : World → Prop,
    (∀ lv f a, preserves P (log_call lv f a)) →
    (∀ e, preserves P (koji_event e)) → preserves P m.

(** What container reconciliation makes of an item that it keeps: an image
    enriched, an operator manifest as it is, each with the advisory as
    origin. *)
Definition container_kept `{Model} (self : ErrataSource) (erratum : PushItem)
    (docker_file_list : dict Docker.t) (item res : PushItem) : Prop :=
  if decide (cls item = ContainerImagePushItem) then
    ∃ item', _enrich_container_push_item self erratum docker_file_list item
             = Ok item' ∧ res = evolve_origin item' (name erratum)
  else res = evolve_origin item (name erratum).

(** [filename] is [stem.arch.rpm] for some stem, [arch] holding no dot:
    [arch] is what stands between the last two dots of the filename. *)
Definition rpm_of_arch (filename arch : string) : Prop :=
  ¬ Str.occurs "." arch ∧
  ∃ stem, filename = stem +:+ "." +:+ arch +:+ ".rpm".

(** The scheme, the host and the path of a parsed URL, put together as
    [_errata_service_url] does. *)
Definition url_base (parsed : Url.parsed) : string :=
  Url.scheme parsed +:+ "://" +:+ Url.netloc parsed +:+ Url.path parsed.

(** The items of one build of the file list: its RPMs, then its modules. *)
Definition build_items `{Model} (archstr : string → string)
    (koji : KojiSelector → list PushItem) (self : ErrataSource)
    (erratum : PushItem) (entry : string * BuildInfo.t) : M (list PushItem) :=
  rpm_items <- _rpm_push_items_from_build archstr koji self erratum
                 entry.1 entry.2 ;;
  module_items <- _module_push_items_from_build koji self erratum
                    entry.1 entry.2 ;;
  ret (rpm_items ++ module_items).

(** What module reconciliation makes of an item koji yields, [modules]
    being the declared modules: the destinations declared under the base
    name of its file, and the advisory as origin. *)
Definition module_enriched (erratum : PushItem) (modules : dict (list string))
    (item : PushItem) : PushItem :=
  evolve_origin
    (evolve_dest item
       (Some (default []
                (dict_get modules
                   (Str.basename (default EmptyString (src item)))))))
    (name erratum).

(** * Properties *)

(** ** Strings *)

Lemma append_cons a (s t : string) : String a s +:+ t = String a (s +:+ t).
Proof. reflexivity. Qed.

Lemma append_nil_l (s : string) : EmptyString +:+ s = s.
Proof. reflexivity. Qed.

Lemma startswith_spec p s :
  Str.startswith p s = true ↔ ∃ post, s = p +:+ post.
Proof.
  revert s. induction p as [|a p IH]; intros s; simpl.
  - split; [intros _; by exists s | done].
  - destruct s as [|b s].
    + split; [done | intros [post H]; discriminate H].
    + rewrite andb_true_iff, IH. split.
      * intros [Hab [post ->]]. apply Ascii.eqb_eq in Hab as ->.
        by exists post.
      * intros [post H]. rewrite append_cons in H. injection H as -> ->.
        split; [apply Ascii.eqb_refl | by exists post].
Qed.

(** [needle in s] holds exactly when [s] is some prefix, the needle and
    some suffix. *)
Lemma contains_spec needle s :
  Str.contains needle s = true ↔ ∃ pre post, s = pre +:+ needle +:+ post.
Proof.
  induction s as [|c s IH]; simpl.
  - rewrite orb_false_r, startswith_spec. split.
    + intros [post H]. by exists EmptyString, post.
    + intros [[|a pre] [post H]]; [by exists post | discriminate H].
  - rewrite orb_true_iff, startswith_spec, IH. split.
    + intros [[post H] | [pre [post ->]]].
      * by exists EmptyString, post.
      * by exists (String c pre), post.
    + intros [[|a pre] [post H]].
      * left. by exists post.
      * right. rewrite append_cons in H. injection H as -> ->.
        by exists pre, post.
Qed.

(** [split] is never empty, its components hold no separator, and joining
    them with the separator gives the string back. *)
Lemma split_not_nil sep s : Str.split sep s ≠ [].
Proof.
  destruct s as [|c s]; simpl; [done |].
  destruct (Ascii.eqb c sep); [done |]. by destruct (Str.split sep s).
Qed.

Lemma split_join sep s :
  Str.join (String sep EmptyString) (Str.split sep s) = s.
Proof.
  induction s as [|c s IH]; simpl; [done |].
  destruct (Ascii.eqb c sep) eqn:Hc.
  - apply Ascii.eqb_eq in Hc as ->.
    pose proof (split_not_nil sep s) as Hne.
    unfold Str.join in *. simpl.
    destruct (Str.split sep s) as [|w ws]; [done |].
    by rewrite IH.
  - pose proof (split_not_nil sep s) as Hne.
    unfold Str.join in *.
    destruct (Str.split sep s) as [|w ws]; [done |].
    simpl in *. destruct ws; simpl in *; by rewrite <- IH.
Qed.

Lemma split_no_sep sep s w : w ∈ Str.split sep s → ¬ Str.occurs sep w.
Proof.
  revert w. induction s as [|c s IH]; intros w; simpl.
  - intros ->%list_elem_of_singleton. intros [].
  - destruct (Ascii.eqb c sep) eqn:Hc.
    + intros [-> | Hw]%elem_of_cons; [intros [] | by apply IH].
    + apply Ascii.eqb_neq in Hc.
      pose proof (split_not_nil sep s) as Hne.
      destruct (Str.split sep s) as [|w' ws]; [done |].
      intros [-> | Hw]%elem_of_cons.
      * simpl. intros [? | Ho]; [done |].
        apply (IH w'); [apply elem_of_cons; by left | done].
      * apply IH. apply elem_of_cons. by right.
Qed.

(** ** Loops *)

Local Open Scope py_scope.

Ltac unfold_monad :=
  unfold bind, ret, raise, lift, log_call, koji_event, heap_alloc, heap_read,
    heap_pop, finally in *; simpl in *.

Lemma for_each_nil {A S} (body : A → S → M S) s w :
  for_each [] body s w = (w, Ok s).
Proof. reflexivity. Qed.

Lemma for_each_cons {A S} (body : A → S → M S) x l s w :
  for_each (x :: l) body s w =
  match body x s w with
  | (w', Ok s') => for_each l body s' w'
  | (w', Raise e) => (w', Raise e)
  end.
Proof. reflexivity. Qed.

(** A property of the loop state that every iteration keeps holds when the
    loop returns. *)
Lemma for_each_invariant {A S} (I : S → Prop) (body : A → S → M S) l :
  (∀ x s w w' s', x ∈ l → I s → body x s w = (w', Ok s') → I s') →
  ∀ s w w' s', I s → for_each l body s w = (w', Ok s') → I s'.
Proof.
  induction l as [|x l IH]; intros Hbody s w w' s' Hs Hrun.
  - rewrite for_each_nil in Hrun. by simplify_eq.
  - rewrite for_each_cons in Hrun.
    destruct (body x s w) as [w1 [s1|e]] eqn:Hx; [|done].
    apply (IH (λ y t v v' t' Hy, Hbody y t v v' t' (list_elem_of_further _ _ _ Hy))
              s1 w1 w' s'); [|done].
    eapply Hbody; [apply list_elem_of_here | done | done].
Qed.

(** A relation between worlds that is reflexive, transitive and kept by
    every iteration, whatever its outcome, relates the worlds around the
    loop. *)
Lemma for_each_world {A S} (R : World → World → Prop) (body : A → S → M S) l :
  (∀ w, R w w) →
  (∀ w1 w2 w3, R w1 w2 → R w2 w3 → R w1 w3) →
  (∀ x s w, x ∈ l → R w (body x s w).1) →
  ∀ s w, R w (for_each l body s w).1.
Proof.
  intros Hrefl Htrans. induction l as [|x l IH]; intros Hbody s w.
  - apply Hrefl.
  - rewrite for_each_cons.
    pose proof (Hbody x s w (list_elem_of_here _ _)) as Hx.
    destruct (body x s w) as [w1 [s1|e]]; simpl in *; [|done].
    eapply Htrans; [exact Hx |]. apply IH.
    intros y t v Hy. apply Hbody. by apply list_elem_of_further.
Qed.

(** ** RPM reconciliation *)

Section rpm_properties.
Variable archstr : string → string.
Variable koji : KojiSelector → list PushItem.
Variable self : ErrataSource.
Context {model : Model}.

Lemma names_module_build_test build_nvr resolved :
  bool_decide (resolved ≠ build_nvr) && Str.contains ".module" resolved = true
  ↔ names_module_build build_nvr resolved.
Proof.
  unfold names_module_build.
  by rewrite andb_true_iff, bool_decide_eq_true, contains_spec.
Qed.

(** The item [evolve_rpm] returns: the item given with the fields set that
    the class accepted. *)
Lemma evolve_rpm_ok item sha md d o mb item' :
  evolve_rpm item sha md d o mb = Ok item' →
  ∃ sha' md' d',
    rpm_fields sha md d = Ok (sha', md', d') ∧
    item' = mkPushItem (cls item) (name item) (state item) (src item) (Some d')
              (Some o) (build item) (signing_key item) sha' md' mb
              (dest_signing_key item).
Proof.
  unfold evolve_rpm.
  destruct (rpm_fields sha md d) as [[[sha' md'] d']|e]; [|done].
  intros [= <-]. by exists sha', md', d'.
Qed.

Lemma rpm_push_items_step_module_build erratum build_nvr rpms sha md
    push_item out w w' out' :
  rpm_push_items_step erratum build_nvr rpms sha md push_item out w
    = (w', Ok out') →
  ∃ item, out' = out ++ [item] ∧ build item = build push_item ∧
    ((names_module_build build_nvr (build item) →
      module_build item = Some build_nvr) ∧
     (¬ names_module_build build_nvr (build item) →
      module_build item = None)).
Proof.
  unfold rpm_push_items_step. case_bool_decide; unfold_monad; [done |].
  destruct (evolve_rpm _ _ _ _ _ _) as [item|e] eqn:Hitem; [|done].
  apply evolve_rpm_ok in Hitem as (sha' & md' & d' & _ & ->).
  intros [= <- <-]. eexists. split; [done |]. simpl. split; [done |].
  destruct (bool_decide (build push_item ≠ build_nvr)
            && Str.contains ".module" (build push_item)) eqn:Htest.
  - split; [done |]. intros Hn. by apply names_module_build_test in Htest.
  - split; [|done]. intros Hy%names_module_build_test. congruence.
Qed.

(** C1, as the code has it: every RPM push item that RPM reconciliation
    produces carries the advisory's build NVR as [module_build] exactly
    when its own build NVR differs from the advisory's and contains
    [".module"] (with the dot); otherwise [module_build] is [None]. *)
Theorem rpm_module_build_set_iff_dot_module erratum build_nvr build_info
    w w' out :
  _rpm_push_items_from_build archstr koji self erratum build_nvr build_info w
    = (w', Ok out) →
  ∀ item, item ∈ out →
    (names_module_build build_nvr (build item) →
     module_build item = Some build_nvr) ∧
    (¬ names_module_build build_nvr (build item) →
     module_build item = None).
Proof.
  unfold _rpm_push_items_from_build, bind at 1.
  destruct (_filter_rpms_by_arch _ _ _ _ w) as [w1 [names|e]]; [|done].
  unfold bind at 1.
  destruct (_koji_source _ _ w1) as [w2 [koji_source|e]]; [|done].
  intros Hloop.
  eapply (for_each_invariant
            (λ out, ∀ item, item ∈ out →
               (names_module_build build_nvr (build item) →
                module_build item = Some build_nvr) ∧
               (¬ names_module_build build_nvr (build item) →
                module_build item = None))); [ | | exact Hloop].
  - intros x s v v' s' _ Hs Hstep.
    apply rpm_push_items_step_module_build in Hstep
      as (item' & -> & _ & Hitem').
    intros item [Hin | ->%list_elem_of_singleton]%elem_of_app; auto.
  - intros item Hin. by apply elem_of_nil in Hin.
Qed.

End rpm_properties.

(** ** The arch filter *)

Section arch_filter_properties.
Variable archstr : string → string.
Variable self : ErrataSource.
Context {model : Model}.

Lemma index_from_end_last {A} (l : list A) : Str.index_from_end l 1 = last l.
Proof. unfold Str.index_from_end. simpl. by rewrite <- head_lookup, head_reverse. Qed.

(** A filename that the filter keeps is made of at least three
    components, the last of which is ["rpm"]. *)
Lemma arch_filter_keeps_shape ok_arches filename :
  arch_filter_keeps archstr ok_arches filename = true →
  3 ≤ length (Str.split "." filename) ∧
  last (Str.split "." filename) = Some "rpm".
Proof.
  unfold arch_filter_keeps. rewrite !andb_true_iff, !bool_decide_eq_true.
  rewrite index_from_end_last. tauto.
Qed.

(** With a filter set, the loop returns the filenames the test keeps, in
    their order, and logs the others. *)
Lemma filter_rpms_loop erratum ok_arches l out w :
  ∃ w', for_each l (filter_rpms_step archstr erratum ok_arches) out w
        = (w', Ok (out ++ filter (λ f, arch_filter_keeps archstr ok_arches f) l))
        ∧ heap w' = heap w ∧ koji_events w' = koji_events w.
Proof.
  revert out w. induction l as [|f l IH]; intros out w.
  - exists w. by rewrite for_each_nil, filter_nil, app_nil_r.
  - rewrite for_each_cons. unfold filter_rpms_step at 1.
    destruct (arch_filter_keeps archstr ok_arches f) eqn:Hf; unfold_monad.
    + destruct (IH (out ++ [f]) w) as (w' & -> & ? & ?). exists w'.
      rewrite filter_cons_True by (by rewrite Hf).
      by rewrite <- app_assoc.
    + match goal with |- context [for_each l _ out ?v] =>
        destruct (IH out v) as (w' & -> & ? & ?) end.
      exists w'. by rewrite filter_cons_False by (rewrite Hf; simpl; tauto).
Qed.

(** C3, as the code has it: when an arch filter is set (even an empty
    one), a filename whose last dot-separated component is not ["rpm"] or
    that has fewer than three components is never in the output of the
    filter; when no filter is set the filenames are returned as they
    are. *)
Theorem arch_filter_excludes_malformed erratum rpm_filenames filename w :
  last (Str.split "." filename) ≠ Some "rpm"
  ∨ length (Str.split "." filename) < 3 →
  match _rpm_filter_arch self with
  | Some _ =>
      ∃ w' out,
        _filter_rpms_by_arch archstr self erratum rpm_filenames w = (w', Ok out)
        ∧ filename ∉ out
  | None =>
      _filter_rpms_by_arch archstr self erratum rpm_filenames w
        = (w, Ok rpm_filenames)
  end.
Proof.
  intros Hbad. unfold _filter_rpms_by_arch.
  destruct (_rpm_filter_arch self) as [filter_arch|]; [|done].
  destruct (filter_rpms_loop erratum (archstr <$> filter_arch)
              rpm_filenames [] w) as (w' & Hrun & _).
  exists w', (filter (λ f, arch_filter_keeps archstr (archstr <$> filter_arch) f)
                rpm_filenames).
  split; [exact Hrun |].
  intros [Hkeep%Is_true_true _]%list_elem_of_filter.
  apply arch_filter_keeps_shape in Hkeep as [Hlen Hlast].
  destruct Hbad as [Hbad | Hbad]; [done | lia].
Qed.

End arch_filter_properties.

(** A loop invariant may speak of the elements already visited. *)
Lemma for_each_prefix_invariant {A S} (I : list A → S → Prop)
    (body : A → S → M S) l :
  (∀ pre x s w w' s',
     (∃ post, l = pre ++ x :: post) → I pre s →
     body x s w = (w', Ok s') → I (pre ++ [x]) s') →
  ∀ s w w' s', I [] s → for_each l body s w = (w', Ok s') → I l s'.
Proof.
  intros Hbody.
  cut (∀ todo pre s w w' s',
         l = pre ++ todo → I pre s →
         for_each todo body s w = (w', Ok s') → I (pre ++ todo) s').
  { intros H s w w' s' Hs Hrun. by apply (H l [] s w w' s'). }
  induction todo as [|x todo IH]; intros pre s w w' s' Hl Hs Hrun.
  - rewrite for_each_nil in Hrun. simplify_eq. by rewrite app_nil_r.
  - rewrite for_each_cons in Hrun.
    destruct (body x s w) as [w1 [s1|e]] eqn:Hx; [|done].
    rewrite cons_middle, app_assoc.
    apply (IH (pre ++ [x]) s1 w1 w' s'); [by rewrite <- app_assoc | | done].
    eapply Hbody; [by exists todo | done | done].
Qed.

(** ** The FTP paths step *)

Section ftp_step_properties.
Variable erratum : PushItem.
Variable tables : FtpTables.

Lemma truthy_app_r {A} (d : list A) (paths : option (list A)) :
  opt_truthy paths = true → list_truthy (d ++ default [] paths) = true.
Proof.
  destruct paths as [[|p paths]|]; simpl; try done.
  intros _. by destruct d.
Qed.

(** What one iteration does when it does not raise. *)
Lemma add_ftp_paths_step_ok item out have w w' out' have' :
  add_ftp_paths_step erratum tables item (out, have) w
    = (w', Ok (out', have')) →
  (cls item = RpmPushItem ∧ have' = have ∧
   ∃ d, dest item = Some d ∧
     out' = out ++ [evolve_dest item
                      (Some (d ++ default []
                               (dict_get (rpm_to_paths tables) (name item))))])
  ∨ (cls item = ModuleMdSourcePushItem ∧
     opt_truthy (dict_get (build_to_module_paths tables) (build item)) = true ∧
     have' = have ∪ {[build item]} ∧
     ∃ d, dest item = Some d ∧
       out' = out ++ [evolve_dest item
                        (Some (d ++ default []
                                 (dict_get (build_to_module_paths tables)
                                    (build item))))])
  ∨ (cls item = ModuleMdSourcePushItem ∧
     opt_truthy (dict_get (build_to_module_paths tables) (build item)) = false ∧
     have' = have ∧
     ((opt_truthy (dest item) = true ∧ out' = out ++ [item])
      ∨ (opt_truthy (dest item) = false ∧ out' = out)))
  ∨ (cls item ≠ RpmPushItem ∧ cls item ≠ ModuleMdSourcePushItem ∧
     have' = have ∧ out' = out ++ [item]).
Proof.
  unfold add_ftp_paths_step.
  destruct (decide (cls item = RpmPushItem)) as [Hrpm|Hrpm].
  { destruct (dest item) as [d|] eqn:Hd; unfold_monad; [|done].
    intros [= <- <- <-]. left. eauto. }
  destruct (decide (cls item = ModuleMdSourcePushItem)) as [Hms|Hms].
  2:{ unfold_monad. intros [= <- <- <-]. do 3 right. eauto. }
  destruct (opt_truthy (dict_get (build_to_module_paths tables) (build item)))
    eqn:Hpaths; unfold bind at 1.
  - destruct (dest item) as [d|] eqn:Hd; unfold_monad; [|done].
    rewrite (truthy_app_r d _ Hpaths). intros [= <- <- <-].
    right. left. eauto 10.
  - unfold_monad.
    destruct (opt_truthy (dest item)) eqn:Hd; intros [= <- <- <-];
      right; right; left; eauto 10.
Qed.

(** An iteration leaves the heap and the koji calls alone and logs at
    debug level only. *)
Lemma add_ftp_paths_step_world item st w :
  let w' := (add_ftp_paths_step erratum tables item st w).1 in
  heap w' = heap w ∧ koji_events w' = koji_events w ∧
  ∃ new, log w' = log w ++ new ∧ Forall (λ r, level r = DEBUG) new.
Proof.
  destruct st as [out have]. unfold add_ftp_paths_step.
  assert (∃ new : list LogRecord,
            log w = log w ++ new ∧ Forall (λ r, level r = DEBUG) new) as Hnone.
  { exists []. by rewrite app_nil_r. }
  destruct (decide (cls item = RpmPushItem)).
  { destruct (dest item); by unfold_monad. }
  destruct (decide (cls item = ModuleMdSourcePushItem)); [|by unfold_monad].
  destruct (opt_truthy (dict_get (build_to_module_paths tables) (build item))).
  - destruct (dest item) as [d|]; unfold_monad; [|done].
    destruct (list_truthy _); simpl; [done |].
    split; [done |]. split; [done |]. eexists. split; [done |].
    by repeat constructor.
  - unfold_monad. destruct (opt_truthy (dest item)); simpl; [done |].
    split; [done |]. split; [done |]. eexists. split; [done |].
    by repeat constructor.
Qed.

(** An iteration over an item whose [dest] is a list does not raise. *)
Lemma add_ftp_paths_step_total item st w :
  is_Some (dest item) →
  ∃ st', (add_ftp_paths_step erratum tables item st w).2 = Ok st'.
Proof.
  intros [d Hd]. destruct st as [out have]. unfold add_ftp_paths_step.
  rewrite Hd.
  destruct (decide (cls item = RpmPushItem)); [by eexists |].
  destruct (decide (cls item = ModuleMdSourcePushItem)); [|by eexists].
  destruct (opt_truthy (dict_get (build_to_module_paths tables) (build item)));
    unfold_monad.
  - destruct (list_truthy _); by eexists.
  - rewrite Hd. simpl. destruct (list_truthy d); by eexists.
Qed.

End ftp_step_properties.

Section ftp_properties.
Variable Metadata : Type.
Implicit Types (raw : Raw Metadata) (items out : list PushItem).

(** When [_add_ftp_paths] returns, its second loop returned the same
    list. *)
Lemma add_ftp_paths_returns items erratum raw w w' out :
  _add_ftp_paths Metadata items erratum raw w = (w', Ok out) →
  ∃ w1 have,
    for_each items
      (add_ftp_paths_step erratum (ftp_tables (ftp_paths raw))) ([], ∅) w
    = (w1, Ok (out, have)).
Proof.
  unfold _add_ftp_paths. unfold bind at 1.
  destruct (for_each items _ _ w) as [w1 [[out1 have]|e]]; [|done].
  unfold bind at 1.
  destruct (for_each (sorted_set _) _ _ w1) as [w2 [[et kj]|e]]; [|done].
  unfold bind.
  destruct (list_truthy et), (list_truthy kj); unfold_monad;
    intros [= <- <-]; eauto.
Qed.

(** C6: the RPM items that leave the FTP step are the RPM items that
    entered it, in the same order and none dropped, each with the matched
    FTP paths appended to its destinations: the new list is as long as
    the old one plus the matched paths, repeated entries included, and an
    item with no matched path is still rebuilt with the empty list
    appended. *)
Theorem ftp_paths_appended_to_rpms items erratum raw w w' out :
  _add_ftp_paths Metadata items erratum raw w = (w', Ok out) →
  Forall2 (rpm_merged raw)
    (filter (λ item, cls item = RpmPushItem) items)
    (filter (λ item, cls item = RpmPushItem) out).
Proof.
  intros (w1 & have & Hloop)%add_ftp_paths_returns.
  apply (for_each_prefix_invariant
           (λ pre (st : list PushItem * gset string),
              Forall2 (rpm_merged raw)
                (filter (λ item, cls item = RpmPushItem) pre)
                (filter (λ item, cls item = RpmPushItem) st.1))) in Hloop;
    [done | | by constructor].
  intros pre x [o h] v v' [o' h'] _ IH Hstep. simpl in *.
  rewrite filter_app.
  apply add_ftp_paths_step_ok in Hstep
    as [(Hc & _ & d & Hd & ->) | [(Hc & _ & _ & d & Hd & ->) |
        [(Hc & _ & _ & [[_ ->] | [_ ->]]) | (Hc1 & Hc2 & _ & ->)]]].
  - rewrite filter_app. apply Forall2_app; [done |].
    rewrite !filter_cons_True, filter_nil by done.
    constructor; [|constructor].
    exists d. unfold matched_rpm_paths. by rewrite length_app.
  - rewrite filter_app, !filter_cons_False by (simpl; congruence).
    by rewrite filter_nil, !app_nil_r.
  - rewrite filter_app, !filter_cons_False by (simpl; congruence).
    by rewrite filter_nil, !app_nil_r.
  - rewrite !filter_cons_False by (simpl; congruence).
    by rewrite filter_nil, !app_nil_r.
  - rewrite filter_app, !filter_cons_False by (simpl; congruence).
    by rewrite filter_nil, !app_nil_r.
Qed.

(** The module sources in the list the second loop of [_add_ftp_paths]
    builds. *)
Lemma module_sources_of_loop items erratum raw w w1 out have :
  for_each items
    (add_ftp_paths_step erratum (ftp_tables (ftp_paths raw))) ([], ∅) w
  = (w1, Ok (out, have)) →
  ∀ item, item ∈ out → cls item = ModuleMdSourcePushItem →
    ∃ orig d,
      orig ∈ items ∧ cls orig = ModuleMdSourcePushItem ∧
      dest orig = Some d ∧
      item = evolve_dest orig (Some (d ++ matched_module_paths raw (build orig))) ∧
      dest item = Some (d ++ matched_module_paths raw (build orig)) ∧
      d ++ matched_module_paths raw (build orig) ≠ [].
Proof.
  intros Hloop. change out with (out, have).1.
  eapply (for_each_prefix_invariant
            (λ pre (st : list PushItem * gset string),
               ∀ item, item ∈ st.1 → cls item = ModuleMdSourcePushItem →
                 ∃ orig d,
                   orig ∈ pre ∧ cls orig = ModuleMdSourcePushItem ∧
                   dest orig = Some d ∧
                   item = evolve_dest orig
                            (Some (d ++ matched_module_paths raw (build orig))) ∧
                   dest item = Some (d ++ matched_module_paths raw (build orig)) ∧
                   d ++ matched_module_paths raw (build orig) ≠ []));
    [ | | exact Hloop]; [|intros item Hin; by apply elem_of_nil in Hin].
  intros pre x [o h] v v' [o' h'] _ IH Hstep. simpl in *.
  assert (∀ item, item ∈ o → cls item = ModuleMdSourcePushItem →
            ∃ orig d,
              orig ∈ pre ++ [x] ∧ cls orig = ModuleMdSourcePushItem ∧
              dest orig = Some d ∧
              item = evolve_dest orig
                       (Some (d ++ matched_module_paths raw (build orig))) ∧
              dest item = Some (d ++ matched_module_paths raw (build orig)) ∧
              d ++ matched_module_paths raw (build orig) ≠ []) as IH'.
  { intros item Hin Hc. destruct (IH item Hin Hc) as (orig & d & Ho & H).
    exists orig, d. split; [|done]. apply elem_of_app. by left. }
  assert (x ∈ pre ++ [x]) as Hx.
  { apply elem_of_app. right. by apply list_elem_of_singleton. }
  apply add_ftp_paths_step_ok in Hstep
    as [(Hc & _ & d & Hd & ->) | [(Hc & Hp & _ & d & Hd & ->) |
        [(Hc & Hp & _ & [[Hd ->] | [_ ->]]) | (Hc1 & Hc2 & _ & ->)]]];
    intros item Hin Hcls.
  - apply elem_of_app in Hin as [Hin | ->%list_elem_of_singleton]; [eauto |].
    simpl in Hcls. congruence.
  - apply elem_of_app in Hin as [Hin | ->%list_elem_of_singleton]; [eauto |].
    exists x, d. unfold matched_module_paths.
    repeat split; try done.
    intros Hnil. pose proof (truthy_app_r d _ Hp) as Ht.
    by rewrite Hnil in Ht.
  - apply elem_of_app in Hin as [Hin | ->%list_elem_of_singleton]; [eauto |].
    destruct (dest x) as [d|] eqn:Hdest; [|done].
    exists x, d. unfold matched_module_paths.
    destruct (dict_get _ (build x)) as [[|p ps]|]; try done; simpl;
      rewrite app_nil_r; (repeat split; try done);
      [by destruct x; simplify_eq/= | by destruct d
      | by destruct x; simplify_eq/= | by destruct d].
  - eauto.
  - apply elem_of_app in Hin as [Hin | ->%list_elem_of_singleton]; [eauto |].
    congruence.
Qed.

(** C7: a module source that leaves the FTP step has at least one
    destination, and its destinations are those it entered with followed
    by the paths matched with its build. *)
Theorem module_sources_keep_dest_or_drop items erratum raw w w' out :
  _add_ftp_paths Metadata items erratum raw w = (w', Ok out) →
  ∀ item, item ∈ out → cls item = ModuleMdSourcePushItem →
    ∃ orig d,
      orig ∈ items ∧ cls orig = ModuleMdSourcePushItem ∧
      dest orig = Some d ∧
      item = evolve_dest orig (Some (d ++ matched_module_paths raw (build orig))) ∧
      dest item = Some (d ++ matched_module_paths raw (build orig)) ∧
      d ++ matched_module_paths raw (build orig) ≠ [].
Proof.
  intros (w1 & have & Hloop)%add_ftp_paths_returns item Hin Hcls.
  destruct (module_sources_of_loop _ _ _ _ _ _ _ Hloop item Hin Hcls)
    as (orig & d & Horig & Hc & Hd & Hitem & Hdest & Hne).
  exists orig, d. repeat split; assumption.
Qed.

End ftp_properties.

(** ** Dictionaries, sorting and the tables of the FTP step *)

Lemma dict_get_set {V} (d : dict V) k v k' :
  dict_get (dict_set d k v) k' = if decide (k = k') then Some v else dict_get d k'.
Proof.
  induction d as [|[k0 v0] d IH]; simpl.
  - done.
  - destruct (decide (k0 = k)) as [->|Hne]; simpl.
    + by destruct (decide (k = k')).
    + destruct (decide (k0 = k')) as [->|Hne'].
      * by rewrite decide_False by done.
      * done.
Qed.

Lemma sorted_set_elem_of (s : gset string) x : x ∈ sorted_set s ↔ x ∈ s.
Proof.
  unfold sorted_set. by rewrite merge_sort_Permutation, elem_of_elements.
Qed.

Lemma sorted_set_NoDup (s : gset string) : NoDup (sorted_set s).
Proof.
  unfold sorted_set. rewrite merge_sort_Permutation. apply NoDup_elements.
Qed.

Lemma sorted_set_sorted (s : gset string) : StronglySorted String.le (sorted_set s).
Proof. apply StronglySorted_merge_sort; apply _. Qed.

Lemma StronglySorted_filter {A} (R : relation A) (P : A → Prop)
    `{∀ x, Decision (P x)} l :
  StronglySorted R l → StronglySorted R (filter P l).
Proof.
  induction 1 as [|x l Hl IH Hx]; [constructor |].
  rewrite filter_cons. case_decide; [|done].
  constructor; [done |]. rewrite Forall_forall in *.
  intros y [_ Hy]%list_elem_of_filter. by apply Hx.
Qed.

Lemma ftp_tables_step_need t nvr build_map x :
  x ∈ builds_need_modules (ftp_tables_step t (nvr, build_map)) ↔
  x ∈ builds_need_modules t ∨ (x = nvr ∧ opt_truthy (Ftp.modules build_map) = true).
Proof.
  unfold ftp_tables_step. simpl.
  destruct (Ftp.modules build_map) as [[|p ps]|]; simpl;
    rewrite ?elem_of_union, ?elem_of_singleton; intuition congruence.
Qed.

Lemma ftp_tables_fold_need ftp t x :
  x ∈ builds_need_modules (fold_left ftp_tables_step ftp t) ↔
  x ∈ builds_need_modules t ∨
  ∃ build_map, (x, build_map) ∈ ftp ∧ opt_truthy (Ftp.modules build_map) = true.
Proof.
  revert t. induction ftp as [|[nvr bm] ftp IH]; intros t; cbn [fold_left].
  - split; [auto |]. intros [? | (bm & Hin & _)]; [done |].
    by apply elem_of_nil in Hin.
  - rewrite IH, ftp_tables_step_need. split.
    + intros [[? | [-> ?]] | (bm' & Hin & ?)]; [by left | right..].
      * exists bm. split; [apply list_elem_of_here | done].
      * exists bm'. split; [by apply list_elem_of_further | done].
    + intros [? | (bm' & [[= -> ->] | Hin]%elem_of_cons & ?)]; [by do 2 left | |].
      * left. by right.
      * right. by exists bm'.
Qed.

(** [builds_need_modules] holds the builds for which the FTP paths declare
    modules. *)
Lemma builds_need_modules_spec {Metadata} (raw : Raw Metadata) nvr :
  nvr ∈ builds_need_modules (ftp_tables (ftp_paths raw)) ↔
  alt_declares_modules raw nvr.
Proof.
  unfold ftp_tables, alt_declares_modules. rewrite ftp_tables_fold_need.
  simpl. split; [intros [Hin | H]; [|done] | by right].
  by apply not_elem_of_empty in Hin.
Qed.

Lemma ftp_tables_fold_modules_other ftp t nvr :
  nvr ∉ ftp.*1 →
  dict_get (build_to_module_paths (fold_left ftp_tables_step ftp t)) nvr
  = dict_get (build_to_module_paths t) nvr.
Proof.
  revert t. induction ftp as [|[k bm] ftp IH]; intros t Hnot;
    cbn [fold_left]; [done |].
  rewrite fmap_cons, not_elem_of_cons in Hnot. destruct Hnot as [Hne Hnot].
  rewrite IH by done. simpl. rewrite dict_get_set.
  by rewrite decide_False by done.
Qed.

(** With one entry per build, [build_to_module_paths] holds for a build
    the modules its entry declares. *)
Lemma ftp_tables_fold_modules ftp t nvr build_map :
  NoDup ftp.*1 → (nvr, build_map) ∈ ftp →
  dict_get (build_to_module_paths (fold_left ftp_tables_step ftp t)) nvr
  = Some (default [] (Ftp.modules build_map)).
Proof.
  revert t. induction ftp as [|[k bm] ftp IH]; intros t Hnd Hin.
  - by apply elem_of_nil in Hin.
  - rewrite fmap_cons, NoDup_cons in Hnd. destruct Hnd as [Hk Hnd].
    cbn [fold_left].
    apply elem_of_cons in Hin as [[= -> ->] | Hin].
    + rewrite ftp_tables_fold_modules_other by done. simpl.
      rewrite dict_get_set. by rewrite decide_True.
    + by apply IH.
Qed.

(** ** Builds without a module source *)

Lemma for_each_total {A S} (body : A → S → M S) l :
  (∀ x s w, x ∈ l → ∃ s', (body x s w).2 = Ok s') →
  ∀ s w, ∃ s', (for_each l body s w).2 = Ok s'.
Proof.
  induction l as [|x l IH]; intros Hbody s w.
  - by exists s.
  - rewrite for_each_cons.
    destruct (Hbody x s w (list_elem_of_here _ _)) as [s1 Hx].
    destruct (body x s w) as [w1 [s1'|e]]; simpl in Hx; [|done].
    apply IH. intros y t v Hy. apply Hbody. by apply list_elem_of_further.
Qed.

Section missing_modules_properties.
Variable Metadata : Type.
Implicit Types (raw : Raw Metadata) (items out : list PushItem).

Lemma cdn_file_list_modules_run raw nvr w :
  cdn_file_list_modules Metadata raw nvr w = (w, Ok (manifest_modules raw w nvr)).
Proof.
  unfold cdn_file_list_modules, manifest_modules.
  by destruct (or_get _ _).
Qed.

(** The loop over the missing builds splits them by whether the file
    list declares modules for them, and changes nothing. *)
Lemma missing_modules_loop raw l et kj w :
  for_each l (missing_modules_step Metadata raw) (et, kj) w
  = (w, Ok (et ++ filter (λ nvr, ¬ manifest_declares_modules raw w nvr) l,
            kj ++ filter (λ nvr, manifest_declares_modules raw w nvr) l)).
Proof.
  revert et kj. induction l as [|nvr l IH]; intros et kj.
  - by rewrite for_each_nil, !filter_nil, !app_nil_r.
  - rewrite for_each_cons. unfold missing_modules_step at 1.
    unfold bind. rewrite cdn_file_list_modules_run.
    unfold manifest_declares_modules in *.
    destruct (manifest_modules raw w nvr) as [|m ms] eqn:Hm; unfold_monad.
    + rewrite IH. rewrite filter_cons_True by (rewrite Hm; auto).
      rewrite (filter_cons_False (λ nvr, manifest_modules raw w nvr ≠ []))
        by (rewrite Hm; auto).
      by rewrite <- app_assoc.
    + rewrite IH.
      rewrite filter_cons_False by (rewrite Hm; intros H; by apply H).
      rewrite (filter_cons_True (λ nvr, manifest_modules raw w nvr ≠ []))
        by (by rewrite Hm).
      by rewrite <- app_assoc.
Qed.

(** After the second loop, [builds_have_modules] holds the builds of the
    module sources for which the table has paths. *)
Lemma builds_have_modules_spec erratum tables items w w' out have :
  for_each items (add_ftp_paths_step erratum tables) ([], ∅) w
    = (w', Ok (out, have)) →
  ∀ nvr, nvr ∈ have ↔
    ∃ item, item ∈ items ∧ cls item = ModuleMdSourcePushItem ∧
      build item = nvr ∧
      opt_truthy (dict_get (build_to_module_paths tables) nvr) = true.
Proof.
  intros Hloop. change have with (out, have).2.
  eapply (for_each_prefix_invariant
            (λ pre (st : list PushItem * gset string),
               ∀ nvr, nvr ∈ st.2 ↔
                 ∃ item, item ∈ pre ∧ cls item = ModuleMdSourcePushItem ∧
                   build item = nvr ∧
                   opt_truthy (dict_get (build_to_module_paths tables) nvr)
                     = true)); [ | | exact Hloop].
  - intros pre x [o h] v v' [o' h'] _ IH Hstep nvr. simpl in *.
    assert ((∃ item, item ∈ pre ++ [x] ∧ cls item = ModuleMdSourcePushItem ∧
               build item = nvr ∧
               opt_truthy (dict_get (build_to_module_paths tables) nvr) = true)
            ↔ nvr ∈ h ∨
              (cls x = ModuleMdSourcePushItem ∧ build x = nvr ∧
               opt_truthy (dict_get (build_to_module_paths tables) nvr) = true))
      as ->.
    { rewrite IH. split.
      - intros (item & [Hin | ->%list_elem_of_singleton]%elem_of_app & H).
        + left. by exists item.
        + by right.
      - intros [(item & Hin & H) | H].
        + exists item. split; [apply elem_of_app; by left | done].
        + exists x. split; [|done].
          apply elem_of_app. right. by apply list_elem_of_singleton. }
    apply add_ftp_paths_step_ok in Hstep
      as [(Hc & -> & _) | [(Hc & Hp & -> & _) |
          [(Hc & Hp & -> & _) | (Hc1 & Hc2 & -> & _)]]].
    + split; [by left | intros [? | [? _]]; [done | congruence]].
    + rewrite elem_of_union, elem_of_singleton. split.
      * intros [? | ->]; [by left | by right].
      * intros [? | (_ & <- & _)]; [by left | by right].
    + split; [by left | intros [? | (_ & <- & ?)]; [done | congruence]].
    + split; [by left | intros [? | [? _]]; [done | congruence]].
  - intros nvr. simpl. split; [intros Hin; by apply not_elem_of_empty in Hin |].
    intros (item & Hin & _). by apply elem_of_nil in Hin.
Qed.

End missing_modules_properties.

Section alt_path_missing_modules.
Variable Metadata : Type.
Implicit Types (raw : Raw Metadata) (items out : list PushItem).

(** The second loop of [_add_ftp_paths] on items that all carry a list
    of destinations: it returns, and only logs at debug level. *)
Lemma add_ftp_paths_loop_runs erratum tables items w :
  Forall (λ item, is_Some (dest item)) items →
  ∃ w1 out have debugs,
    for_each items (add_ftp_paths_step erratum tables) ([], ∅) w
      = (w1, Ok (out, have)) ∧
    heap w1 = heap w ∧ koji_events w1 = koji_events w ∧
    log w1 = log w ++ debugs ∧ Forall (λ r, level r = DEBUG) debugs.
Proof.
  intros Hdest.
  destruct (for_each_total (add_ftp_paths_step erratum tables) items)
    with (s := ([], ∅) : list PushItem * gset string) (w := w)
    as [[out have] Hok].
  { intros x s v Hx. apply add_ftp_paths_step_total.
    rewrite Forall_forall in Hdest. by apply Hdest. }
  pose proof (for_each_world
    (λ v v', heap v' = heap v ∧ koji_events v' = koji_events v ∧
             ∃ new, log v' = log v ++ new ∧ Forall (λ r, level r = DEBUG) new)
    (add_ftp_paths_step erratum tables) items) as Hworld.
  destruct (Hworld) with (s := ([], ∅) : list PushItem * gset string) (w := w)
    as (Hh & Hk & debugs & Hl & Hd).
  - intros v. split; [done |]. split; [done |]. exists [].
    by rewrite app_nil_r.
  - intros v1 v2 v3 (Hh1 & Hk1 & n1 & Hl1 & Hd1) (Hh2 & Hk2 & n2 & Hl2 & Hd2).
    split; [congruence |]. split; [congruence |]. exists (n1 ++ n2).
    split; [by rewrite Hl2, Hl1, app_assoc | by apply Forall_app].
  - intros x s v _. apply add_ftp_paths_step_world.
  - destruct (for_each items _ _ w) as [w1 r]. simpl in *. subst r.
    by exists w1, out, have, debugs.
Qed.

(** C5: in the FTP paths step, take the builds for which the FTP paths
    declare modules and no module source came back. Those for which the
    file list declares no modules are tolerated: they are named in one
    warning and, if there are no others, the step returns its items.
    If the file list declares modules for any of them, the step raises
    an error that names exactly those builds. Nothing else is logged
    above debug level. *)
Theorem missing_module_sources_warn_or_fail items erratum raw w :
  NoDup (dict_keys (ftp_paths raw)) →
  Forall (λ item, is_Some (dest item)) items →
  ∃ tolerated fatal w' debugs,
    (∀ nvr, nvr ∈ tolerated ↔
       missing_module_source raw items nvr ∧
       ¬ manifest_declares_modules raw w nvr) ∧
    (∀ nvr, nvr ∈ fatal ↔
       missing_module_source raw items nvr ∧
       manifest_declares_modules raw w nvr) ∧
    StronglySorted String.le tolerated ∧ NoDup tolerated ∧
    StronglySorted String.le fatal ∧ NoDup fatal ∧
    (_add_ftp_paths Metadata items erratum raw w).1 = w' ∧
    heap w' = heap w ∧
    Forall (λ r, level r = DEBUG) debugs ∧
    log w' = log w ++ debugs ++
      (if list_truthy tolerated then [missing_et_warning erratum tolerated]
       else []) ∧
    if list_truthy fatal then
      (_add_ftp_paths Metadata items erratum raw w).2
      = Raise (ValueError
                 ("Erratum " +:+ name erratum +:+
                  ": missing modulemd sources on koji build(s): " +:+
                  Str.join ", " fatal))
    else ∃ out, (_add_ftp_paths Metadata items erratum raw w).2 = Ok out.
Proof.
  intros Hnd Hdest.
  destruct (add_ftp_paths_loop_runs erratum (ftp_tables (ftp_paths raw))
              items w Hdest) as (w1 & out & have & debugs & Hloop & Hh & Hk & Hl & Hd).
  pose proof (builds_have_modules_spec _ _ _ _ _ _ _ Hloop) as Hhave.
  set (missing := sorted_set
         (builds_need_modules (ftp_tables (ftp_paths raw)) ∖ have)).
  assert (∀ nvr, nvr ∈ missing ↔ missing_module_source raw items nvr) as Hmissing.
  { intros nvr. unfold missing, missing_module_source.
    rewrite sorted_set_elem_of, elem_of_difference, builds_need_modules_spec.
    rewrite Hhave. unfold module_source_matched. split.
    - intros [Hneed Hnot]. split; [done |].
      intros (item & Hin & Hc & Hb). apply Hnot. exists item.
      repeat split; try done.
      destruct Hneed as (bm & Hbm & Ht).
      unfold ftp_tables.
      rewrite (ftp_tables_fold_modules _ _ _ bm Hnd Hbm).
      by destruct (Ftp.modules bm).
    - intros [Hneed Hnot]. split; [done |].
      intros (item & Hin & Hc & Hb & _). apply Hnot. by exists item. }
  assert (∀ nvr, manifest_declares_modules raw w1 nvr
                 ↔ manifest_declares_modules raw w nvr) as Hdecl.
  { intros nvr. unfold manifest_declares_modules, manifest_modules.
    by rewrite Hh. }
  exists (filter (λ nvr, ¬ manifest_declares_modules raw w1 nvr) missing),
         (filter (λ nvr, manifest_declares_modules raw w1 nvr) missing).
  set (tolerated := filter (λ nvr, ¬ manifest_declares_modules raw w1 nvr) missing).
  set (fatal := filter (λ nvr, manifest_declares_modules raw w1 nvr) missing).
  assert (_add_ftp_paths Metadata items erratum raw w
          = (if list_truthy tolerated
             then mkWorld (heap w1)
                    (log w1 ++ [missing_et_warning erratum tolerated])
                    (koji_events w1)
             else w1,
             if list_truthy fatal
             then Raise (ValueError
                           ("Erratum " +:+ name erratum +:+
                            ": missing modulemd sources on koji build(s): " +:+
                            Str.join ", " fatal))
             else Ok out)) as Hrun.
  { unfold _add_ftp_paths. unfold bind at 1. rewrite Hloop.
    unfold bind at 1. fold missing. rewrite missing_modules_loop.
    rewrite !app_nil_l. fold tolerated fatal.
    unfold bind. destruct (list_truthy tolerated), (list_truthy fatal);
      by unfold_monad. }
  rewrite Hrun. simpl.
  eexists _, debugs.
  split. { intros nvr. unfold tolerated.
           by rewrite list_elem_of_filter, Hmissing, Hdecl, (comm and). }
  split. { intros nvr. unfold fatal.
           by rewrite list_elem_of_filter, Hmissing, Hdecl, (comm and). }
  split. { apply StronglySorted_filter, sorted_set_sorted. }
  split. { apply NoDup_filter, sorted_set_NoDup. }
  split. { apply StronglySorted_filter, sorted_set_sorted. }
  split. { apply NoDup_filter, sorted_set_NoDup. }
  split; [done |].
  split. { by destruct (list_truthy tolerated). }
  split; [done |].
  split. { destruct (list_truthy tolerated); simpl; rewrite Hl;
           by rewrite <- ?app_assoc, ?app_nil_r. }
  destruct (list_truthy fatal); [done | by exists out].
Qed.

End alt_path_missing_modules.

(** ** Container reconciliation *)

Lemma truthy_ne (s : string) : Str.truthy s = true ↔ s ≠ "".
Proof. by destruct s. Qed.

Lemma container_tags_fold repo_id tags dest :
  fold_left (λ d tag, d ++ [repo_id +:+ ":" +:+ tag]) tags dest
  = dest ++ ((λ tag, repo_id +:+ ":" +:+ tag) <$> tags).
Proof.
  revert dest. induction tags as [|tag tags IH]; intros dest; simpl.
  - by rewrite app_nil_r.
  - by rewrite IH, <- app_assoc.
Qed.

Lemma container_repo_step_spec sig_keys dest repo_id repo_data :
  container_repo_step (sig_keys, dest) (repo_id, repo_data)
  = (match Docker.container_full_sig_key repo_data with
     | Some k => if Str.truthy k then sig_keys ∪ {[k]} else sig_keys
     | None => sig_keys
     end,
     dest ++ ((λ tag, repo_id +:+ ":" +:+ tag)
                <$> default [] (Docker.tags repo_data))).
Proof.
  unfold container_repo_step. rewrite container_tags_fold.
  destruct (Docker.container_full_sig_key repo_data) as [k|]; [|done].
  by destruct (Str.truthy k).
Qed.

Lemma container_repo_fold repos sig_keys dest :
  let r := fold_left container_repo_step repos (sig_keys, dest) in
  (∀ x, x ∈ r.2 ↔ x ∈ dest ∨ is_repo_tag repos x) ∧
  (∀ k, k ∈ r.1 ↔ k ∈ sig_keys ∨ is_sig_key repos k).
Proof.
  revert sig_keys dest.
  induction repos as [|[repo_id repo_data] repos IH]; intros sig_keys dest.
  - simpl. split; intros x; (split; [by left |]).
    + intros [? | (? & ? & ? & Hin & _)]; [done | by apply elem_of_nil in Hin].
    + intros [? | (? & ? & Hin & _)]; [done | by apply elem_of_nil in Hin].
  - cbn [fold_left]. rewrite container_repo_step_spec.
    destruct (IH (match Docker.container_full_sig_key repo_data with
                  | Some k => if Str.truthy k then sig_keys ∪ {[k]} else sig_keys
                  | None => sig_keys
                  end)
                 (dest ++ ((λ tag, repo_id +:+ ":" +:+ tag)
                             <$> default [] (Docker.tags repo_data))))
      as [IHd IHk].
    split.
    + intros x. rewrite IHd, elem_of_app, list_elem_of_fmap. split.
      * intros [[? | (tag & -> & Htag)] | (id & rd & tag & Hin & Htag & ->)].
        -- by left.
        -- right. exists repo_id, repo_data, tag.
           split; [apply list_elem_of_here | done].
        -- right. exists id, rd, tag.
           split; [by apply list_elem_of_further | done].
      * intros [? | (id & rd & tag & [[= -> ->] | Hin]%elem_of_cons & Htag & ->)].
        -- by do 2 left.
        -- left. right. by exists tag.
        -- right. by exists id, rd, tag.
    + intros k. rewrite IHk. split.
      * intros [Hk | (id & rd & Hin & Hkey)].
        -- destruct (Docker.container_full_sig_key repo_data) as [k'|] eqn:Hk';
             [|by left].
           destruct (Str.truthy k') eqn:Ht; [|by left].
           apply elem_of_union in Hk as [? | ->%elem_of_singleton]; [by left |].
           right. exists repo_id, repo_data.
           split; [apply list_elem_of_here |]. split; [done |].
           by apply truthy_ne.
        -- right. exists id, rd. split; [by apply list_elem_of_further | done].
      * intros [? | (id & rd & [[= -> ->] | Hin]%elem_of_cons & Hkey & Hne)].
        -- left. destruct (Docker.container_full_sig_key repo_data) as [k'|];
             [|done].
           destruct (Str.truthy k'); [|done]. apply elem_of_union. by left.
        -- left. rewrite Hkey. apply truthy_ne in Hne. rewrite Hne.
           apply elem_of_union. right. by apply elem_of_singleton.
        -- right. by exists id, rd.
Qed.

(** What the loop of [_enrich_container_push_item] collects. *)
Lemma container_repo_loop_dest repos x :
  x ∈ (container_repo_loop repos).2 ↔ is_repo_tag repos x.
Proof.
  unfold container_repo_loop.
  destruct (container_repo_fold repos ∅ []) as [Hd _]. rewrite Hd.
  split; [intros [Hin | ?]; [by apply elem_of_nil in Hin | done] | by right].
Qed.

Lemma container_repo_loop_keys repos k :
  k ∈ (container_repo_loop repos).1 ↔ is_sig_key repos k.
Proof.
  unfold container_repo_loop.
  destruct (container_repo_fold repos ∅ []) as [_ Hk]. rewrite Hk.
  split; [intros [Hin | ?]; [by apply not_elem_of_empty in Hin | done] | by right].
Qed.

Lemma sorted_of_list_elem_of l x : x ∈ sorted_of_list l ↔ x ∈ l.
Proof. unfold sorted_of_list. by rewrite sorted_set_elem_of, elem_of_list_to_set. Qed.

Lemma list_truthy_false {A} (l : list A) : list_truthy l = false ↔ l = [].
Proof. by destruct l. Qed.

Lemma list_truthy_true {A} (l : list A) : list_truthy l = true ↔ l ≠ [].
Proof. by destruct l. Qed.

Lemma sorted_of_list_nil l : sorted_of_list l = [] ↔ ∀ x, x ∉ l.
Proof.
  split.
  - intros Hnil x Hx. apply sorted_of_list_elem_of in Hx. rewrite Hnil in Hx.
    by apply elem_of_nil in Hx.
  - intros Hno. destruct (sorted_of_list l) as [|x xs] eqn:Hs; [done |].
    destruct (Hno x). apply sorted_of_list_elem_of. rewrite Hs.
    apply list_elem_of_here.
Qed.

Section container_properties.
Variable self : ErrataSource.
Context {model : Model}.
Variable erratum : PushItem.
Variable docker_file_list : dict Docker.t.
Variable item : PushItem.

Let repos := container_repos self docker_file_list item.

(** The repositories read are [external_repos], and [repos] under the
    legacy flag. *)
Lemma container_repos_current meta d t :
  _legacy_container_repos self = false →
  dict_get docker_file_list (build item) = Some meta →
  Docker.docker meta = Some d → Docker.target d = Some t →
  repos = default [] (Docker.external_repos t).
Proof.
  intros Hflag Hmeta Hd Ht. unfold repos, container_repos.
  by rewrite Hflag, Hmeta; simpl; rewrite Hd; simpl; rewrite Ht.
Qed.

Lemma container_repos_legacy meta d t :
  _legacy_container_repos self = true →
  dict_get docker_file_list (build item) = Some meta →
  Docker.docker meta = Some d → Docker.target d = Some t →
  repos = default [] (Docker.repos t).
Proof.
  intros Hflag Hmeta Hd Ht. unfold repos, container_repos.
  by rewrite Hflag, Hmeta; simpl; rewrite Hd; simpl; rewrite Ht.
Qed.

(** The three ways out of [_enrich_container_push_item]. *)
Lemma enrich_container_cases :
  _enrich_container_push_item self erratum docker_file_list item
  = if negb (list_truthy (sorted_of_list (container_repo_loop repos).2)) then
      Raise (no_repositories_error erratum item)
    else if bool_decide (1 < size (container_repo_loop repos).1) then
      Raise (multiple_signing_keys_error erratum item
               (sorted_set (container_repo_loop repos).1))
    else
      Ok (evolve_container item
            (sorted_of_list (container_repo_loop repos).2)
            (head (elements (container_repo_loop repos).1))).
Proof.
  unfold _enrich_container_push_item. fold repos.
  by destruct (container_repo_loop repos).
Qed.

Lemma no_destination_iff :
  list_truthy (sorted_of_list (container_repo_loop repos).2) = false
  ↔ ∀ x, ¬ is_repo_tag repos x.
Proof.
  rewrite list_truthy_false, sorted_of_list_nil.
  split; intros H x; specialize (H x); by rewrite container_repo_loop_dest in *.
Qed.

Lemma several_keys_iff :
  1 < size (container_repo_loop repos).1
  ↔ ∃ k1 k2, is_sig_key repos k1 ∧ is_sig_key repos k2 ∧ k1 ≠ k2.
Proof.
  unfold size, set_size. simpl.
  pose proof (NoDup_elements (container_repo_loop repos).1) as Hnd.
  assert (∀ k, k ∈ elements (container_repo_loop repos).1 ↔ is_sig_key repos k)
    as Hel.
  { intros k. by rewrite elem_of_elements, container_repo_loop_keys. }
  destruct (elements (container_repo_loop repos).1) as [|a [|b l]]; simpl.
  - split; [lia |]. intros (k1 & _ & Hk1 & _). apply Hel in Hk1.
    by apply elem_of_nil in Hk1.
  - split; [lia |]. intros (k1 & k2 & Hk1 & Hk2 & Hne).
    apply Hel, list_elem_of_singleton in Hk1.
    apply Hel, list_elem_of_singleton in Hk2. congruence.
  - split; [|lia]. intros _. exists a, b.
    split; [apply Hel, list_elem_of_here |].
    split; [apply Hel, list_elem_of_further, list_elem_of_here |].
    apply NoDup_cons in Hnd as [Hnot _]. intros ->. apply Hnot.
    apply list_elem_of_here.
Qed.

(** C8, as the code has it: a container build whose repositories carry
    two distinct non-empty signing keys is refused. When the repositories
    declare at least one tag the error is the "Unsupported" one and lists
    the signing keys, sorted; when they declare no tag at all the check
    for destinations comes first and the error is the one for a build
    with no repositories. *)
Theorem two_signing_keys_refused k1 k2 :
  is_sig_key repos k1 → is_sig_key repos k2 → k1 ≠ k2 →
  ((∃ x, is_repo_tag repos x) →
   ∃ keys,
     _enrich_container_push_item self erratum docker_file_list item
       = Raise (multiple_signing_keys_error erratum item keys) ∧
     StronglySorted String.le keys ∧ NoDup keys ∧
     ∀ k, k ∈ keys ↔ is_sig_key repos k) ∧
  ((∀ x, ¬ is_repo_tag repos x) →
   _enrich_container_push_item self erratum docker_file_list item
     = Raise (no_repositories_error erratum item)).
Proof.
  intros Hk1 Hk2 Hne. rewrite enrich_container_cases. split.
  - intros [x Hx].
    destruct (list_truthy _) eqn:Hdest.
    2:{ by destruct (proj1 no_destination_iff Hdest x). }
    simpl. rewrite bool_decide_eq_true_2
      by (apply several_keys_iff; eauto).
    eexists. split; [done |].
    split; [apply sorted_set_sorted |]. split; [apply sorted_set_NoDup |].
    intros k. by rewrite sorted_set_elem_of, container_repo_loop_keys.
  - intros Hnone. by rewrite (proj2 no_destination_iff Hnone).
Qed.

(** C9: a container build whose chosen repositories declare no tag is
    refused with the error for a build with no repositories. Otherwise
    the item that comes back has as destinations the ["repo:tag"]
    strings of those repositories, sorted and each one once; an item
    does come back when the repositories carry at most one signing
    key. *)
Theorem container_destinations_sorted_or_missing :
  ((∀ x, ¬ is_repo_tag repos x) →
   _enrich_container_push_item self erratum docker_file_list item
     = Raise (no_repositories_error erratum item)) ∧
  ((∃ x, is_repo_tag repos x) →
   (∀ item',
      _enrich_container_push_item self erratum docker_file_list item = Ok item' →
      ∃ d, dest item' = Some d ∧ d ≠ [] ∧
        StronglySorted String.le d ∧ NoDup d ∧
        ∀ x, x ∈ d ↔ is_repo_tag repos x) ∧
   ((∀ k1 k2, is_sig_key repos k1 → is_sig_key repos k2 → k1 = k2) →
    ∃ item',
      _enrich_container_push_item self erratum docker_file_list item = Ok item')).
Proof.
  rewrite enrich_container_cases. split.
  - intros Hnone. by rewrite (proj2 no_destination_iff Hnone).
  - intros [x Hx].
    destruct (list_truthy _) eqn:Hdest.
    2:{ by destruct (proj1 no_destination_iff Hdest x). }
    simpl. split.
    + intros item'. case_bool_decide; [done |]. intros [= <-].
      eexists. split; [done |].
      split; [by apply list_truthy_true |].
      split; [apply sorted_set_sorted |]. split; [apply sorted_set_NoDup |].
      intros y. by rewrite sorted_of_list_elem_of, container_repo_loop_dest.
    + intros Hone. rewrite bool_decide_eq_false_2; [by eexists |].
      intros (k1 & k2 & Hk1 & Hk2 & Hne)%several_keys_iff.
      apply Hne. by apply Hone.
Qed.

End container_properties.

(** ** Preservation through the monad *)

Lemma preserves_ret {A} P (a : A) : preserves P (ret a).
Proof. by intros w. Qed.

Lemma preserves_raise {A} P e : preserves P (raise (A := A) e).
Proof. by intros w. Qed.

Lemma preserves_lift {A} P (r : result A) : preserves P (lift r).
Proof. by intros w. Qed.

Lemma preserves_bind {A B} P (m : M A) (k : A → M B) :
  preserves P m → (∀ a, preserves P (k a)) → preserves P (bind m k).
Proof.
  intros Hm Hk w Hw. unfold bind. specialize (Hm w Hw).
  destruct (m w) as [w1 [a|e]]; simpl in *; [by apply Hk | done].
Qed.

Lemma preserves_for_each {A S} P (body : A → S → M S) l s :
  (∀ x s, preserves P (body x s)) → preserves P (for_each l body s).
Proof.
  intros Hbody. revert s. induction l as [|x l IH]; intros s.
  - apply preserves_ret.
  - simpl. apply preserves_bind; [apply Hbody | intros s'; apply IH].
Qed.

Lemma preserves_finally {A} P (m : M A) cleanup :
  preserves P m → preserves P cleanup → preserves P (finally m cleanup).
Proof.
  intros Hm Hc w Hw. unfold finally. specialize (Hm w Hw).
  destruct (m w) as [w1 r]. simpl in *. by apply Hc.
Qed.

(** ** Module reconciliation *)

Section module_properties.
Variable koji : KojiSelector → list PushItem.
Variable self : ErrataSource.
Context {model : Model}.
Variable h : list (dict (list string)).

Lemma heap_with_copy_log lv f a : preserves (heap_with_copy h) (log_call lv f a).
Proof. by intros w. Qed.

Lemma heap_with_copy_event e : preserves (heap_with_copy h) (koji_event e).
Proof. by intros w. Qed.

Lemma heap_with_copy_read r : preserves (heap_with_copy h) (heap_read r).
Proof. by intros w. Qed.

(** Popping from the copy changes the copy and nothing else. *)
Lemma heap_with_copy_pop k :
  preserves (heap_with_copy h) (heap_pop (length h) k).
Proof.
  intros w [copy Hw]. unfold heap_pop, heap_with_copy. simpl. rewrite Hw.
  eexists. rewrite insert_app_r_alt by lia.
  by rewrite Nat.sub_diag.
Qed.

Lemma heap_with_copy_koji_source kwargs :
  preserves (heap_with_copy h) (_koji_source self kwargs).
Proof.
  unfold _koji_source. case_bool_decide; [apply preserves_raise |].
  apply preserves_bind; [apply heap_with_copy_event |].
  intros _. apply preserves_ret.
Qed.

Lemma heap_with_copy_step erratum push_item out :
  preserves (heap_with_copy h)
    (module_push_items_step erratum (length h) push_item out).
Proof.
  unfold module_push_items_step.
  destruct (src push_item); [|apply preserves_raise].
  apply preserves_bind; [apply heap_with_copy_pop |].
  intros d. apply preserves_ret.
Qed.

(** Module reconciliation adds one object to the heap, its copy of the
    declared modules, and leaves every object that was there as it was. *)
Lemma module_push_items_heap erratum build_nvr build_info w :
  heap w = h →
  heap_with_copy h
    (_module_push_items_from_build koji self erratum build_nvr build_info w).1.
Proof.
  intros Hw. unfold _module_push_items_from_build.
  unfold bind at 1.
  assert (∃ declared,
            match BuildInfo.modules build_info with
            | Some r => heap_read r
            | None => ret []
            end w = (w, Ok declared)) as [declared ->].
  { destruct (BuildInfo.modules build_info); by eexists. }
  unfold bind at 1. unfold heap_alloc at 1. rewrite Hw.
  match goal with |- heap_with_copy h (?m ?v).1 =>
    cut (preserves (heap_with_copy h) m) end.
  { intros Hp. apply Hp. by exists declared. }
  apply preserves_bind.
  { apply preserves_bind; [apply heap_with_copy_read |].
    intros; apply preserves_ret. }
  intros module_filenames. apply preserves_bind.
  { unfold with_koji_source.
    apply preserves_bind; [apply heap_with_copy_koji_source |].
    intros koji_source. apply preserves_bind; [apply heap_with_copy_event |].
    intros _. apply preserves_finally; [|apply heap_with_copy_event].
    apply preserves_for_each. intros; apply heap_with_copy_step. }
  intros out. apply preserves_bind; [apply heap_with_copy_read |].
  intros remaining. destruct (Str.truthy _);
    [apply preserves_raise | apply preserves_ret].
Qed.

End module_properties.

(** C10: module reconciliation of a build does not change the advisory's
    raw data. Whatever it returns or raises, every dictionary object that
    was on the heap is as it was, and so is the dictionary of declared
    modules of the build; the only change is one new object, the copy the
    function pops from. *)
Theorem module_reconciliation_keeps_declared_modules koji self erratum
    build_nvr build_info w r :
  BuildInfo.modules build_info = Some r → r < length (heap w) →
  let w' :=
    (_module_push_items_from_build koji self erratum build_nvr build_info w).1 in
  deref (heap w') r = deref (heap w) r ∧
  (∀ r', r' < length (heap w) → heap w' !! r' = heap w !! r') ∧
  length (heap w') = S (length (heap w)).
Proof.
  intros _ Hr.
  destruct (module_push_items_heap koji self (heap w) erratum build_nvr
              build_info w eq_refl) as [copy Hheap].
  simpl. rewrite Hheap. split; [|split].
  - unfold deref. by rewrite lookup_app_l.
  - intros r' Hr'. by rewrite lookup_app_l.
  - rewrite length_app. simpl. lia.
Qed.

(** ** The whole advisory *)

Section advisory_properties.
Variable Metadata : Type.
Variable ErratumPushItem_from_data : Metadata → PushItem.
Variable archstr : string → string.
Variable koji : KojiSelector → list PushItem.
Variable self : ErrataSource.
Context {model : Model}.

Lemma with_koji_source_returns {A} kwargs (body : KojiSelector → M A) w w' a :
  with_koji_source self kwargs body w = (w', Ok a) →
  ∃ w1 w2, body kwargs w1 = (w2, Ok a).
Proof.
  unfold with_koji_source, _koji_source.
  case_bool_decide; unfold_monad; [done |].
  match goal with |- context [body kwargs ?v] =>
    destruct (body kwargs v) as [w2 r] eqn:Hbody end.
  simpl. intros [= <- ->]. eauto.
Qed.

Lemma enrich_container_ok erratum docker_file_list item item' :
  _enrich_container_push_item self erratum docker_file_list item = Ok item' →
  cls item' = cls item ∧ opt_truthy (dest item') = true.
Proof.
  rewrite enrich_container_cases.
  destruct (list_truthy _) eqn:Hdest; simpl; [|done].
  case_bool_decide; [done |]. by intros [= <-].
Qed.

Lemma container_manifests_step_ok erratum docker_file_list item out w w' out' :
  container_manifests_step self erratum docker_file_list item out w
    = (w', Ok out') →
  out' = out ∨
  ∃ new, out' = out ++ [new] ∧
    ((cls new = ContainerImagePushItem ∧ opt_truthy (dest new) = true)
     ∨ cls new = OperatorManifestPushItem).
Proof.
  unfold container_manifests_step.
  destruct (decide (cls item = ContainerImagePushItem)) as [Hc|Hc].
  { unfold_monad.
    destruct (_enrich_container_push_item _ _ _ _) as [item'|e] eqn:He;
      [|done].
    apply enrich_container_ok in He as [Hcls Hdest].
    intros [= <- <-]. right. eexists. split; [done |]. left.
    simpl. split; [congruence | done]. }
  destruct (decide (cls item = OperatorManifestPushItem)) as [Ho|Ho];
    unfold_monad; intros [= <- <-].
  - right. eexists. split; [done |]. by right.
  - by left.
Qed.

(** The items of container reconciliation are container images with at
    least one destination, and operator manifests. *)
Lemma container_manifests_items erratum docker_file_list w w' out :
  _push_items_from_container_manifests koji self erratum docker_file_list w
    = (w', Ok out) →
  ∀ item, item ∈ out →
    (cls item = ContainerImagePushItem ∧ opt_truthy (dest item) = true)
    ∨ cls item = OperatorManifestPushItem.
Proof.
  unfold _push_items_from_container_manifests.
  assert (ret [] w = (w', Ok out) → ∀ item, item ∈ out →
            (cls item = ContainerImagePushItem ∧ opt_truthy (dest item) = true)
            ∨ cls item = OperatorManifestPushItem) as Hnone.
  { intros [= <- <-] item Hin. by apply elem_of_nil in Hin. }
  destruct docker_file_list as [[|entry dfl]|]; [done | | done].
  intros (w1 & w2 & Hloop)%with_koji_source_returns.
  eapply (for_each_invariant
            (λ out, ∀ item, item ∈ out →
               (cls item = ContainerImagePushItem ∧
                opt_truthy (dest item) = true)
               ∨ cls item = OperatorManifestPushItem)); [ | | exact Hloop].
  - intros x s v v' s' _ IH Hstep.
    apply container_manifests_step_ok in Hstep as [-> | (new & -> & Hnew)];
      [done |].
    intros item [Hin | ->%list_elem_of_singleton]%elem_of_app; auto.
  - intros item Hin. by apply elem_of_nil in Hin.
Qed.

(** The items that reach the FTP step all carry a list of destinations:
    the loop over them before it raises on one that does not. *)
Lemma erratum_dest_loop_dests items s w w' s' :
  for_each items erratum_dest_step s w = (w', Ok s') →
  Forall (λ item, is_Some (dest item)) items.
Proof.
  revert s w. induction items as [|item items IH]; intros s w; [by constructor |].
  rewrite for_each_cons. unfold erratum_dest_step at 1.
  destruct (dest item) as [d|] eqn:Hd; unfold_monad; [|done].
  intros Hrest. constructor; [by rewrite Hd | by eapply IH].
Qed.

End advisory_properties.

(** ** Failure of the whole advisory *)

Lemma for_each_raises {A S} (body : A → S → M S) l x :
  x ∈ l → (∀ s w, ∃ e, (body x s w).2 = Raise e) →
  ∀ s w, ∃ e, (for_each l body s w).2 = Raise e.
Proof.
  intros Hin Hx. induction l as [|y l IH]; intros s w.
  - by apply elem_of_nil in Hin.
  - rewrite for_each_cons.
    destruct (body y s w) as [w1 [s1|e]] eqn:Hy; [|by exists e].
    apply elem_of_cons in Hin as [-> | Hin]; [|by apply IH].
    destruct (Hx s w) as [e He]. rewrite Hy in He. discriminate He.
Qed.

Lemma bind_raises {A B} (m : M A) (k : A → M B) w :
  (∀ a v, ∃ e, (k a v).2 = Raise e) → ∃ e, (bind m k w).2 = Raise e.
Proof.
  intros Hk. unfold bind. destruct (m w) as [w1 [a|e]]; [apply Hk | by exists e].
Qed.

Section advisory_failure.
Variable Metadata : Type.
Variable ErratumPushItem_from_data : Metadata → PushItem.
Variable archstr : string → string.
Variable koji : KojiSelector → list PushItem.
Variable self : ErrataSource.
Context {model : Model}.

(** Whether [_enrich_container_push_item] raises does not depend on the
    advisory item, which only appears in the messages. *)
Lemma enrich_container_raises_for_all erratum erratum' docker_file_list item e :
  _enrich_container_push_item self erratum docker_file_list item = Raise e →
  ∃ e', _enrich_container_push_item self erratum' docker_file_list item = Raise e'.
Proof.
  rewrite !enrich_container_cases.
  destruct (list_truthy _); simpl; [|by eexists].
  case_bool_decide; [by eexists | done].
Qed.

Lemma with_koji_source_raises {A} kwargs (body : KojiSelector → M A) w :
  (∀ v, ∃ e, (body kwargs v).2 = Raise e) →
  ∃ e, (with_koji_source self kwargs body w).2 = Raise e.
Proof.
  intros Hbody. unfold with_koji_source, _koji_source.
  case_bool_decide; unfold_monad; [by eexists |].
  match goal with |- context [body kwargs ?v] =>
    destruct (Hbody v) as [e He]; destruct (body kwargs v) as [w2 r] end.
  simpl in *. by exists e.
Qed.

(** An error of [_enrich_container_push_item] on a container image that
    koji yields for the builds of the advisory leaves the whole advisory
    without output: [_push_items_from_raw] raises. *)
Lemma container_error_aborts_advisory raw docker_file_list erratum item e w :
  advisory_cdn_docker_file_list raw = Some docker_file_list →
  docker_file_list ≠ [] →
  item ∈ koji (SelContainer (dict_keys docker_file_list)) →
  cls item = ContainerImagePushItem →
  _enrich_container_push_item self erratum docker_file_list item = Raise e →
  ∃ e', (_push_items_from_raw Metadata ErratumPushItem_from_data archstr koji
           self raw w).2 = Raise e'.
Proof.
  intros Hdfl Hne Hin Hcls Henrich. unfold _push_items_from_raw.
  apply bind_raises. intros items0 w1.
  apply bind_raises. intros erratum_dest w2.
  apply bind_raises. intros items w3.
  cut (∃ e', (_push_items_from_container_manifests koji self
                (evolve_dest
                   (ErratumPushItem_from_data (advisory_cdn_metadata raw))
                   (Some (sorted_set erratum_dest)))
                (advisory_cdn_docker_file_list raw) w3).2 = Raise e').
  { intros [e' He']. unfold bind.
    destruct (_push_items_from_container_manifests _ _ _ _ w3)
      as [w5 [c|x]]; simpl in *; [done | by eexists]. }
  rewrite Hdfl. unfold _push_items_from_container_manifests.
  destruct docker_file_list as [|entry dfl]; [done |].
  apply with_koji_source_raises. intros v'.
  apply (for_each_raises _ _ item); [done |].
  intros out v''. unfold container_manifests_step.
  rewrite decide_True by done. unfold_monad.
  destruct (enrich_container_raises_for_all erratum
              (evolve_dest (ErratumPushItem_from_data (advisory_cdn_metadata raw))
                 (Some (sorted_set erratum_dest)))
              _ _ _ Henrich) as [e' ->].
  by exists e'.
Qed.

End advisory_failure.

(** ** The matched FTP paths, in terms of the FTP paths of the advisory *)

Lemma dict_get_fold_set {V} (l : dict V) d k v :
  dict_get (fold_left (λ acc (kv : string * V), dict_set acc kv.1 kv.2) l d) k
    = Some v →
  dict_get d k = Some v ∨ (k, v) ∈ l.
Proof.
  revert d. induction l as [|[k' v'] l IH]; intros d; cbn [fold_left]; [auto |].
  intros [Hd | Hin]%IH.
  - simpl in Hd. rewrite dict_get_set in Hd. case_decide; [|by left].
    simplify_eq. right. apply list_elem_of_here.
  - right. by apply list_elem_of_further.
Qed.

Lemma ftp_tables_fold_rpms ftp t rpm_name paths :
  dict_get (rpm_to_paths (fold_left ftp_tables_step ftp t)) rpm_name = Some paths →
  dict_get (rpm_to_paths t) rpm_name = Some paths ∨
  ∃ nvr build_map rpms,
    (nvr, build_map) ∈ ftp ∧ Ftp.rpms build_map = Some rpms ∧
    (rpm_name, paths) ∈ rpms.
Proof.
  revert t. induction ftp as [|[nvr bm] ftp IH]; intros t; cbn [fold_left];
    [auto |].
  intros [Ht | (nvr' & bm' & rpms & Hin & Hrpms & Hp)]%IH.
  - simpl in Ht. apply dict_get_fold_set in Ht as [Ht | Hin]; [by left |].
    right. exists nvr, bm. destruct (Ftp.rpms bm) as [rpms|] eqn:Hrpms.
    + exists rpms. split; [apply list_elem_of_here | done].
    + by apply elem_of_nil in Hin.
  - right. exists nvr', bm', rpms. split; [by apply list_elem_of_further | done].
Qed.

(** A path matched with an RPM is a path some build of the FTP paths
    lists for that RPM. *)
Lemma matched_rpm_paths_declared {Metadata} (raw : Raw Metadata) rpm_name p :
  p ∈ matched_rpm_paths raw rpm_name →
  ∃ nvr build_map rpms paths,
    (nvr, build_map) ∈ ftp_paths raw ∧ Ftp.rpms build_map = Some rpms ∧
    (rpm_name, paths) ∈ rpms ∧ p ∈ paths.
Proof.
  unfold matched_rpm_paths, ftp_tables.
  destruct (dict_get _ rpm_name) as [paths|] eqn:Hget; simpl;
    [|intros Hin; by apply elem_of_nil in Hin].
  intros Hp.
  apply ftp_tables_fold_rpms in Hget as [Hnil | (nvr & bm & rpms & H1 & H2 & H3)];
    [done |].
  by exists nvr, bm, rpms, paths.
Qed.

(** With one entry per build, the paths matched with a build are the
    modules its entry lists, and none when it has no entry. *)
Lemma matched_module_paths_declared {Metadata} (raw : Raw Metadata) nvr build_map :
  NoDup (dict_keys (ftp_paths raw)) → (nvr, build_map) ∈ ftp_paths raw →
  matched_module_paths raw nvr = default [] (Ftp.modules build_map).
Proof.
  intros Hnd Hin. unfold matched_module_paths, ftp_tables.
  by rewrite (ftp_tables_fold_modules _ _ _ build_map Hnd Hin).
Qed.

Lemma matched_module_paths_undeclared {Metadata} (raw : Raw Metadata) nvr :
  nvr ∉ dict_keys (ftp_paths raw) → matched_module_paths raw nvr = [].
Proof.
  intros Hnot. unfold matched_module_paths, ftp_tables.
  by rewrite ftp_tables_fold_modules_other.
Qed.

(** ** The koji source of RPM reconciliation *)

Section rpm_koji_source.
Variable archstr : string → string.
Variable koji : KojiSelector → list PushItem.
Variable self : ErrataSource.
Context {model : Model}.
Variable w0 : World.

Lemma only_created_log lv f a : preserves (only_created w0) (log_call lv f a).
Proof. by intros w. Qed.

Lemma only_created_koji_source kwargs :
  preserves (only_created w0) (_koji_source self kwargs).
Proof.
  unfold _koji_source. case_bool_decide; [apply preserves_raise |].
  intros w Hw e. unfold_monad.
  intros [He | ->%list_elem_of_singleton]%elem_of_app; [by apply Hw |].
  right. by eexists.
Qed.

Lemma only_created_filter erratum rpm_filenames :
  preserves (only_created w0)
    (_filter_rpms_by_arch archstr self erratum rpm_filenames).
Proof.
  unfold _filter_rpms_by_arch.
  destruct (_rpm_filter_arch self); [|apply preserves_ret].
  apply preserves_for_each. intros filename out. unfold filter_rpms_step.
  destruct (arch_filter_keeps _ _ _); [apply preserves_ret |].
  apply preserves_bind; [apply only_created_log |].
  intros _. apply preserves_ret.
Qed.

(** RPM reconciliation creates a koji source and never enters or exits
    it, whether it returns or raises. *)
Lemma rpm_koji_source_only_created erratum build_nvr build_info :
  only_created w0
    (_rpm_push_items_from_build archstr koji self erratum build_nvr build_info w0).1.
Proof.
  cut (preserves (only_created w0)
         (_rpm_push_items_from_build archstr koji self erratum build_nvr build_info)).
  { intros Hp. apply Hp. intros e He. by left. }
  unfold _rpm_push_items_from_build.
  apply preserves_bind; [apply only_created_filter |].
  intros rpm_filenames. apply preserves_bind; [apply only_created_koji_source |].
  intros koji_source. apply preserves_for_each.
  intros push_item out. unfold rpm_push_items_step.
  case_bool_decide; [apply preserves_raise |].
  apply preserves_bind; [apply preserves_lift | intros item; apply preserves_ret].
Qed.

End rpm_koji_source.

(** ** The properties on concrete advisories

    The classes of the items are those of [plain_model]. *)

Section concrete_advisories.
#[local] Existing Instance plain_model.

(** C2 fails on the code. RPM reconciliation of a build calls
    [_koji_source] and iterates over the result outside any [with]
    statement: the source is created and never exited, neither when an RPM
    is not found and the iteration raises, nor when the iteration ends.
    Module reconciliation, which uses [with], exits its source. *)
Theorem rpm_koji_source_left_open :
  let notfound :=
    _rpm_push_items_from_build id (koji_of_build "foo-1.0-1" "NOTFOUND")
      source_no_filter advisory "foo-1.0-1" (foo_info ["repoA"]) empty_world in
  let found :=
    _rpm_push_items_from_build id (koji_of_build "foo-1.0-1" "PENDING")
      source_no_filter advisory "foo-1.0-1" (foo_info ["repoA"]) empty_world in
  let modules :=
    _module_push_items_from_build (koji_of_build "foo-1.0-1" "PENDING")
      source_no_filter advisory "foo-1.0-1" foo_module_info foo_world in
  notfound.2 = Raise (ValueError
    "Advisory refers to foo-1.0-1.x86_64.rpm but RPM was not found in koji") ∧
  koji_events notfound.1 = [KojiGet foo_rpm_selector] ∧
  found.2 = Ok [foo_rpm ["repoA"]] ∧
  koji_events found.1 = [KojiGet foo_rpm_selector] ∧
  koji_events modules.1 =
    [KojiGet foo_module_selector; KojiEnter foo_module_selector;
     KojiExit foo_module_selector].
Proof. vm_compute. repeat split. Qed.

(** The example of the source: the build of the RPM is not the module
    build the advisory lists and contains [".module"]. *)
Lemma rpm_module_build_witness :
  names_module_build postgresql_nvr (build pgaudit_item) ∧
  module_build pgaudit_item = Some postgresql_nvr.
Proof.
  assert (names_module_build postgresql_nvr (build pgaudit_item)) as Hnames.
  { split; [discriminate |].
    by exists "pgaudit-1.4.0-4", "+el8.1.1+4794+c82b6e09". }
  split; [exact Hnames |].
  refine (proj1 (rpm_module_build_set_iff_dot_module id
                   (koji_of_build pgaudit_build "PENDING") source_no_filter
                   advisory postgresql_nvr postgresql_info empty_world
                   (_rpm_push_items_from_build id
                      (koji_of_build pgaudit_build "PENDING") source_no_filter
                      advisory postgresql_nvr postgresql_info empty_world).1
                   [pgaudit_item] _ pgaudit_item _) Hnames).
  - vm_compute. reflexivity.
  - apply list_elem_of_here.
Defined.

(** C1 as stated fails: the build of this RPM differs from the advisory's
    and contains "module", and [module_build] is not set. *)
Lemma module_in_build_name_counterexample :
  _rpm_push_items_from_build id
    (koji_of_build "environment-modules-4.5.2-1.el8" "PENDING")
    source_no_filter advisory "scl-utils-2.0.2-13.el8" modules_info empty_world
  = (mkWorld [] []
       [KojiGet (SelRpm ["environment-modules-4.5.2-1.el8.x86_64.rpm"] None)],
     Ok [modules_item]) ∧
  build modules_item ≠ "scl-utils-2.0.2-13.el8" ∧
  build modules_item = "environment-" +:+ "module" +:+ "s-4.5.2-1.el8" ∧
  module_build modules_item = None.
Proof. repeat split. discriminate. Qed.

(** With the filter set to x86_64, ["foo.rpm"] has two components and is
    left out. *)
Lemma arch_filter_witness :
  ∃ w' out,
    _filter_rpms_by_arch id source_x86_64 advisory
      ["foo-1.0-1.x86_64.rpm"; "foo.rpm"; "README.txt"] empty_world
    = (w', Ok out) ∧ "foo.rpm" ∉ out.
Proof.
  apply (arch_filter_excludes_malformed id source_x86_64 advisory
           ["foo-1.0-1.x86_64.rpm"; "foo.rpm"; "README.txt"] "foo.rpm"
           empty_world).
  right. vm_compute. lia.
Defined.

(** C3 as stated fails when no arch filter is set: a filename that does
    not end in ["rpm"] is in the output. *)
Lemma arch_filter_unset_counterexample :
  _rpm_filter_arch source_no_filter = None ∧
  last (Str.split "." "README.txt") = Some "txt" ∧
  length (Str.split "." "README.txt") = 2 ∧
  _filter_rpms_by_arch id source_no_filter advisory ["README.txt"] empty_world
  = (empty_world, Ok ["README.txt"]).
Proof. repeat split. Qed.

(** C4 as stated fails for an RPM: the file list declares it with no
    destination, nothing in the code objects, and the output holds the RPM
    item, and the advisory item, with an empty list of destinations. *)
Lemma rpm_without_destination_counterexample :
  (_push_items_from_raw string advisory_item id
     (koji_of_build "foo-1.0-1" "PENDING") source_no_filter raw_empty_dest
     empty_world).2
  = Ok [evolve_dest advisory (Some []); foo_rpm []] ∧
  cls (foo_rpm []) = RpmPushItem ∧ dest (foo_rpm []) = Some [].
Proof. vm_compute. repeat split. Qed.

(** The two outcomes of C5 on concrete advisories: the FTP paths declare
    modules for a build that has no module source; when the file list
    declares none for it there is a warning and the step returns, when the
    file list declares one the step raises. *)
Example missing_in_file_list_is_tolerated :
  _add_ftp_paths string [] advisory raw_missing_in_et empty_world
  = (mkWorld [] [missing_et_warning advisory ["foo-1.0-1"]] [], Ok []).
Proof. vm_compute. reflexivity. Qed.

Example missing_in_koji_is_fatal :
  _add_ftp_paths string [] advisory raw_missing_in_koji foo_world
  = (foo_world,
     Raise (ValueError
       "Erratum RHSA-2020:0001: missing modulemd sources on koji build(s): foo-1.0-1")).
Proof. vm_compute. reflexivity. Qed.

(** The general statement, on an advisory with one RPM item. *)
Lemma missing_module_sources_witness :
  ∃ tolerated fatal w' debugs,
    (∀ nvr, nvr ∈ tolerated ↔
       missing_module_source raw_missing_in_et [foo_rpm ["repoA"]] nvr ∧
       ¬ manifest_declares_modules raw_missing_in_et empty_world nvr) ∧
    (∀ nvr, nvr ∈ fatal ↔
       missing_module_source raw_missing_in_et [foo_rpm ["repoA"]] nvr ∧
       manifest_declares_modules raw_missing_in_et empty_world nvr) ∧
    StronglySorted String.le tolerated ∧ NoDup tolerated ∧
    StronglySorted String.le fatal ∧ NoDup fatal ∧
    (_add_ftp_paths string [foo_rpm ["repoA"]] advisory raw_missing_in_et
       empty_world).1 = w' ∧
    heap w' = heap empty_world ∧
    Forall (λ r, level r = DEBUG) debugs ∧
    log w' = log empty_world ++ debugs ++
      (if list_truthy tolerated then [missing_et_warning advisory tolerated]
       else []) ∧
    if list_truthy fatal then
      (_add_ftp_paths string [foo_rpm ["repoA"]] advisory raw_missing_in_et
         empty_world).2
      = Raise (ValueError
                 ("Erratum " +:+ name advisory +:+
                  ": missing modulemd sources on koji build(s): " +:+
                  Str.join ", " fatal))
    else ∃ out,
      (_add_ftp_paths string [foo_rpm ["repoA"]] advisory raw_missing_in_et
         empty_world).2 = Ok out.
Proof.
  apply (missing_module_sources_warn_or_fail string [foo_rpm ["repoA"]]
           advisory raw_missing_in_et empty_world).
  - apply NoDup_cons. split; [apply not_elem_of_nil | apply NoDup_nil_2].
  - apply Forall_cons. split; [by eexists | apply Forall_nil_2].
Defined.

(** The RPM already goes to ["/ftp/pub/os/"]; the FTP paths list it
    again, and it is kept twice. *)
Lemma ftp_paths_appended_witness :
  Forall2 (rpm_merged raw_full)
    (filter (λ item, cls item = RpmPushItem)
       [foo_rpm ["/ftp/pub/os/"]; foo_module_source "foo-1.0-1" [];
        foo_module_source "bar-1.0-1" []])
    (filter (λ item, cls item = RpmPushItem)
       [foo_rpm ["/ftp/pub/os/"; "/ftp/pub/os/"; "repoA"];
        foo_module_source "foo-1.0-1" ["/ftp/pub/modules/"]]).
Proof.
  apply (ftp_paths_appended_to_rpms string
           [foo_rpm ["/ftp/pub/os/"]; foo_module_source "foo-1.0-1" [];
            foo_module_source "bar-1.0-1" []]
           advisory raw_full foo_world
           (_add_ftp_paths string
              [foo_rpm ["/ftp/pub/os/"]; foo_module_source "foo-1.0-1" [];
               foo_module_source "bar-1.0-1" []]
              advisory raw_full foo_world).1).
  vm_compute. reflexivity.
Defined.

(** Of two module sources without destination, the one whose build has
    FTP paths for modules is kept with them, the other is dropped. *)
Lemma module_sources_witness :
  ∃ orig d,
    orig ∈ [foo_rpm ["/ftp/pub/os/"]; foo_module_source "foo-1.0-1" [];
            foo_module_source "bar-1.0-1" []] ∧
    cls orig = ModuleMdSourcePushItem ∧
    dest orig = Some d ∧
    foo_module_source "foo-1.0-1" ["/ftp/pub/modules/"]
    = evolve_dest orig (Some (d ++ matched_module_paths raw_full (build orig))) ∧
    dest (foo_module_source "foo-1.0-1" ["/ftp/pub/modules/"])
    = Some (d ++ matched_module_paths raw_full (build orig)) ∧
    d ++ matched_module_paths raw_full (build orig) ≠ [].
Proof.
  apply (module_sources_keep_dest_or_drop string
           [foo_rpm ["/ftp/pub/os/"]; foo_module_source "foo-1.0-1" [];
            foo_module_source "bar-1.0-1" []]
           advisory raw_full foo_world
           (_add_ftp_paths string
              [foo_rpm ["/ftp/pub/os/"]; foo_module_source "foo-1.0-1" [];
               foo_module_source "bar-1.0-1" []]
              advisory raw_full foo_world).1
           [foo_rpm ["/ftp/pub/os/"; "/ftp/pub/os/"; "repoA"];
            foo_module_source "foo-1.0-1" ["/ftp/pub/modules/"]]).
  - vm_compute. reflexivity.
  - apply list_elem_of_further, list_elem_of_here.
  - reflexivity.
Defined.

(** Two repositories, each with a tag and a signing key of its own. *)
Lemma two_signing_keys_witness :
  ∃ keys,
    _enrich_container_push_item source_no_filter advisory
      [("img-1.0-1", docker_entry two_key_repos)] image_item
    = Raise (multiple_signing_keys_error advisory image_item keys) ∧
    StronglySorted String.le keys ∧ NoDup keys ∧
    ∀ k, k ∈ keys ↔ is_sig_key two_key_repos k.
Proof.
  refine (proj1 (two_signing_keys_refused source_no_filter advisory
                   [("img-1.0-1", docker_entry two_key_repos)] image_item
                   "199e2f91fd431d51" "5054e4a45a6340b3" _ _ _) _).
  - exists "ns/a", (Docker.mkRepo (Some ["latest"]) (Some "199e2f91fd431d51")).
    split; [apply list_elem_of_here | split; [reflexivity | discriminate]].
  - exists "ns/b", (Docker.mkRepo (Some ["latest"]) (Some "5054e4a45a6340b3")).
    split; [apply list_elem_of_further, list_elem_of_here |].
    split; [reflexivity | discriminate].
  - discriminate.
  - exists "ns/a:latest", "ns/a",
      (Docker.mkRepo (Some ["latest"]) (Some "199e2f91fd431d51")), "latest".
    split; [apply list_elem_of_here |].
    split; [apply list_elem_of_here | reflexivity].
Defined.

(** C8 as stated fails when the repositories declare no tag: the build
    carries two distinct signing keys and is refused for having no
    repositories, not for its signing keys. *)
Lemma two_signing_keys_no_tag_counterexample :
  is_sig_key two_key_repos_no_tag "199e2f91fd431d51" ∧
  is_sig_key two_key_repos_no_tag "5054e4a45a6340b3" ∧
  _enrich_container_push_item source_no_filter advisory
    [("img-1.0-1", docker_entry two_key_repos_no_tag)] image_item
  = Raise (ValueError
      "Erratum RHSA-2020:0001 requests container build img-1.0-1 but provides no repositories").
Proof.
  split; [|split].
  - exists "ns/a", (Docker.mkRepo (Some []) (Some "199e2f91fd431d51")).
    split; [apply list_elem_of_here | split; [reflexivity | discriminate]].
  - exists "ns/b", (Docker.mkRepo None (Some "5054e4a45a6340b3")).
    split; [apply list_elem_of_further, list_elem_of_here |].
    split; [reflexivity | discriminate].
  - vm_compute. reflexivity.
Qed.

(** The scenario of the specification: tags listed twice come out once,
    in order. *)
Example container_destinations_scenario :
  _enrich_container_push_item source_no_filter advisory
    [("img-1.0-1", docker_entry image_repos)] image_item
  = Ok (evolve_container image_item ["ns/img:1.0"; "ns/img:latest"]
          (Some "deadbeef")).
Proof. vm_compute. reflexivity. Qed.

(** One repository with one signing key: an item comes back. *)
Lemma container_destinations_witness :
  ∃ item',
    _enrich_container_push_item source_no_filter advisory
      [("img-1.0-1", docker_entry image_repos)] image_item = Ok item'.
Proof.
  refine (proj2 (proj2 (container_destinations_sorted_or_missing
                          source_no_filter advisory
                          [("img-1.0-1", docker_entry image_repos)] image_item)
                   _) _).
  - exists "ns/img:1.0", "ns/img",
      (Docker.mkRepo (Some ["latest"; "1.0"; "latest"]) (Some "deadbeef")), "1.0".
    split; [apply list_elem_of_here |].
    split; [apply list_elem_of_further, list_elem_of_here | reflexivity].
  - intros k1 k2 (id1 & rd1 & Hin1 & Hk1 & _) (id2 & rd2 & Hin2 & Hk2 & _).
    apply list_elem_of_singleton in Hin1. apply list_elem_of_singleton in Hin2.
    injection Hin1 as -> ->. injection Hin2 as -> ->.
    simpl in *. congruence.
Defined.

(** Module reconciliation of [foo-1.0-1]: the declared module is found and
    popped from the copy, the second object of the heap, and the first is
    as it was. *)
Example module_copy_is_popped :
  heap (_module_push_items_from_build (koji_of_build "foo-1.0-1" "PENDING")
          source_no_filter advisory "foo-1.0-1" foo_module_info foo_world).1
  = [[("modulemd.x86_64.txt", ["repoM"])]; []].
Proof. vm_compute. reflexivity. Qed.

(** The same run, for the object the build refers to. *)
Lemma module_reconciliation_witness :
  deref
    (heap (_module_push_items_from_build (koji_of_build "foo-1.0-1" "PENDING")
             source_no_filter advisory "foo-1.0-1" foo_module_info foo_world).1)
    0
  = deref (heap foo_world) 0 ∧
  (∀ r', r' < length (heap foo_world) →
     heap (_module_push_items_from_build (koji_of_build "foo-1.0-1" "PENDING")
             source_no_filter advisory "foo-1.0-1" foo_module_info foo_world).1
       !! r'
     = heap foo_world !! r') ∧
  length
    (heap (_module_push_items_from_build (koji_of_build "foo-1.0-1" "PENDING")
             source_no_filter advisory "foo-1.0-1" foo_module_info foo_world).1)
  = S (length (heap foo_world)).
Proof.
  apply (module_reconciliation_keeps_declared_modules
           (koji_of_build "foo-1.0-1" "PENDING") source_no_filter advisory
           "foo-1.0-1" foo_module_info foo_world 0).
  - reflexivity.
  - simpl. lia.
Defined.

End concrete_advisories.

(** * Further properties *)

(** ** Running the monad *)

Lemma bind_ok {A B} (m : M A) (k : A → M B) w w1 a :
  m w = (w1, Ok a) → bind m k w = k a w1.
Proof. intros H. unfold bind. by rewrite H. Qed.

Lemma bind_raise {A B} (m : M A) (k : A → M B) w w1 e :
  m w = (w1, Raise e) → bind m k w = (w1, Raise e).
Proof. intros H. unfold bind. by rewrite H. Qed.

Lemma for_each_app {A S} (body : A → S → M S) l1 l2 s w :
  for_each (l1 ++ l2) body s w =
  match for_each l1 body s w with
  | (w1, Ok s1) => for_each l2 body s1 w1
  | (w1, Raise e) => (w1, Raise e)
  end.
Proof.
  revert s w. induction l1 as [|x l1 IH]; intros s w; [done |].
  rewrite <- app_comm_cons, !for_each_cons.
  destruct (body x s w) as [w1 [s1|e]]; [apply IH | done].
Qed.

Lemma koji_configured_dec self :
  koji_configured self ∨
  (_koji_source_url self = None ∨ _koji_source_url self = Some "").
Proof.
  unfold koji_configured. destruct (_koji_source_url self) as [[|c url]|]; auto.
Qed.

Lemma koji_source_run self kwargs w :
  koji_configured self →
  _koji_source self kwargs w
  = (mkWorld (heap w) (log w) (koji_events w ++ [KojiGet kwargs]), Ok kwargs).
Proof.
  unfold koji_configured, _koji_source. intros ->.
  by rewrite bool_decide_eq_false_2 by done.
Qed.

Lemma koji_source_unset self kwargs w :
  _koji_source_url self = None ∨ _koji_source_url self = Some "" →
  _koji_source self kwargs w = (w, Raise koji_required_error).
Proof. unfold _koji_source. by intros [-> | ->]. Qed.

(** ** The arch filter and the query of RPM reconciliation *)

Section rpm_query.
Variable archstr : string → string.
Variable koji : KojiSelector → list PushItem.
Variable self : ErrataSource.
Context {model : Model}.

(** The filter returns the filenames it keeps, and only logs. *)
Lemma filter_rpms_run erratum build_info w :
  ∃ w',
    _filter_rpms_by_arch archstr self erratum
      (dict_keys (default [] (BuildInfo.rpms build_info))) w
    = (w', Ok (requested_rpms archstr self build_info)) ∧
    heap w' = heap w ∧ koji_events w' = koji_events w.
Proof.
  unfold _filter_rpms_by_arch, requested_rpms.
  destruct (_rpm_filter_arch self) as [arches|]; [|by exists w].
  apply filter_rpms_loop.
Qed.

(** The loop of RPM reconciliation leaves the world alone, whatever its
    outcome. *)
Lemma rpm_loop_world erratum build_nvr build_info l acc w :
  (for_each l
     (rpm_push_items_step erratum build_nvr
        (default [] (BuildInfo.rpms build_info))
        (default [] (or_get (BuildInfo.checksums build_info) BuildInfo.sha256))
        (default [] (or_get (BuildInfo.checksums build_info) BuildInfo.md5)))
     acc w).1 = w.
Proof.
  revert acc. induction l as [|x l IH]; intros acc; [done |].
  rewrite for_each_cons. unfold rpm_push_items_step at 1.
  case_bool_decide; unfold_monad; [done |].
  destruct (evolve_rpm _ _ _ _ _ _); [apply IH | done].
Qed.

(** What one iteration does: it raises on an item koji does not have and
    on one the class refuses, and appends the enriched item otherwise. *)
Lemma rpm_push_items_step_run erratum build_nvr build_info item acc w :
  rpm_push_items_step erratum build_nvr
    (default [] (BuildInfo.rpms build_info))
    (default [] (or_get (BuildInfo.checksums build_info) BuildInfo.sha256))
    (default [] (or_get (BuildInfo.checksums build_info) BuildInfo.md5))
    item acc w
  = (w, if bool_decide (state item = "NOTFOUND")
        then Raise (rpm_not_found_error item)
        else match rpm_enriched erratum build_nvr build_info item with
             | Ok res => Ok (acc ++ [res])
             | Raise e => Raise e
             end).
Proof.
  unfold rpm_push_items_step, rpm_enriched, rpm_not_found_error.
  case_bool_decide; unfold_monad; [done |].
  by destruct (evolve_rpm _ _ _ _ _ _).
Qed.

(** The loop goes through the items koji has and the class accepts. *)
Lemma rpm_loop_accepted erratum build_nvr build_info pre pre' rest acc w :
  Forall2 (rpm_accepted erratum build_nvr build_info) pre pre' →
  for_each (pre ++ rest)
    (rpm_push_items_step erratum build_nvr
       (default [] (BuildInfo.rpms build_info))
       (default [] (or_get (BuildInfo.checksums build_info) BuildInfo.sha256))
       (default [] (or_get (BuildInfo.checksums build_info) BuildInfo.md5)))
    acc w
  = for_each rest
      (rpm_push_items_step erratum build_nvr
         (default [] (BuildInfo.rpms build_info))
         (default [] (or_get (BuildInfo.checksums build_info) BuildInfo.sha256))
         (default [] (or_get (BuildInfo.checksums build_info) BuildInfo.md5)))
      (acc ++ pre') w.
Proof.
  intros Hpre. revert acc.
  induction Hpre as [|item res pre pre' [Hstate Hres] _ IH]; intros acc.
  - by rewrite app_nil_r.
  - rewrite <- app_comm_cons, for_each_cons, rpm_push_items_step_run.
    rewrite bool_decide_eq_false_2 by done. rewrite Hres.
    rewrite IH, <- app_assoc. reflexivity.
Qed.

(** When the loop returns, every item was accepted. *)
Lemma rpm_loop_returns erratum build_nvr build_info l acc w w' out :
  for_each l
    (rpm_push_items_step erratum build_nvr
       (default [] (BuildInfo.rpms build_info))
       (default [] (or_get (BuildInfo.checksums build_info) BuildInfo.sha256))
       (default [] (or_get (BuildInfo.checksums build_info) BuildInfo.md5)))
    acc w = (w', Ok out) →
  ∃ new, out = acc ++ new ∧
         Forall2 (rpm_accepted erratum build_nvr build_info) l new.
Proof.
  revert acc. induction l as [|item l IH]; intros acc.
  - rewrite for_each_nil. intros [= <- <-]. exists []. by rewrite app_nil_r.
  - rewrite for_each_cons, rpm_push_items_step_run.
    case_bool_decide as Hstate; [done |].
    destruct (rpm_enriched erratum build_nvr build_info item) as [res|e] eqn:Hres;
      [|done].
    intros (new & -> & Hnew)%IH. exists (res :: new).
    rewrite <- app_assoc. split; [done |]. by constructor.
Qed.

End rpm_query.

(** ** Computations that only log *)

Lemma log_only_ret {A} (a : A) : log_only (ret a).
Proof. intros P _. apply preserves_ret. Qed.

Lemma log_only_raise {A} e : log_only (raise (A := A) e).
Proof. intros P _. apply preserves_raise. Qed.

Lemma log_only_lift {A} (r : result A) : log_only (lift r).
Proof. intros P _. apply preserves_lift. Qed.

Lemma log_only_log_call lv f a : log_only (log_call lv f a).
Proof. intros P HP. apply HP. Qed.

Lemma log_only_heap_read r : log_only (heap_read r).
Proof. by intros P _ w. Qed.

Lemma log_only_bind {A B} (m : M A) (k : A → M B) :
  log_only m → (∀ a, log_only (k a)) → log_only (bind m k).
Proof. intros Hm Hk P HP. apply preserves_bind; [by apply Hm | intros a; by apply Hk]. Qed.

Lemma log_only_for_each {A S} (body : A → S → M S) l s :
  (∀ x s, log_only (body x s)) → log_only (for_each l body s).
Proof. intros Hbody P HP. apply preserves_for_each. intros x t. by apply Hbody. Qed.

Lemma log_only_koji {A} (m : M A) : log_only m → log_and_koji_only m.
Proof. intros Hm P HP _. by apply Hm. Qed.

Lemma log_and_koji_only_bind {A B} (m : M A) (k : A → M B) :
  log_and_koji_only m → (∀ a, log_and_koji_only (k a)) →
  log_and_koji_only (bind m k).
Proof.
  intros Hm Hk P HP HK.
  apply preserves_bind; [by apply Hm | intros a; by apply Hk].
Qed.

Lemma log_and_koji_only_for_each {A S} (body : A → S → M S) l s :
  (∀ x s, log_and_koji_only (body x s)) → log_and_koji_only (for_each l body s).
Proof.
  intros Hbody P HP HK. apply preserves_for_each. intros x t. by apply Hbody.
Qed.

Lemma log_and_koji_only_event e : log_and_koji_only (koji_event e).
Proof. intros P _ HK. apply HK. Qed.

Lemma log_and_koji_only_finally {A} (m : M A) e :
  log_and_koji_only m → log_and_koji_only (finally m (koji_event e)).
Proof. intros Hm P HP HK. apply preserves_finally; [by apply Hm | apply HK]. Qed.

(** What only logs leaves the heap and the koji events as they were and
    adds to the log; what only logs and talks to koji leaves the heap as
    it was and adds to the log and to the koji events. *)
Lemma log_only_world {A} (m : M A) w :
  log_only m →
  heap (m w).1 = heap w ∧ koji_events (m w).1 = koji_events w ∧
  ∃ new, log (m w).1 = log w ++ new.
Proof.
  intros Hm.
  apply (Hm (λ v, heap v = heap w ∧ koji_events v = koji_events w ∧
                  ∃ new, log v = log w ++ new)).
  - intros lv f a v (Hh & Hk & new & Hl). simpl. split; [done |].
    split; [done |]. exists (new ++ [mkLog lv f a]). by rewrite Hl, app_assoc.
  - split; [done |]. split; [done |]. exists []. by rewrite app_nil_r.
Qed.

Lemma log_and_koji_only_world {A} (m : M A) w :
  log_and_koji_only m →
  heap (m w).1 = heap w ∧
  (∃ new, log (m w).1 = log w ++ new) ∧
  ∃ events, koji_events (m w).1 = koji_events w ++ events.
Proof.
  intros Hm.
  apply (Hm (λ v, heap v = heap w ∧ (∃ new, log v = log w ++ new) ∧
                  ∃ events, koji_events v = koji_events w ++ events)).
  - intros lv f a v (Hh & (new & Hl) & Hk). simpl. split; [done |].
    split; [|done]. exists (new ++ [mkLog lv f a]). by rewrite Hl, app_assoc.
  - intros e v (Hh & Hl & events & Hk). simpl. split; [done |].
    split; [done |]. exists (events ++ [e]). by rewrite Hk, app_assoc.
  - split; [done |]. split; exists []; by rewrite app_nil_r.
Qed.

Section rpm_extras.
Variable archstr : string → string.
Variable koji : KojiSelector → list PushItem.
Variable self : ErrataSource.
Context {model : Model}.

(** RPM reconciliation of a build with a koji source configured: one
    source is created, for the filenames that pass the arch filter; the
    heap is left alone; the items koji has and the class accepts are
    enriched, and the first other one raises. *)
Lemma rpm_push_items_run erratum build_nvr build_info w :
  koji_configured self →
  ∃ w',
    (_rpm_push_items_from_build archstr koji self erratum build_nvr build_info w).1
      = w' ∧
    heap w' = heap w ∧
    koji_events w' = koji_events w ++
      [KojiGet (SelRpm (requested_rpms archstr self build_info)
                  (or_None (BuildInfo.sig_key build_info)))] ∧
    ∀ pre pre' rest,
      koji (SelRpm (requested_rpms archstr self build_info)
              (or_None (BuildInfo.sig_key build_info))) = pre ++ rest →
      Forall2 (rpm_accepted erratum build_nvr build_info) pre pre' →
      (_rpm_push_items_from_build archstr koji self erratum build_nvr build_info w).2
      = match rest with
        | [] => Ok pre'
        | item :: _ =>
            if bool_decide (state item = "NOTFOUND") then
              Raise (rpm_not_found_error item)
            else
              match rpm_enriched erratum build_nvr build_info item with
              | Raise e => Raise e
              | Ok _ =>
                  (_rpm_push_items_from_build archstr koji self erratum
                     build_nvr build_info w).2
              end
        end.
Proof.
  intros Hkoji.
  destruct (filter_rpms_run archstr self erratum build_info w)
    as (w1 & Hfilter & Hheap & Hevents).
  unfold _rpm_push_items_from_build.
  rewrite (bind_ok _ _ _ _ _ Hfilter).
  rewrite (bind_ok _ _ _ _ _ (koji_source_run self _ w1 Hkoji)).
  set (w2 := mkWorld (heap w1) (log w1)
               (koji_events w1 ++
                [KojiGet (SelRpm (requested_rpms archstr self build_info)
                            (or_None (BuildInfo.sig_key build_info)))])).
  exists w2. split; [apply rpm_loop_world |]. split; [done |].
  split; [simpl; by rewrite Hevents |].
  intros pre pre' rest -> Hpre.
  rewrite (rpm_loop_accepted _ _ _ _ _ _ _ _ Hpre).
  destruct rest as [|item post]; [by rewrite for_each_nil, app_nil_l |].
  case_bool_decide as Hstate.
  - rewrite for_each_cons, rpm_push_items_step_run.
    by rewrite bool_decide_eq_true_2 by done.
  - destruct (rpm_enriched erratum build_nvr build_info item) as [res|e] eqn:Hres.
    + by rewrite <- (rpm_loop_accepted _ _ _ _ _ _ _ _ Hpre).
    + rewrite for_each_cons, rpm_push_items_step_run.
      rewrite bool_decide_eq_false_2 by done. by rewrite Hres.
Qed.

(** X1: an RPM that koji reports as not found is fatal. With a koji source
    configured, if koji yields [item] in state ["NOTFOUND"] and every item
    it yields before was found and accepted by the class, RPM
    reconciliation of the build raises the [ValueError] that names
    [item], and returns no item. *)
Theorem rpm_not_found_is_fatal erratum build_nvr build_info w
    pre pre' item post :
  koji_configured self →
  koji (SelRpm (requested_rpms archstr self build_info)
          (or_None (BuildInfo.sig_key build_info))) = pre ++ item :: post →
  Forall2 (rpm_accepted erratum build_nvr build_info) pre pre' →
  state item = "NOTFOUND" →
  (_rpm_push_items_from_build archstr koji self erratum build_nvr build_info w).2
  = Raise (rpm_not_found_error item).
Proof.
  intros Hkoji Hitems Hpre Hstate.
  destruct (rpm_push_items_run erratum build_nvr build_info w Hkoji)
    as (w' & _ & _ & _ & Hrun).
  rewrite (Hrun pre pre' (item :: post) Hitems Hpre).
  by rewrite bool_decide_eq_true_2.
Qed.

(** X2: with a koji source configured, RPM reconciliation of a build
    returns exactly when koji has every item it yields and the class
    accepts what the file list holds for each; the output is then one
    item for each item of koji, in koji's order: the item koji gave, with
    the checksums and the destinations the file list holds under its
    name as the class takes them, the advisory as origin and the module
    build. *)
Theorem rpm_items_enriched_from_file_list erratum build_nvr build_info w out :
  koji_configured self →
  (_rpm_push_items_from_build archstr koji self erratum build_nvr build_info w).2
  = Ok out
  ↔ Forall2 (rpm_accepted erratum build_nvr build_info)
      (koji (SelRpm (requested_rpms archstr self build_info)
               (or_None (BuildInfo.sig_key build_info))))
      out.
Proof.
  intros Hkoji. split.
  - destruct (filter_rpms_run archstr self erratum build_info w)
      as (w1 & Hfilter & _).
    unfold _rpm_push_items_from_build.
    rewrite (bind_ok _ _ _ _ _ Hfilter).
    rewrite (bind_ok _ _ _ _ _ (koji_source_run self _ w1 Hkoji)).
    match goal with |- (?run).2 = _ → _ =>
      destruct run as [w' r] eqn:Hloop end.
    simpl. intros ->.
    by apply rpm_loop_returns in Hloop as (new & -> & Hnew).
  - intros Hall.
    destruct (rpm_push_items_run erratum build_nvr build_info w Hkoji)
      as (w' & _ & _ & _ & Hrun).
    by rewrite (Hrun _ out [] (eq_sym (app_nil_r _)) Hall).
Qed.

(** X23: an RPM the class refuses is fatal. With a koji source
    configured, if koji has [item], the class raises [e] on the values the
    file list holds for it, and every item koji yields before was found
    and accepted, RPM reconciliation of the build raises [e]. *)
Theorem rpm_refused_by_class_is_fatal erratum build_nvr build_info w
    pre pre' item post e :
  koji_configured self →
  koji (SelRpm (requested_rpms archstr self build_info)
          (or_None (BuildInfo.sig_key build_info))) = pre ++ item :: post →
  Forall2 (rpm_accepted erratum build_nvr build_info) pre pre' →
  state item ≠ "NOTFOUND" →
  rpm_enriched erratum build_nvr build_info item = Raise e →
  (_rpm_push_items_from_build archstr koji self erratum build_nvr build_info w).2
  = Raise e.
Proof.
  intros Hkoji Hitems Hpre Hstate Hres.
  destruct (rpm_push_items_run erratum build_nvr build_info w Hkoji)
    as (w' & _ & _ & _ & Hrun).
  rewrite (Hrun pre pre' (item :: post) Hitems Hpre).
  rewrite bool_decide_eq_false_2 by done. by rewrite Hres.
Qed.

(** X3: RPM reconciliation of a build asks koji once, for the filenames of
    the file list that pass the arch filter, with the signing key of the
    build as a hint ([None] when it is empty), whatever comes of the
    iteration; it does not touch the raw data. *)
Theorem rpm_query_is_filtered erratum build_nvr build_info w :
  koji_configured self →
  koji_events
    (_rpm_push_items_from_build archstr koji self erratum build_nvr build_info w).1
  = koji_events w ++
      [KojiGet (SelRpm (requested_rpms archstr self build_info)
                  (or_None (BuildInfo.sig_key build_info)))] ∧
  heap
    (_rpm_push_items_from_build archstr koji self erratum build_nvr build_info w).1
  = heap w.
Proof.
  intros Hkoji.
  destruct (rpm_push_items_run erratum build_nvr build_info w Hkoji)
    as (w' & -> & Hheap & Hevents & _).
  done.
Qed.

(** Without a koji source, RPM reconciliation of any build raises, even
    for a build without RPMs, and contacts nothing. *)
Lemma rpm_push_items_without_koji erratum build_nvr build_info w :
  _koji_source_url self = None ∨ _koji_source_url self = Some "" →
  ∃ w',
    _rpm_push_items_from_build archstr koji self erratum build_nvr build_info w
    = (w', Raise koji_required_error) ∧
    heap w' = heap w ∧ koji_events w' = koji_events w.
Proof.
  intros Hunset.
  destruct (filter_rpms_run archstr self erratum build_info w)
    as (w1 & Hfilter & Hheap & Hevents).
  exists w1. split; [|done].
  unfold _rpm_push_items_from_build.
  rewrite (bind_ok _ _ _ _ _ Hfilter).
  by rewrite (bind_raise _ _ _ _ _ (koji_source_unset self _ w1 Hunset)).
Qed.

End rpm_extras.

(** ** The FTP paths step as a whole *)

Lemma evolve_dest_same item d : dest item = Some d → evolve_dest item (Some d) = item.
Proof. destruct item. simpl. by intros ->. Qed.

Section ftp_extras.
Variable Metadata : Type.
Implicit Types (raw : Raw Metadata) (items out : list PushItem).

(** The list the second loop of [_add_ftp_paths] builds is, item by item,
    what [ftp_merged] makes of the items. *)
Lemma ftp_paths_loop_merged items erratum raw w w1 out have :
  for_each items
    (add_ftp_paths_step erratum (ftp_tables (ftp_paths raw))) ([], ∅) w
  = (w1, Ok (out, have)) →
  out = concat (ftp_merged raw <$> items).
Proof.
  intros Hloop. change out with (out, have).1.
  eapply (for_each_prefix_invariant
            (λ pre (st : list PushItem * gset string),
               st.1 = concat (ftp_merged raw <$> pre))); [ | | exact Hloop];
    [|done].
  intros pre x [o h] v v' [o' h'] _ IH Hstep. simpl in *.
  rewrite fmap_app, concat_app, <- IH. simpl. rewrite app_nil_r.
  unfold ftp_merged, matched_rpm_paths, matched_module_paths.
  apply add_ftp_paths_step_ok in Hstep
    as [(Hc & _ & d & Hd & ->) | [(Hc & Hp & _ & d & Hd & ->) |
        [(Hc & Hp & _ & [[Hd ->] | [Hd ->]]) | (Hc1 & Hc2 & _ & ->)]]].
  - rewrite decide_True by done. by rewrite Hd.
  - rewrite decide_False by congruence. rewrite decide_True by done.
    rewrite Hd. simpl. by rewrite (truthy_app_r d _ Hp).
  - rewrite decide_False by congruence. rewrite decide_True by done.
    destruct (dest x) as [d|] eqn:Hdx; [|done]. simpl in *.
    destruct (dict_get _ (build x)) as [[|p ps]|]; try done; simpl;
      rewrite app_nil_r, Hd; by rewrite (evolve_dest_same x d Hdx).
  - rewrite decide_False by congruence. rewrite decide_True by done.
    destruct (dest x) as [[|a d]|]; simpl in Hd; try done;
      destruct (dict_get _ (build x)) as [[|p ps]|]; simpl in Hp; try done;
      simpl; by rewrite app_nil_r.
  - rewrite decide_False by done. by rewrite decide_False by done.
Qed.

(** X4: the FTP step keeps the order of the items. When it returns, its
    output is, item by item, what [ftp_merged] makes of the input: every
    RPM with its matched paths appended, every module source that has a
    destination after the merge, and every other item unchanged; only
    module sources are ever dropped. *)
Theorem ftp_paths_keep_order items erratum raw w w' out :
  _add_ftp_paths Metadata items erratum raw w = (w', Ok out) →
  out = concat (ftp_merged raw <$> items).
Proof.
  intros (w1 & have & Hloop)%add_ftp_paths_returns.
  exact (ftp_paths_loop_merged items erratum raw w w1 out have Hloop).
Qed.

Lemma add_ftp_paths_step_log_only erratum tables item st :
  log_only (add_ftp_paths_step erratum tables item st).
Proof.
  destruct st as [out have]. unfold add_ftp_paths_step.
  destruct (decide (cls item = RpmPushItem)).
  { destruct (dest item); [apply log_only_ret | apply log_only_raise]. }
  destruct (decide (cls item = ModuleMdSourcePushItem)); [|apply log_only_ret].
  apply log_only_bind.
  { destruct (opt_truthy _); [|apply log_only_ret].
    destruct (dest item); [apply log_only_ret | apply log_only_raise]. }
  intros [item' have']. destruct (opt_truthy (dest item')); [apply log_only_ret |].
  apply log_only_bind; [apply log_only_log_call | intros _; apply log_only_ret].
Qed.

Lemma add_ftp_paths_log_only items erratum raw :
  log_only (_add_ftp_paths Metadata items erratum raw).
Proof.
  unfold _add_ftp_paths. apply log_only_bind.
  { apply log_only_for_each. intros; apply add_ftp_paths_step_log_only. }
  intros [out have]. apply log_only_bind.
  { apply log_only_for_each. intros nvr [et kj]. unfold missing_modules_step.
    apply log_only_bind.
    - unfold cdn_file_list_modules.
      destruct (or_get _ _); [apply log_only_heap_read | apply log_only_ret].
    - intros declared. destruct (negb _); apply log_only_ret. }
  intros [et kj]. apply log_only_bind.
  { destruct (list_truthy et); [apply log_only_log_call | apply log_only_ret]. }
  intros _. destruct (list_truthy kj); [apply log_only_raise | apply log_only_ret].
Qed.

(** X5: the FTP step works on the items and the raw data it is given and
    nothing else: whether it returns or raises, it creates no koji source,
    changes no object of the heap, and only adds to the log. *)
Theorem ftp_paths_step_touches_nothing items erratum raw w :
  heap (_add_ftp_paths Metadata items erratum raw w).1 = heap w ∧
  koji_events (_add_ftp_paths Metadata items erratum raw w).1 = koji_events w ∧
  ∃ new, log (_add_ftp_paths Metadata items erratum raw w).1 = log w ++ new.
Proof. apply log_only_world, add_ftp_paths_log_only. Qed.

End ftp_extras.

(** ** Module reconciliation as a whole *)

Lemma filter_all {A} (P : A → Prop) `{∀ x, Decision (P x)} (l : list A) :
  Forall P l → filter P l = l.
Proof.
  induction 1 as [|x l Hx _ IH]; [done |].
  by rewrite filter_cons_True, IH.
Qed.

Lemma filter_none {A} (P : A → Prop) `{∀ x, Decision (P x)} (l : list A) :
  Forall (λ x, ¬ P x) l → filter P l = [].
Proof.
  induction 1 as [|x l Hx _ IH]; [done |].
  by rewrite filter_cons_False.
Qed.

(** Popping a key of a dictionary removes it from the keys, and leaves the
    other keys in their order. *)
Lemma dict_del_keys {V} (d : dict V) k :
  NoDup (dict_keys d) →
  dict_keys (dict_del d k) = filter (λ k', k' ≠ k) (dict_keys d).
Proof.
  unfold dict_keys. induction d as [|[k0 v0] d IH]; intros Hnd; [done |].
  rewrite fmap_cons in Hnd. apply NoDup_cons in Hnd as [Hk0 Hnd].
  cbn [dict_del]. rewrite fmap_cons. cbn [fst].
  destruct (decide (k0 = k)) as [->|Hne].
  - rewrite filter_cons_False by (intros Hk; by apply Hk).
    symmetry. apply filter_all. apply Forall_forall. intros k' Hk' ->. done.
  - rewrite filter_cons_True by done. rewrite fmap_cons. cbn [fst].
    by rewrite IH.
Qed.

Lemma dict_del_all_keys {V} (d : dict V) ks :
  NoDup (dict_keys d) →
  dict_keys (fold_left dict_del ks d) = filter (λ k, k ∉ ks) (dict_keys d) ∧
  NoDup (dict_keys (fold_left dict_del ks d)).
Proof.
  revert d. induction ks as [|k ks IH]; intros d Hnd; simpl.
  - split; [|done]. symmetry. apply filter_all. apply Forall_forall.
    intros k _ Hk. by apply elem_of_nil in Hk.
  - assert (NoDup (dict_keys (dict_del d k))) as Hnd'.
    { rewrite dict_del_keys by done. by apply NoDup_filter. }
    destruct (IH (dict_del d k) Hnd') as [Heq Hnd'']. split; [|exact Hnd''].
    rewrite Heq, dict_del_keys by done. rewrite list_filter_filter.
    apply list_filter_iff. intros k'. rewrite not_elem_of_cons. tauto.
Qed.

Section module_extras.
Variable koji : KojiSelector → list PushItem.
Variable self : ErrataSource.
Context {model : Model}.

(** The loop of module reconciliation neither creates nor leaves a koji
    source. *)
Lemma module_loop_events erratum modules items acc w :
  koji_events (for_each items (module_push_items_step erratum modules) acc w).1
  = koji_events w.
Proof.
  apply (preserves_for_each (λ v, koji_events v = koji_events w)); [|done].
  intros item out v Hv. unfold module_push_items_step.
  destruct (src item); [|done]. by unfold_monad.
Qed.

(** The loop on items that all have a file: the copy loses the base names
    of the files, and the items are those of [module_items]. *)
Lemma module_loop_run erratum h items :
  Forall (λ item, is_Some (src item)) items →
  ∀ copy acc w, heap w = h ++ [copy] →
    for_each items (module_push_items_step erratum (length h)) acc w
    = (mkWorld (h ++ [fold_left dict_del (basenames items) copy]) (log w)
         (koji_events w),
       Ok (acc ++ module_items erratum copy items)).
Proof.
  induction 1 as [|item items [path Hsrc] _ IH]; intros copy acc w Hheap.
  - rewrite for_each_nil, app_nil_r. simpl. rewrite <- Hheap. by destruct w.
  - rewrite for_each_cons. unfold module_push_items_step at 1. rewrite Hsrc.
    unfold_monad. rewrite Hsrc. simpl.
    assert (deref (heap w) (length h) = copy) as ->.
    { unfold deref. rewrite Hheap, lookup_app_r by apply le_n.
      by rewrite Nat.sub_diag. }
    rewrite (IH (dict_del copy (Str.basename path))); simpl.
    + by rewrite <- app_assoc.
    + rewrite Hheap, insert_app_r_alt by apply le_n. by rewrite Nat.sub_diag.
Qed.

(** Module reconciliation with a koji source configured, in terms of its
    loop: the copy is made, the source is created and entered, the loop
    runs, the source is exited, and the keys left in the copy decide. *)
Lemma module_push_items_unfold erratum build_nvr build_info w :
  koji_configured self →
  let sel := module_selector build_nvr build_info w in
  let loop :=
    for_each (koji sel) (module_push_items_step erratum (length (heap w))) []
      (mkWorld (heap w ++ [declared_modules build_info w]) (log w)
         (koji_events w ++ [KojiGet sel; KojiEnter sel])) in
  let w3 := mkWorld (heap loop.1) (log loop.1)
              (koji_events loop.1 ++ [KojiExit sel]) in
  _module_push_items_from_build koji self erratum build_nvr build_info w
  = (w3,
     match loop.2 with
     | Raise e => Raise e
     | Ok out =>
         let missing := sorted (dict_keys (deref (heap w3) (length (heap w)))) in
         if Str.truthy (Str.join ", " missing)
         then Raise (missing_modules_error erratum build_nvr missing)
         else Ok out
     end).
Proof.
  intros Hkoji sel loop w3. unfold _module_push_items_from_build.
  assert (match BuildInfo.modules build_info with
          | Some r => heap_read r
          | None => ret []
          end w = (w, Ok (declared_modules build_info w))) as Hdeclared.
  { unfold declared_modules. by destruct (BuildInfo.modules build_info). }
  rewrite (bind_ok _ _ _ _ _ Hdeclared).
  unfold bind at 1. unfold heap_alloc at 1.
  unfold bind at 1. unfold bind at 1. unfold heap_read at 1. simpl.
  assert (deref (heap w ++ [declared_modules build_info w]) (length (heap w))
          = declared_modules build_info w) as ->.
  { unfold deref. rewrite lookup_app_r by apply le_n. by rewrite Nat.sub_diag. }
  fold (module_selector build_nvr build_info w). fold sel.
  unfold with_koji_source.
  unfold bind at 1. unfold bind at 1. rewrite koji_source_run by done.
  unfold bind at 1. unfold koji_event at 1. simpl.
  rewrite <- app_assoc. simpl. unfold finally. fold loop.
  destruct loop as [w2 [out|e]] eqn:Hloop; simpl; [|done].
  unfold bind, heap_read. simpl.
  by destruct (Str.truthy _).
Qed.

(** X6: module reconciliation always asks koji for ["modulemd.src.txt"]
    besides the declared modules, and always exits the source it entered:
    with a koji source configured, its koji events are the creation, the
    entry and the exit of that one source, whether it returns, a module is
    missing or the iteration raises. *)
Theorem module_koji_source_always_exited erratum build_nvr build_info w :
  koji_configured self →
  koji_events
    (_module_push_items_from_build koji self erratum build_nvr build_info w).1
  = koji_events w ++
      [KojiGet (module_selector build_nvr build_info w);
       KojiEnter (module_selector build_nvr build_info w);
       KojiExit (module_selector build_nvr build_info w)].
Proof.
  intros Hkoji.
  rewrite (module_push_items_unfold erratum build_nvr build_info w Hkoji).
  simpl. rewrite module_loop_events. simpl. by rewrite <- app_assoc.
Qed.

(** Module reconciliation with a koji source configured and a file for
    every item koji yields: the world it leaves and what it returns, in
    terms of the copy once the base names of the files are popped. *)
Lemma module_push_items_run erratum build_nvr build_info w :
  koji_configured self →
  Forall (λ item, is_Some (src item))
    (koji (module_selector build_nvr build_info w)) →
  let sel := module_selector build_nvr build_info w in
  let left :=
    fold_left dict_del (basenames (koji sel)) (declared_modules build_info w) in
  _module_push_items_from_build koji self erratum build_nvr build_info w
  = (mkWorld (heap w ++ [left]) (log w)
       (koji_events w ++ [KojiGet sel; KojiEnter sel; KojiExit sel]),
     if Str.truthy (Str.join ", " (sorted (dict_keys left)))
     then Raise (missing_modules_error erratum build_nvr (sorted (dict_keys left)))
     else Ok (module_items erratum (declared_modules build_info w) (koji sel))).
Proof.
  intros Hkoji Hsrc sel left.
  rewrite (module_push_items_unfold erratum build_nvr build_info w Hkoji).
  cbv zeta. fold sel.
  rewrite (module_loop_run erratum (heap w) (koji sel) Hsrc
             (declared_modules build_info w)) by done.
  fold left. simpl.
  assert (deref (heap w ++ [left]) (length (heap w)) = left) as ->.
  { unfold deref. rewrite lookup_app_r by apply le_n. by rewrite Nat.sub_diag. }
  by rewrite <- app_assoc.
Qed.

(** X7: which modules are missing, and what is returned otherwise. With a
    koji source configured, declared modules under distinct filenames and
    a file for every item koji yields, module reconciliation raises the
    [ValueError] that lists, sorted, the declared filenames that are the
    base name of no yielded file; when there is none (or only the empty
    filename) it returns the items of [module_items]. *)
Theorem modules_missing_from_koji_are_fatal erratum build_nvr build_info w :
  koji_configured self →
  NoDup (dict_keys (declared_modules build_info w)) →
  Forall (λ item, is_Some (src item))
    (koji (module_selector build_nvr build_info w)) →
  let items := koji (module_selector build_nvr build_info w) in
  let missing :=
    sorted (filter (λ k, k ∉ basenames items)
              (dict_keys (declared_modules build_info w))) in
  (_module_push_items_from_build koji self erratum build_nvr build_info w).2
  = if Str.truthy (Str.join ", " missing)
    then Raise (missing_modules_error erratum build_nvr missing)
    else Ok (module_items erratum (declared_modules build_info w) items).
Proof.
  intros Hkoji Hnd Hsrc items missing.
  rewrite (module_push_items_run erratum build_nvr build_info w Hkoji Hsrc).
  cbv zeta. unfold snd. fold items.
  rewrite (proj1 (dict_del_all_keys _ (basenames items) Hnd)).
  by fold missing.
Qed.

(** With distinct base names, popping a name changes nothing for the
    items that follow. *)
Lemma dict_get_del_ne {V} (d : dict V) k k' :
  k ≠ k' → dict_get (dict_del d k) k' = dict_get d k'.
Proof.
  intros Hne. induction d as [|[k0 v0] d IH]; [done |]. simpl.
  destruct (decide (k0 = k)) as [-> | Hk0].
  - by rewrite decide_False by done.
  - simpl. destruct (decide (k0 = k')); [done | apply IH].
Qed.

Lemma module_items_enriched erratum modules items :
  Forall (λ item, is_Some (src item)) items →
  NoDup (basenames items) →
  module_items erratum modules items = module_enriched erratum modules <$> items.
Proof.
  intros Hsrc. revert modules.
  induction Hsrc as [|item items [path Hpath] Hsrc IH]; intros modules Hnd;
    [done |].
  unfold basenames in Hnd. simpl in Hnd. rewrite Hpath in Hnd. simpl in Hnd.
  apply NoDup_cons in Hnd as [Hnot Hnd].
  cbn [module_items]. rewrite Hpath, fmap_cons. f_equal.
  - unfold module_enriched. by rewrite Hpath.
  - rewrite (IH _ Hnd). apply list_fmap_ext. intros i x Hx.
    unfold module_enriched.
    apply list_elem_of_lookup_2 in Hx.
    destruct (proj1 (Forall_forall _ _) Hsrc x Hx) as [p Hp].
    rewrite Hp. simpl. rewrite dict_get_del_ne; [done |].
    intros Heq. apply Hnot. rewrite Heq. apply list_elem_of_omap. exists x.
    split; [done |]. by rewrite Hp.
Qed.

(** X21: the destinations of the module items. With a koji source
    configured, declared modules under distinct filenames, and items from
    koji that each have a file, no two with the same base name: when
    module reconciliation returns, its items are those of koji in their
    order, each with the advisory as origin and with the destinations the
    file list declares under the base name of its file, none ([[]]) when
    it declares nothing under that name, as for ["modulemd.src.txt"]. *)
Theorem module_items_get_declared_dest erratum build_nvr build_info w out :
  koji_configured self →
  NoDup (dict_keys (declared_modules build_info w)) →
  Forall (λ item, is_Some (src item))
    (koji (module_selector build_nvr build_info w)) →
  NoDup (basenames (koji (module_selector build_nvr build_info w))) →
  (_module_push_items_from_build koji self erratum build_nvr build_info w).2
  = Ok out →
  out = module_enriched erratum (declared_modules build_info w) <$>
          koji (module_selector build_nvr build_info w).
Proof.
  intros Hkoji Hnd Hsrc Hbase.
  rewrite (module_push_items_run erratum build_nvr build_info w Hkoji Hsrc).
  cbv zeta. unfold snd. destruct (Str.truthy _); [done |]. intros [= <-].
  by apply module_items_enriched.
Qed.

End module_extras.

(** ** Container reconciliation as a whole *)

Section container_extras.
Variable koji : KojiSelector → list PushItem.
Variable self : ErrataSource.
Context {model : Model}.

Lemma with_koji_source_run {A} kwargs (body : KojiSelector → M A) w :
  koji_configured self →
  with_koji_source self kwargs body w
  = (mkWorld
       (heap (body kwargs
                (mkWorld (heap w) (log w)
                   (koji_events w ++ [KojiGet kwargs; KojiEnter kwargs]))).1)
       (log (body kwargs
               (mkWorld (heap w) (log w)
                  (koji_events w ++ [KojiGet kwargs; KojiEnter kwargs]))).1)
       (koji_events
          (body kwargs
             (mkWorld (heap w) (log w)
                (koji_events w ++ [KojiGet kwargs; KojiEnter kwargs]))).1
        ++ [KojiExit kwargs]),
     (body kwargs
        (mkWorld (heap w) (log w)
           (koji_events w ++ [KojiGet kwargs; KojiEnter kwargs]))).2).
Proof.
  intros Hkoji. unfold with_koji_source.
  unfold bind at 1. rewrite koji_source_run by done.
  unfold bind at 1. unfold koji_event at 1. simpl.
  rewrite <- app_assoc. simpl. unfold finally.
  by destruct (body kwargs _).
Qed.

(** The loop of container reconciliation only logs. *)
Lemma container_loop_world erratum docker_file_list items acc w :
  heap (for_each items
          (container_manifests_step self erratum docker_file_list) acc w).1
  = heap w ∧
  koji_events (for_each items
                 (container_manifests_step self erratum docker_file_list) acc w).1
  = koji_events w.
Proof.
  apply (preserves_for_each
           (λ v, heap v = heap w ∧ koji_events v = koji_events w)); [|done].
  intros item out v Hv. unfold container_manifests_step.
  destruct (decide (cls item = ContainerImagePushItem)).
  { unfold_monad. by destruct (_enrich_container_push_item _ _ _ _). }
  destruct (decide (cls item = OperatorManifestPushItem)); by unfold_monad.
Qed.

(** X8: container reconciliation creates one koji source, for all the
    builds of the docker file list at once, and always exits it: with a
    koji source configured and at least one container build, its koji
    events are the creation, the entry and the exit of that source,
    whether it returns or an image is refused; the heap is left alone. *)
Theorem container_koji_source_always_exited erratum entry docker_file_list w :
  koji_configured self →
  let sel := SelContainer (dict_keys (entry :: docker_file_list)) in
  koji_events
    (_push_items_from_container_manifests koji self erratum
       (Some (entry :: docker_file_list)) w).1
  = koji_events w ++ [KojiGet sel; KojiEnter sel; KojiExit sel] ∧
  heap
    (_push_items_from_container_manifests koji self erratum
       (Some (entry :: docker_file_list)) w).1
  = heap w.
Proof.
  intros Hkoji sel. unfold _push_items_from_container_manifests. fold sel.
  rewrite with_koji_source_run by done. simpl.
  destruct (container_loop_world erratum (entry :: docker_file_list) (koji sel) []
              (mkWorld (heap w) (log w)
                 (koji_events w ++ [KojiGet sel; KojiEnter sel])))
    as [-> ->].
  simpl. by rewrite <- app_assoc.
Qed.

Lemma container_loop_kept erratum docker_file_list items :
  ∀ acc w w' out,
    for_each items (container_manifests_step self erratum docker_file_list) acc w
      = (w', Ok out) →
    ∃ new,
      out = acc ++ new ∧
      Forall2 (container_kept self erratum docker_file_list)
        (filter (λ item, cls item = ContainerImagePushItem ∨
                         cls item = OperatorManifestPushItem) items)
        new.
Proof.
  induction items as [|item items IH]; intros acc w w' out.
  - rewrite for_each_nil. intros [= <- <-]. exists []. by rewrite app_nil_r.
  - rewrite for_each_cons.
    destruct (container_manifests_step _ _ _ item acc w) as [w1 [acc1|e]] eqn:Hstep;
      [|done].
    intros (new & -> & Hnew)%IH.
    unfold container_manifests_step in Hstep.
    destruct (decide (cls item = ContainerImagePushItem)) as [Hc|Hc].
    { unfold_monad.
      destruct (_enrich_container_push_item _ _ _ _) as [item'|e] eqn:He;
        [|done].
      injection Hstep as <- <-. eexists. rewrite <- app_assoc. split; [done |].
      rewrite filter_cons_True by (by left). simpl. constructor; [|done].
      unfold container_kept. rewrite decide_True by done. eauto. }
    destruct (decide (cls item = OperatorManifestPushItem)) as [Ho|Ho];
      unfold_monad; injection Hstep as <- <-.
    + eexists. rewrite <- app_assoc. split; [done |].
      rewrite filter_cons_True by (by right). simpl. constructor; [|done].
      unfold container_kept. by rewrite decide_False by done.
    + exists new. split; [done |].
      by rewrite filter_cons_False by (intros [?|?]; done).
Qed.

(** X9: container reconciliation keeps the images and the operator
    manifests koji yields, in koji's order, and drops everything else.
    When it returns, every image has been enriched from the docker file
    list, every operator manifest is as koji gave it, and each has the
    advisory as origin. *)
Theorem container_items_in_koji_order erratum entry docker_file_list w w' out :
  _push_items_from_container_manifests koji self erratum
    (Some (entry :: docker_file_list)) w = (w', Ok out) →
  Forall2 (container_kept self erratum (entry :: docker_file_list))
    (filter (λ item, cls item = ContainerImagePushItem ∨
                     cls item = OperatorManifestPushItem)
       (koji (SelContainer (dict_keys (entry :: docker_file_list)))))
    out.
Proof.
  unfold _push_items_from_container_manifests.
  intros (w1 & w2 & Hloop)%with_koji_source_returns.
  by apply container_loop_kept in Hloop as (new & -> & Hnew).
Qed.

End container_extras.

Section signing_key.
Variable self : ErrataSource.
Context {model : Model}.

(** X10: the signing key of a container image. When enrichment returns,
    the item is the one koji gave with its destinations and its signing
    key set and nothing else changed. The value the source gives for the
    signing key is the one signing key of the repositories read, [None]
    when they carry none, and the item holds what the class makes of that
    value through its converter. *)
Theorem container_signing_key_attached erratum docker_file_list item item' :
  _enrich_container_push_item self erratum docker_file_list item = Ok item' →
  ∃ d key,
    item' = evolve_container item d key ∧
    dest item' = Some d ∧
    dest_signing_key item' = dest_signing_key_converter key ∧
    ∀ k, is_sig_key (container_repos self docker_file_list item) k ↔ key = Some k.
Proof.
  rewrite enrich_container_cases.
  destruct (list_truthy _); simpl; [|done].
  case_bool_decide as Hsize; [done |]. intros [= <-].
  eexists _, _. do 3 (split; [done |]). intros k.
  rewrite <- container_repo_loop_keys, <- elem_of_elements.
  unfold size, set_size in Hsize. simpl in Hsize.
  destruct (elements (container_repo_loop _).1) as [|k0 [|k1 ks]]; simpl in *.
  - split; [intros Hin; by apply elem_of_nil in Hin | done].
  - rewrite list_elem_of_singleton. split; [by intros -> | by intros [= ->]].
  - lia.
Qed.

End signing_key.

(** ** The whole advisory, further *)

Lemma for_each_ext {A S} (body1 body2 : A → S → M S) l s w :
  (∀ x s w, body1 x s w = body2 x s w) →
  for_each l body1 s w = for_each l body2 s w.
Proof.
  intros Hext. revert s w. induction l as [|x l IH]; intros s w; [done |].
  rewrite !for_each_cons, Hext.
  destruct (body2 x s w) as [w1 [s1|e]]; [apply IH | done].
Qed.

Lemma bind_run {A B} (m : M A) (k : A → M B) w :
  bind m k w
  = match m w with
    | (w1, Ok a) => k a w1
    | (w1, Raise e) => (w1, Raise e)
    end.
Proof. unfold bind. by destruct (m w) as [w1 [a|e]]. Qed.

(** A loop that appends to its state what a function makes of each
    element may start from the empty list. *)
Lemma for_each_appending {A B} (f : A → M (list B)) l acc w :
  for_each l (λ x out, items <- f x ;; ret (out ++ items)) acc w
  = match for_each l (λ x out, items <- f x ;; ret (out ++ items)) [] w with
    | (w', Ok out) => (w', Ok (acc ++ out))
    | (w', Raise e) => (w', Raise e)
    end.
Proof.
  revert acc w. induction l as [|x l IH]; intros acc w.
  - rewrite !for_each_nil. by rewrite app_nil_r.
  - rewrite !for_each_cons. unfold bind, ret in *.
    destruct (f x w) as [w1 [items|e]]; [|done].
    rewrite app_nil_l, (IH (acc ++ items)), (IH items).
    destruct (for_each l _ [] w1) as [w2 [out|e]]; [|done].
    by rewrite app_assoc.
Qed.

Section advisory_extras.
Variable Metadata : Type.
Variable ErratumPushItem_from_data : Metadata → PushItem.
Variable archstr : string → string.
Variable koji : KojiSelector → list PushItem.
Variable self : ErrataSource.
Context {model : Model}.

Lemma push_items_from_rpms_build_items erratum rpm_list w :
  _push_items_from_rpms archstr koji self erratum rpm_list w
  = for_each rpm_list
      (λ entry out,
         items <- build_items archstr koji self erratum entry ;;
         ret (out ++ items))
      [] w.
Proof.
  unfold _push_items_from_rpms. apply for_each_ext.
  intros [build_nvr build_info] out v. unfold build_items, bind. simpl.
  destruct (_rpm_push_items_from_build _ _ _ _ _ _ v) as [v1 [rpm_items|e]];
    [|done].
  destruct (_module_push_items_from_build _ _ _ _ _ v1) as [v2 [module_items|e]];
    [|done].
  unfold ret. by rewrite app_assoc.
Qed.

(** X11: the items of the builds come in the order of the file list, and
    for each build the RPMs come before the modules. Reconciling the file
    list [l1 ++ l2] is reconciling [l1], then [l2] from the world [l1]
    left, and concatenating; an error in [l1] is the error of the whole and
    nothing of [l2] is looked at. The items of one build are its RPM items
    followed by its module items. *)
Theorem push_items_from_rpms_composes erratum l1 l2 build_nvr build_info w :
  _push_items_from_rpms archstr koji self erratum (l1 ++ l2) w
  = (out1 <- _push_items_from_rpms archstr koji self erratum l1 ;;
     out2 <- _push_items_from_rpms archstr koji self erratum l2 ;;
     ret (out1 ++ out2)) w ∧
  _push_items_from_rpms archstr koji self erratum [(build_nvr, build_info)] w
  = (rpm_items <- _rpm_push_items_from_build archstr koji self erratum
                    build_nvr build_info ;;
     module_items <- _module_push_items_from_build koji self erratum
                       build_nvr build_info ;;
     ret (rpm_items ++ module_items)) w.
Proof.
  split.
  - rewrite bind_run, !push_items_from_rpms_build_items, for_each_app.
    destruct (for_each l1 _ [] w) as [w1 [out1|e]]; [|done].
    rewrite for_each_appending, bind_run, push_items_from_rpms_build_items.
    by destruct (for_each l2 _ [] w1) as [w2 [out2|e]].
  - rewrite push_items_from_rpms_build_items, for_each_cons.
    unfold build_items, bind. simpl.
    destruct (_rpm_push_items_from_build _ _ _ _ _ _ w) as [v1 [rpm_items|e]];
      [|done].
    by destruct (_module_push_items_from_build _ _ _ _ _ v1)
      as [v2 [module_items|e]].
Qed.

End advisory_extras.

(** ** The whole advisory, stage by stage *)

Lemma bind_returns {A B} (m : M A) (k : A → M B) w w' b :
  bind m k w = (w', Ok b) → ∃ w1 a, m w = (w1, Ok a) ∧ k a w1 = (w', Ok b).
Proof. unfold bind. destruct (m w) as [w1 [a|e]]; [eauto | done]. Qed.

Lemma fold_union_elem_of (d : list string) (s : gset string) x :
  x ∈ fold_left (λ s x, s ∪ {[x]}) d s ↔ x ∈ s ∨ x ∈ d.
Proof.
  revert s. induction d as [|y d IH]; intros s; simpl.
  - split; [by left | intros [H | H]; [done | by apply elem_of_nil in H]].
  - rewrite IH, elem_of_union, elem_of_singleton, elem_of_cons. tauto.
Qed.

Lemma elem_of_concat {A} (ls : list (list A)) x :
  x ∈ concat ls ↔ ∃ l, x ∈ l ∧ l ∈ ls.
Proof.
  induction ls as [|l ls IH]; simpl.
  - split; [by intros H%elem_of_nil | by intros (l & _ & H%elem_of_nil)].
  - rewrite elem_of_app, IH. split.
    + intros [H | (l' & Hx & Hl')].
      * exists l. split; [done | apply list_elem_of_here].
      * exists l'. split; [done | by apply list_elem_of_further].
    + intros (l' & Hx & [-> | Hl']%elem_of_cons); [by left |].
      right. by exists l'.
Qed.

(** The loop that collects the destinations of the advisory leaves the
    world alone and adds to the set the destinations of every item. *)
Lemma erratum_dest_loop_world items s w :
  (for_each items erratum_dest_step s w).1 = w.
Proof.
  revert s. induction items as [|item items IH]; intros s; [done |].
  rewrite for_each_cons. unfold erratum_dest_step at 1.
  destruct (dest item); unfold_monad; [apply IH | done].
Qed.

Lemma erratum_dest_loop_union items s w w' s' :
  for_each items erratum_dest_step s w = (w', Ok s') →
  ∀ x, x ∈ s' ↔
       x ∈ s ∨ ∃ item d, item ∈ items ∧ dest item = Some d ∧ x ∈ d.
Proof.
  revert s w. induction items as [|item items IH]; intros s w.
  - rewrite for_each_nil. intros [= <- <-] x. split; [by left |].
    intros [H | (item & d & Hin & _)]; [done | by apply elem_of_nil in Hin].
  - rewrite for_each_cons. unfold erratum_dest_step at 1.
    destruct (dest item) as [d|] eqn:Hd; unfold_monad; [|done].
    intros Hrest x. rewrite (IH _ _ Hrest x), fold_union_elem_of. split.
    + intros [[H | H] | (item' & d' & Hin & Hd' & Hx)]; [by left | |].
      * right. exists item, d. split; [apply list_elem_of_here | done].
      * right. exists item', d'. split; [by apply list_elem_of_further | done].
    + intros [H | (item' & d' & Hin & Hd' & Hx)]; [by left; left |].
      apply elem_of_cons in Hin as [-> | Hin].
      * left; right. congruence.
      * right. by exists item', d'.
Qed.

Section pipeline_extras.
Variable Metadata : Type.
Variable ErratumPushItem_from_data : Metadata → PushItem.
Variable archstr : string → string.
Variable koji : KojiSelector → list PushItem.
Variable self : ErrataSource.
Context {model : Model}.
Implicit Types (raw : Raw Metadata) (items out : list PushItem).

(** The stages of [_push_items_from_raw] when it returns. *)
Lemma push_items_from_raw_returns raw w w' out :
  _push_items_from_raw Metadata ErratumPushItem_from_data archstr koji self
    raw w = (w', Ok out) →
  ∃ w1 w2 items erratum_dest merged containers,
    _push_items_from_rpms archstr koji self
      (ErratumPushItem_from_data (advisory_cdn_metadata raw))
      (advisory_cdn_file_list raw) w = (w1, Ok items) ∧
    for_each items erratum_dest_step
      (list_to_set
         (default [] (dest (ErratumPushItem_from_data (advisory_cdn_metadata raw)))))
      w1 = (w1, Ok erratum_dest) ∧
    _add_ftp_paths Metadata items
      (evolve_dest (ErratumPushItem_from_data (advisory_cdn_metadata raw))
         (Some (sorted_set erratum_dest))) raw w1 = (w2, Ok merged) ∧
    _push_items_from_container_manifests koji self
      (evolve_dest (ErratumPushItem_from_data (advisory_cdn_metadata raw))
         (Some (sorted_set erratum_dest)))
      (advisory_cdn_docker_file_list raw) w2 = (w', Ok containers) ∧
    out = evolve_dest (ErratumPushItem_from_data (advisory_cdn_metadata raw))
            (Some (sorted_set erratum_dest)) :: merged ++ containers.
Proof.
  unfold _push_items_from_raw.
  intros (w1 & items & Hrpms & H)%bind_returns.
  apply bind_returns in H as (w1' & erratum_dest & Hdest & H).
  apply bind_returns in H as (w2 & merged & Hftp & H).
  apply bind_returns in H as (w3 & containers & Hcont & H).
  unfold ret in H. injection H as <- <-.
  pose proof (erratum_dest_loop_world items
                (list_to_set
                   (default []
                      (dest (ErratumPushItem_from_data
                               (advisory_cdn_metadata raw))))) w1) as Hw.
  rewrite Hdest in Hw. simpl in Hw. subst w1'.
  by exists w1, w2, items, erratum_dest, merged, containers.
Qed.

(** X12: an advisory with a build in its file list cannot be reconciled
    without a koji source: [_push_items_from_raw] raises the error of
    [_koji_source], having asked koji nothing and left the heap alone. *)
Theorem advisory_with_builds_needs_koji raw w :
  advisory_cdn_file_list raw ≠ [] →
  _koji_source_url self = None ∨ _koji_source_url self = Some "" →
  ∃ w',
    _push_items_from_raw Metadata ErratumPushItem_from_data archstr koji self
      raw w = (w', Raise koji_required_error) ∧
    heap w' = heap w ∧ koji_events w' = koji_events w.
Proof.
  intros Hbuilds Hunset. unfold _push_items_from_raw, _push_items_from_rpms.
  destruct (advisory_cdn_file_list raw) as [|[build_nvr build_info] l]; [done |].
  destruct (rpm_push_items_without_koji archstr koji self
              (ErratumPushItem_from_data (advisory_cdn_metadata raw))
              build_nvr build_info w Hunset) as (w' & Hrpm & Hheap & Hevents).
  exists w'. split; [|done].
  apply bind_raise. rewrite for_each_cons. apply bind_raise.
  by apply bind_raise.
Qed.

(** Without items and without builds in the file list, the FTP step
    returns no item, whatever the FTP paths say, and only logs. *)
Lemma add_ftp_paths_no_items erratum raw w :
  advisory_cdn_file_list raw = [] →
  ∃ w', _add_ftp_paths Metadata [] erratum raw w = (w', Ok []) ∧
        heap w' = heap w ∧ koji_events w' = koji_events w.
Proof.
  intros Hfiles.
  unfold _add_ftp_paths. rewrite (bind_ok _ _ w w ([], ∅)) by done.
  cbv beta iota. rewrite (bind_ok _ _ _ _ _ (missing_modules_loop _ _ _ _ _ _)).
  cbv beta iota.
  assert (filter (λ nvr, manifest_declares_modules raw w nvr)
            (sorted_set
               (builds_need_modules (ftp_tables (ftp_paths raw)) ∖ ∅)) = [])
    as ->.
  { apply filter_none, Forall_forall. intros nvr _.
    unfold manifest_declares_modules, manifest_modules.
    rewrite Hfiles. simpl. by intros H. }
  rewrite !app_nil_l.
  destruct (list_truthy _); unfold_monad; eauto.
Qed.

(** X13: an advisory with no build in its file list and no container
    build is reconciled without koji, configured or not: the output is
    the advisory item alone, with its own destinations sorted and without
    duplicates, whatever the FTP paths say; no koji source is created and
    the heap is left alone. *)
Theorem advisory_without_builds_needs_no_koji raw w :
  advisory_cdn_file_list raw = [] →
  no_container_builds (advisory_cdn_docker_file_list raw) →
  ∃ w',
    _push_items_from_raw Metadata ErratumPushItem_from_data archstr koji self
      raw w
    = (w', Ok [evolve_dest
                 (ErratumPushItem_from_data (advisory_cdn_metadata raw))
                 (Some (sorted_of_list
                          (default []
                             (dest (ErratumPushItem_from_data
                                      (advisory_cdn_metadata raw))))))]) ∧
    heap w' = heap w ∧ koji_events w' = koji_events w.
Proof.
  intros Hfiles Hcont. unfold _push_items_from_raw, _push_items_from_rpms.
  rewrite Hfiles. rewrite (bind_ok _ _ w w []) by done.
  rewrite (bind_ok _ _ w w
             (list_to_set
                (default []
                   (dest (ErratumPushItem_from_data
                            (advisory_cdn_metadata raw)))))) by done.
  fold (sorted_of_list
          (default [] (dest (ErratumPushItem_from_data
                               (advisory_cdn_metadata raw))))).
  set (erratum := evolve_dest _ _).
  destruct (add_ftp_paths_no_items erratum raw w Hfiles)
    as (w' & Hftp & Hheap & Hevents).
  exists w'. split; [|done].
  rewrite (bind_ok _ _ _ _ _ Hftp).
  by destruct Hcont as [-> | ->].
Qed.

(** X22: container builds need koji as the builds of the file list do:
    with an empty file list, a container build and no koji source,
    [_push_items_from_raw] raises the error of [_koji_source], having
    asked koji nothing and left the heap alone. *)
Theorem advisory_with_containers_needs_koji raw entry docker_file_list w :
  advisory_cdn_file_list raw = [] →
  advisory_cdn_docker_file_list raw = Some (entry :: docker_file_list) →
  _koji_source_url self = None ∨ _koji_source_url self = Some "" →
  ∃ w',
    _push_items_from_raw Metadata ErratumPushItem_from_data archstr koji self
      raw w = (w', Raise koji_required_error) ∧
    heap w' = heap w ∧ koji_events w' = koji_events w.
Proof.
  intros Hfiles Hcont Hunset. unfold _push_items_from_raw, _push_items_from_rpms.
  rewrite Hfiles, Hcont. rewrite (bind_ok _ _ w w []) by done.
  rewrite (bind_ok _ _ w w
             (list_to_set
                (default []
                   (dest (ErratumPushItem_from_data
                            (advisory_cdn_metadata raw)))))) by done.
  set (erratum := evolve_dest _ _).
  destruct (add_ftp_paths_no_items erratum raw w Hfiles)
    as (w' & Hftp & Hheap & Hevents).
  exists w'. split; [|done].
  rewrite (bind_ok _ _ _ _ _ Hftp).
  apply bind_raise. unfold _push_items_from_container_manifests, with_koji_source.
  by apply bind_raise, koji_source_unset.
Qed.

(** X14: the destinations of the advisory item are the sorted list,
    without duplicates, of its own destinations and of those the items of
    the file list have before the FTP paths are added. *)
Theorem advisory_dest_is_union raw w w' out :
  _push_items_from_raw Metadata ErratumPushItem_from_data archstr koji self
    raw w = (w', Ok out) →
  ∃ w1 items d rest,
    _push_items_from_rpms archstr koji self
      (ErratumPushItem_from_data (advisory_cdn_metadata raw))
      (advisory_cdn_file_list raw) w = (w1, Ok items) ∧
    out = evolve_dest (ErratumPushItem_from_data (advisory_cdn_metadata raw))
            (Some d) :: rest ∧
    StronglySorted String.le d ∧ NoDup d ∧
    ∀ x, x ∈ d ↔
         x ∈ default []
               (dest (ErratumPushItem_from_data (advisory_cdn_metadata raw)))
         ∨ ∃ item d_item, item ∈ items ∧ dest item = Some d_item ∧ x ∈ d_item.
Proof.
  intros (w1 & w2 & items & erratum_dest & merged & containers &
          Hrpms & Hdest & _ & _ & ->)%push_items_from_raw_returns.
  exists w1, items, (sorted_set erratum_dest), (merged ++ containers).
  split; [done |]. split; [done |].
  split; [apply sorted_set_sorted |]. split; [apply sorted_set_NoDup |].
  intros x. rewrite sorted_set_elem_of, (erratum_dest_loop_union _ _ _ _ _ Hdest).
  by rewrite elem_of_list_to_set.
Qed.

(** The items of RPM and of module reconciliation carry the advisory as
    origin. *)
Lemma rpm_items_origin erratum build_nvr build_info w w' out :
  _rpm_push_items_from_build archstr koji self erratum build_nvr build_info w
    = (w', Ok out) →
  Forall (λ item, origin item = Some (name erratum)) out.
Proof.
  unfold _rpm_push_items_from_build.
  intros (w1 & fl & _ & H)%bind_returns.
  apply bind_returns in H as (w2 & ks & _ & Hloop).
  eapply (for_each_invariant
            (Forall (λ item, origin item = Some (name erratum))));
    [ | | exact Hloop]; [|constructor].
  intros x s v v' s' _ IH. unfold rpm_push_items_step.
  case_bool_decide; unfold_monad; [done |].
  destruct (evolve_rpm _ _ _ _ _ _) as [item|e] eqn:Hitem; [|done].
  apply evolve_rpm_ok in Hitem as (sha' & md' & d' & _ & ->).
  intros [= <- <-].
  apply Forall_app. split; [done |]. by repeat constructor.
Qed.

Lemma module_items_origin erratum build_nvr build_info w w' out :
  _module_push_items_from_build koji self erratum build_nvr build_info w
    = (w', Ok out) →
  Forall (λ item, origin item = Some (name erratum)) out.
Proof.
  unfold _module_push_items_from_build.
  intros (w1 & declared & _ & H)%bind_returns.
  apply bind_returns in H as (w2 & modules & _ & H).
  apply bind_returns in H as (w3 & module_filenames & _ & H).
  apply bind_returns in H as (w4 & out' & Hwith & H).
  apply bind_returns in H as (w5 & remaining & _ & H).
  destruct (Str.truthy _); unfold_monad; [done |]. injection H as <- <-.
  apply with_koji_source_returns in Hwith as (v1 & v2 & Hloop).
  eapply (for_each_invariant
            (Forall (λ item, origin item = Some (name erratum))));
    [ | | exact Hloop]; [|constructor].
  intros x s v v' s' _ IH. unfold module_push_items_step.
  destruct (src x); unfold_monad; [|done]. intros [= <- <-].
  apply Forall_app. split; [done |]. by repeat constructor.
Qed.

Lemma push_items_from_rpms_origin erratum rpm_list w w' out :
  _push_items_from_rpms archstr koji self erratum rpm_list w = (w', Ok out) →
  Forall (λ item, origin item = Some (name erratum)) out.
Proof.
  unfold _push_items_from_rpms. intros Hloop.
  eapply (for_each_invariant
            (Forall (λ item, origin item = Some (name erratum))));
    [ | | exact Hloop]; [|constructor].
  intros [build_nvr build_info] s v v' s' _ IH.
  intros (v1 & rpm_items & Hrpm%rpm_items_origin & H)%bind_returns.
  apply bind_returns in H as (v2 & module_items & Hmod%module_items_origin & H).
  unfold ret in H. injection H as <- <-.
  by rewrite !Forall_app.
Qed.

Lemma ftp_merged_origin raw item res :
  res ∈ ftp_merged raw item → origin res = origin item.
Proof.
  unfold ftp_merged.
  destruct (decide (cls item = RpmPushItem));
    [by intros ->%list_elem_of_singleton |].
  destruct (decide (cls item = ModuleMdSourcePushItem));
    [|by intros ->%list_elem_of_singleton].
  destruct (list_truthy _); [by intros ->%list_elem_of_singleton |].
  by intros H%elem_of_nil.
Qed.

Lemma container_items_origin erratum docker_file_list w w' out :
  _push_items_from_container_manifests koji self erratum docker_file_list w
    = (w', Ok out) →
  Forall (λ item, origin item = Some (name erratum)) out.
Proof.
  unfold _push_items_from_container_manifests.
  assert (ret [] w = (w', Ok out) →
          Forall (λ item, origin item = Some (name erratum)) out) as Hnone.
  { intros [= <- <-]. constructor. }
  destruct docker_file_list as [[|entry dfl]|]; [done | | done].
  intros (w1 & w2 & Hloop)%with_koji_source_returns.
  eapply (for_each_invariant
            (Forall (λ item, origin item = Some (name erratum))));
    [ | | exact Hloop]; [|constructor].
  intros x s v v' s' _ IH. unfold container_manifests_step.
  destruct (decide (cls x = ContainerImagePushItem)).
  { unfold_monad. destruct (_enrich_container_push_item _ _ _ _); [|done].
    intros [= <- <-]. apply Forall_app. split; [done |]. by repeat constructor. }
  destruct (decide (cls x = OperatorManifestPushItem));
    unfold_monad; intros [= <- <-]; [|done].
  apply Forall_app. split; [done |]. by repeat constructor.
Qed.

(** X15: every item of the output after the advisory item carries the
    name of the advisory as its origin. *)
Theorem items_origin_is_advisory raw w w' out :
  _push_items_from_raw Metadata ErratumPushItem_from_data archstr koji self
    raw w = (w', Ok out) →
  ∀ item, item ∈ tail out →
    origin item
    = Some (name (ErratumPushItem_from_data (advisory_cdn_metadata raw))).
Proof.
  intros (w1 & w2 & items & erratum_dest & merged & containers &
          Hrpms & _ & Hftp & Hcont & ->)%push_items_from_raw_returns.
  simpl. intros item [Hin | Hin]%elem_of_app.
  - apply add_ftp_paths_returns in Hftp as (v & have & Hloop).
    apply ftp_paths_loop_merged in Hloop as ->.
    apply elem_of_concat in Hin as (l & Hin & Hl).
    apply list_elem_of_fmap in Hl as (orig & -> & Horig).
    rewrite (ftp_merged_origin _ _ _ Hin).
    apply push_items_from_rpms_origin in Hrpms.
    by apply (proj1 (Forall_forall _ _) Hrpms).
  - apply container_items_origin in Hcont.
    by apply (proj1 (Forall_forall _ _) Hcont).
Qed.

(** The heap through the stages: RPM reconciliation and container
    reconciliation leave it alone, whatever their outcome. *)
Lemma rpm_push_items_heap erratum build_nvr build_info w :
  heap (_rpm_push_items_from_build archstr koji self erratum build_nvr
          build_info w).1 = heap w.
Proof.
  destruct (koji_configured_dec self) as [Hkoji | Hunset].
  - by destruct (rpm_push_items_run archstr koji self erratum build_nvr
                   build_info w Hkoji) as (w' & -> & Hheap & _).
  - destruct (rpm_push_items_without_koji archstr koji self erratum build_nvr
                build_info w Hunset) as (w' & -> & Hheap & _). done.
Qed.

Lemma container_manifests_heap erratum docker_file_list w :
  heap (_push_items_from_container_manifests koji self erratum
          docker_file_list w).1 = heap w.
Proof.
  unfold _push_items_from_container_manifests.
  destruct docker_file_list as [[|entry dfl]|]; [done | | done].
  destruct (koji_configured_dec self) as [Hkoji | Hunset].
  - rewrite (with_koji_source_run self _ _ _ Hkoji). simpl.
    by rewrite (proj1 (container_loop_world self _ _ _ _ _)).
  - unfold with_koji_source.
    by rewrite (bind_raise _ _ _ _ _ (koji_source_unset self _ w Hunset)).
Qed.

Lemma push_items_from_rpms_heap erratum rpm_list w :
  ∃ copies,
    heap (_push_items_from_rpms archstr koji self erratum rpm_list w).1
    = heap w ++ copies.
Proof.
  unfold _push_items_from_rpms.
  apply (for_each_world (λ v v', ∃ copies, heap v' = heap v ++ copies)).
  - intros v. exists []. by rewrite app_nil_r.
  - intros v1 v2 v3 [c1 H1] [c2 H2]. exists (c1 ++ c2).
    by rewrite H2, H1, app_assoc.
  - intros [build_nvr build_info] s v _. rewrite bind_run.
    pose proof (rpm_push_items_heap erratum build_nvr build_info v) as Hrpm.
    destruct (_rpm_push_items_from_build _ _ _ _ _ _ v) as [v1 [rpm_items|e]];
      simpl in Hrpm; [|exists []; by rewrite app_nil_r].
    rewrite bind_run.
    destruct (module_push_items_heap koji self (heap v1) erratum build_nvr
                build_info v1 eq_refl) as [copy Hmod].
    destruct (_module_push_items_from_build _ _ _ _ _ v1)
      as [v2 [module_items|e]]; simpl in *; exists [copy]; congruence.
Qed.

(** X16: reconciling an advisory never changes the raw data on the heap,
    whether it returns or raises: the heap afterwards is the heap before,
    followed by the copies module reconciliation made. *)
Theorem advisory_keeps_raw_data raw w :
  ∃ copies,
    heap (_push_items_from_raw Metadata ErratumPushItem_from_data archstr koji
            self raw w).1
    = heap w ++ copies.
Proof.
  unfold _push_items_from_raw. rewrite bind_run.
  destruct (push_items_from_rpms_heap
              (ErratumPushItem_from_data (advisory_cdn_metadata raw))
              (advisory_cdn_file_list raw) w) as [copies Hrpms].
  exists copies.
  destruct (_push_items_from_rpms _ _ _ _ _ w) as [w1 [items|e]];
    simpl in Hrpms; [|done].
  rewrite bind_run.
  pose proof (erratum_dest_loop_world items
                (list_to_set
                   (default []
                      (dest (ErratumPushItem_from_data
                               (advisory_cdn_metadata raw))))) w1) as Hw.
  destruct (for_each items erratum_dest_step _ w1) as [w1' [erratum_dest|e]];
    simpl in Hw; subst w1'; [|done].
  rewrite bind_run.
  destruct (log_only_world _ w1
              (add_ftp_paths_log_only Metadata items
                 (evolve_dest
                    (ErratumPushItem_from_data (advisory_cdn_metadata raw))
                    (Some (sorted_set erratum_dest))) raw)) as (Hftp & _).
  destruct (_add_ftp_paths _ _ _ _ w1) as [w2 [merged|e]];
    simpl in Hftp; [|simpl; congruence].
  rewrite bind_run.
  pose proof (container_manifests_heap
                (evolve_dest
                   (ErratumPushItem_from_data (advisory_cdn_metadata raw))
                   (Some (sorted_set erratum_dest)))
                (advisory_cdn_docker_file_list raw) w2) as Hcont.
  destruct (_push_items_from_container_manifests _ _ _ _ w2)
    as [w3 [containers|e]]; simpl in *; congruence.
Qed.

(** An image that enrichment accepts has a repository with a tag, and
    comes back with at least one destination. *)
Lemma enrich_container_tag erratum docker_file_list item item' :
  _enrich_container_push_item self erratum docker_file_list item = Ok item' →
  (∃ x, is_repo_tag (container_repos self docker_file_list item) x) ∧
  cls item' = cls item ∧ opt_truthy (dest item') = true.
Proof.
  rewrite enrich_container_cases.
  destruct (list_truthy _) eqn:Hdest; simpl; [|done].
  case_bool_decide; [done |]. intros [= <-]. split; [|done].
  destruct (sorted_of_list _) as [|x l] eqn:Hl; [done |].
  exists x. apply container_repo_loop_dest, sorted_of_list_elem_of.
  rewrite Hl. apply list_elem_of_here.
Qed.

Lemma Forall2_elem_of_l {A B} (P : A → B → Prop) l k x :
  Forall2 P l k → x ∈ l → ∃ y, y ∈ k ∧ P x y.
Proof.
  intros Hall [i Hi]%list_elem_of_lookup_1.
  destruct (Forall2_lookup_l _ _ _ _ _ Hall Hi) as (y & Hy & HP).
  exists y. split; [by eapply list_elem_of_lookup_2 | done].
Qed.

Lemma Forall2_elem_of_r {A B} (P : A → B → Prop) l k y :
  Forall2 P l k → y ∈ k → ∃ x, x ∈ l ∧ P x y.
Proof.
  intros Hall [i Hi]%list_elem_of_lookup_1.
  destruct (Forall2_lookup_r _ _ _ _ _ Hall Hi) as (x & Hx & HP).
  exists x. split; [by eapply list_elem_of_lookup_2 | done].
Qed.

(** C4, as the code has it: when reconciling an advisory returns, the
    output is the advisory item, then what the FTP step returns for the
    items of the file list, then what container reconciliation returns.
    The FTP step turns the items of the file list into [ftp_merged] of
    each, so that a module source left without a destination is dropped,
    and every module source in its output has at least one destination.
    Container reconciliation returns, for the images and the operator
    manifests koji yields, in koji's order, the image enriched and the
    manifest as it is; every item it returns is an operator manifest or
    an image with at least one destination, and every image koji yields
    has a repository with a tag: an image without one is an error, and
    nothing is returned. Without container builds there is no container
    item. Nothing of the kind is checked for the other items. *)
Theorem module_sources_and_containers_have_destinations raw w w' out :
  _push_items_from_raw Metadata ErratumPushItem_from_data archstr koji self
    raw w = (w', Ok out) →
  ∃ w1 w2 rpm_items erratum items containers,
    _push_items_from_rpms archstr koji self
      (ErratumPushItem_from_data (advisory_cdn_metadata raw))
      (advisory_cdn_file_list raw) w = (w1, Ok rpm_items) ∧
    erratum = evolve_dest
                (ErratumPushItem_from_data (advisory_cdn_metadata raw))
                (dest erratum) ∧
    _add_ftp_paths Metadata rpm_items erratum raw w1 = (w2, Ok items) ∧
    _push_items_from_container_manifests koji self erratum
      (advisory_cdn_docker_file_list raw) w2 = (w', Ok containers) ∧
    out = erratum :: items ++ containers ∧
    items = concat (ftp_merged raw <$> rpm_items) ∧
    (∀ item, item ∈ items → cls item = ModuleMdSourcePushItem →
       opt_truthy (dest item) = true) ∧
    (∀ item, item ∈ containers →
       cls item = OperatorManifestPushItem ∨
       (cls item = ContainerImagePushItem ∧ opt_truthy (dest item) = true)) ∧
    match advisory_cdn_docker_file_list raw with
    | Some (entry :: docker_file_list) =>
        Forall2 (container_kept self erratum (entry :: docker_file_list))
          (filter (λ item, cls item = ContainerImagePushItem ∨
                           cls item = OperatorManifestPushItem)
             (koji (SelContainer (dict_keys (entry :: docker_file_list)))))
          containers ∧
        ∀ item,
          item ∈ koji (SelContainer (dict_keys (entry :: docker_file_list))) →
          cls item = ContainerImagePushItem →
          ∃ x, is_repo_tag
                 (container_repos self (entry :: docker_file_list) item) x
    | _ => containers = []
    end.
Proof.
  intros (w1 & w2 & rpm_items & erratum_dest & merged & containers &
          Hrpms & _ & Hftp & Hcont & ->)%push_items_from_raw_returns.
  exists w1, w2, rpm_items,
    (evolve_dest (ErratumPushItem_from_data (advisory_cdn_metadata raw))
       (Some (sorted_set erratum_dest))), merged, containers.
  do 5 (split; [done |]).
  destruct (add_ftp_paths_returns _ _ _ _ _ _ _ Hftp) as (v & have & Hloop).
  split; [by eapply ftp_paths_loop_merged |].
  split.
  { intros item Hin Hcls.
    destruct (module_sources_of_loop _ _ _ _ _ _ _ _ Hloop item Hin Hcls)
      as (orig & d & _ & _ & _ & _ & -> & Hne).
    simpl. by apply list_truthy_true. }
  unfold _push_items_from_container_manifests in Hcont.
  assert (ret [] w2 = (w', Ok containers) →
          (∀ item, item ∈ containers →
             cls item = OperatorManifestPushItem ∨
             (cls item = ContainerImagePushItem ∧
              opt_truthy (dest item) = true)) ∧
          containers = []) as Hnone.
  { intros [= <- <-]. split; [|done]. by intros item Hin%elem_of_nil. }
  destruct (advisory_cdn_docker_file_list raw) as [[|entry dfl]|];
    [by apply Hnone | | by apply Hnone].
  apply with_koji_source_returns in Hcont as (v1 & v2 & Hcont).
  apply container_loop_kept in Hcont as (new & -> & Hkept). simpl.
  split; [|split; [done |]].
  - intros res Hres.
    destruct (Forall2_elem_of_r _ _ _ _ Hkept Hres) as (item & Hitem & Hk).
    apply list_elem_of_filter in Hitem as [Hcls _].
    unfold container_kept in Hk.
    destruct (decide (cls item = ContainerImagePushItem)) as [Hc|Hc].
    + destruct Hk as (item' & (_ & Hcls' & Hdest)%enrich_container_tag & ->).
      right. simpl. split; [congruence | done].
    + subst res. left. simpl. by destruct Hcls.
  - intros item Hin Hc.
    assert (item ∈ filter (λ item, cls item = ContainerImagePushItem ∨
                                   cls item = OperatorManifestPushItem)
                     (koji (SelContainer (dict_keys (entry :: dfl)))))
      as Hitem by (apply list_elem_of_filter; auto).
    destruct (Forall2_elem_of_l _ _ _ _ Hkept Hitem) as (res & _ & Hk).
    unfold container_kept in Hk. rewrite decide_True in Hk by done.
    by destruct Hk as (item' & (Htag & _)%enrich_container_tag & _).
Qed.

End pipeline_extras.

(** ** Filenames and the arch filter *)

Lemma append_assoc (s t u : string) : (s +:+ t) +:+ u = s +:+ t +:+ u.
Proof.
  induction s as [|c s IH]; [done |]. rewrite !append_cons. by rewrite IH.
Qed.

Lemma split_app_sep sep s t :
  Str.split sep (s +:+ String sep t) = Str.split sep s ++ Str.split sep t.
Proof.
  induction s as [|c s IH]; simpl.
  - by rewrite Ascii.eqb_refl.
  - destruct (Ascii.eqb c sep); [by rewrite IH |].
    rewrite IH. pose proof (split_not_nil sep s) as Hne.
    by destruct (Str.split sep s).
Qed.

Lemma split_no_occurs sep s : ¬ Str.occurs sep s → Str.split sep s = [s].
Proof.
  induction s as [|c s IH]; simpl; [done |]. intros Hno.
  destruct (Ascii.eqb c sep) eqn:Hc.
  - apply Ascii.eqb_eq in Hc. tauto.
  - rewrite IH; [done | tauto].
Qed.

Lemma join_snoc sep l x :
  l ≠ [] → Str.join sep (l ++ [x]) = Str.join sep l +:+ sep +:+ x.
Proof.
  induction l as [|a l IH]; [done |]. intros _.
  destruct l as [|b l]; [done |].
  change (Str.join sep ((a :: b :: l) ++ [x]))
    with (a +:+ sep +:+ Str.join sep ((b :: l) ++ [x])).
  rewrite IH by done.
  change (Str.join sep (a :: b :: l)) with (a +:+ sep +:+ Str.join sep (b :: l)).
  by rewrite !append_assoc.
Qed.

Section arch_filter_extras.
Variable archstr : string → string.
Variable self : ErrataSource.
Context {model : Model}.

(** The test of the arch filter, on the filename as a string: it is
    [stem.arch.rpm] for an [arch] without a dot that the filter lists. *)
Lemma arch_filter_keeps_spec ok_arches filename :
  arch_filter_keeps archstr ok_arches filename = true ↔
  ∃ arch, rpm_of_arch filename arch ∧ archstr arch ∈ ok_arches.
Proof.
  unfold arch_filter_keeps, rpm_of_arch, Str.index_from_end. split.
  - rewrite !andb_true_iff, !bool_decide_eq_true. intros [[Hlen Hlast] Harch].
    pose proof (split_join "." filename) as Hjoin.
    pose proof (split_no_sep "." filename) as Hdots.
    rewrite <- (reverse_involutive (Str.split "." filename)) in Hjoin, Hdots.
    rewrite <- length_reverse in Hlen.
    destruct (reverse (Str.split "." filename)) as [|r1 [|r2 [|r3 rest]]];
      simpl in Hlen; [lia | lia | lia |].
    simpl in Hlast, Harch. injection Hlast as ->.
    apply bool_decide_eq_true in Harch.
    rewrite !reverse_cons in Hjoin, Hdots.
    exists r2. split; [|done]. split.
    + apply Hdots. rewrite !elem_of_app, !list_elem_of_singleton. auto.
    + exists (Str.join "." (reverse rest ++ [r3])).
      rewrite <- Hjoin.
      rewrite join_snoc by (by destruct (reverse rest ++ [r3]) as [|? [|? ?]]).
      rewrite join_snoc by (by destruct (reverse rest)).
      by rewrite !append_assoc.
  - intros (arch & [Hdot [stem ->]] & Harch).
    change (stem +:+ "." +:+ arch +:+ ".rpm")
      with (stem +:+ String "." (arch +:+ String "." "rpm")).
    rewrite !split_app_sep, (split_no_occurs "." arch) by done.
    change (Str.split "." "rpm") with ["rpm"].
    rewrite !reverse_app. simpl.
    rewrite !andb_true_iff, !bool_decide_eq_true.
    split; [|done]. split; [|done].
    rewrite !length_app. simpl. pose proof (split_not_nil "." stem) as Hne.
    destruct (Str.split "." stem); [done | simpl; lia].
Qed.

(** With a filter set, the loop logs the filenames it removes, in their
    order, and nothing else. *)
Lemma filter_rpms_loop_log erratum ok_arches l out w :
  log (for_each l (filter_rpms_step archstr erratum ok_arches) out w).1
  = log w ++
    (removed_by_arch_filter erratum <$>
       filter (λ f, arch_filter_keeps archstr ok_arches f = false) l).
Proof.
  revert out w. induction l as [|f l IH]; intros out w.
  - by rewrite for_each_nil, filter_nil, app_nil_r.
  - rewrite for_each_cons. unfold filter_rpms_step at 1.
    destruct (arch_filter_keeps archstr ok_arches f) eqn:Hf; unfold_monad.
    + rewrite IH. by rewrite filter_cons_False by (by rewrite Hf).
    + rewrite IH. rewrite filter_cons_True by done. simpl.
      by rewrite <- app_assoc.
Qed.

(** X17: with an arch filter set, the filenames returned are, in their
    order, those of the form [stem.arch.rpm] whose [arch] (the text
    between the last two dots) is, through [conv.archstr], one of the
    architectures of the filter; the stem may be anything, even empty. *)
Theorem arch_filter_keeps_listed_arches erratum filter_arch rpm_filenames w :
  _rpm_filter_arch self = Some filter_arch →
  ∃ w',
    _filter_rpms_by_arch archstr self erratum rpm_filenames w
    = (w', Ok (filter (λ f, arch_filter_keeps archstr (archstr <$> filter_arch) f)
                 rpm_filenames)) ∧
    ∀ filename,
      arch_filter_keeps archstr (archstr <$> filter_arch) filename = true ↔
      ∃ arch, rpm_of_arch filename arch ∧
              archstr arch ∈ archstr <$> filter_arch.
Proof.
  intros Hset. unfold _filter_rpms_by_arch. rewrite Hset.
  destruct (filter_rpms_loop archstr erratum (archstr <$> filter_arch)
              rpm_filenames [] w) as (w' & Hrun & _).
  exists w'. split; [exact Hrun |]. intros filename.
  apply arch_filter_keeps_spec.
Qed.

(** X18: with an arch filter set, the filter logs one DEBUG record for
    each filename it removes, in the order of the filenames, and nothing
    else; with none set it logs nothing. *)
Theorem arch_filter_logs_removed erratum rpm_filenames w :
  log (_filter_rpms_by_arch archstr self erratum rpm_filenames w).1
  = log w ++
    match _rpm_filter_arch self with
    | Some filter_arch =>
        removed_by_arch_filter erratum <$>
          filter (λ f, arch_filter_keeps archstr (archstr <$> filter_arch) f
                       = false) rpm_filenames
    | None => []
    end.
Proof.
  unfold _filter_rpms_by_arch.
  destruct (_rpm_filter_arch self) as [filter_arch|].
  - apply filter_rpms_loop_log.
  - by rewrite app_nil_r.
Qed.

End arch_filter_extras.

(** ** The FTP paths of an RPM *)

Lemma dict_get_fold_set_other {V} (l : dict V) d k :
  k ∉ dict_keys l →
  dict_get (fold_left (λ acc (kv : string * V), dict_set acc kv.1 kv.2) l d) k
  = dict_get d k.
Proof.
  revert d. induction l as [|[k' v'] l IH]; intros d Hnot; cbn [fold_left];
    [done |].
  unfold dict_keys in *. rewrite fmap_cons, not_elem_of_cons in Hnot.
  destruct Hnot as [Hne Hnot]. rewrite IH by done. simpl.
  rewrite dict_get_set. by rewrite decide_False by done.
Qed.

Lemma dict_get_fold_set_in {V} (l : dict V) d k v :
  NoDup (dict_keys l) → (k, v) ∈ l →
  dict_get (fold_left (λ acc (kv : string * V), dict_set acc kv.1 kv.2) l d) k
  = Some v.
Proof.
  revert d. induction l as [|[k' v'] l IH]; intros d Hnd Hin.
  - by apply elem_of_nil in Hin.
  - unfold dict_keys in *. rewrite fmap_cons, NoDup_cons in Hnd.
    destruct Hnd as [Hk Hnd]. cbn [fold_left].
    apply elem_of_cons in Hin as [[= -> ->] | Hin].
    + rewrite dict_get_fold_set_other by done. simpl.
      rewrite dict_get_set. by rewrite decide_True.
    + by apply IH.
Qed.

Lemma ftp_tables_fold_rpms_other ftp t rpm_name :
  Forall (λ entry : string * Ftp.t,
            rpm_name ∉ dict_keys (default [] (Ftp.rpms entry.2))) ftp →
  dict_get (rpm_to_paths (fold_left ftp_tables_step ftp t)) rpm_name
  = dict_get (rpm_to_paths t) rpm_name.
Proof.
  intros Hall. revert t.
  induction Hall as [|[nvr bm] ftp Hx _ IH]; intros t; cbn [fold_left]; [done |].
  rewrite IH. simpl. by apply dict_get_fold_set_other.
Qed.

(** X19: when several builds of the FTP paths list the same RPM filename,
    the paths matched with it are those of the last build that lists it:
    every build overwrites what the builds before it set, and nothing is
    merged. *)
Theorem rpm_paths_last_build_wins {Metadata} (raw : Raw Metadata)
    before build_nvr build_map after rpms rpm_name paths :
  ftp_paths raw = before ++ (build_nvr, build_map) :: after →
  Ftp.rpms build_map = Some rpms →
  NoDup (dict_keys rpms) →
  (rpm_name, paths) ∈ rpms →
  Forall (λ entry : string * Ftp.t,
            rpm_name ∉ dict_keys (default [] (Ftp.rpms entry.2))) after →
  matched_rpm_paths raw rpm_name = paths.
Proof.
  intros Hftp Hrpms Hnd Hin Hafter. unfold matched_rpm_paths, ftp_tables.
  rewrite Hftp, fold_left_app. cbn [fold_left].
  rewrite ftp_tables_fold_rpms_other by done. simpl. rewrite Hrpms. simpl.
  by rewrite (dict_get_fold_set_in _ _ _ paths).
Qed.

(** ** The service URL *)

Lemma endswith_spec suffix s :
  Posix.endswith suffix s = true ↔ ∃ pre, s = pre +:+ suffix.
Proof.
  induction s as [|c s IH]; simpl.
  - rewrite orb_false_r, String.eqb_eq. split.
    + intros ->. by exists EmptyString.
    + intros [[|a pre] H]; [done | discriminate H].
  - rewrite orb_true_iff, String.eqb_eq, IH. split.
    + intros [-> | [pre ->]]; [by exists EmptyString | by exists (String c pre)].
    + intros [[|a pre] H]; [by left |].
      rewrite append_cons in H. injection H as -> ->. right. by exists pre.
Qed.

Section service_url_extras.
Variable urlparse : string → Url.parsed.

(** X20: the URL of the XML-RPC service is the scheme, the host and the
    path of the URL of Errata Tool (its query and fragment are dropped)
    followed by [/errata/errata_service]; when the path ends with a slash
    that slash is not doubled. *)
Theorem errata_service_url_one_slash _url :
  (∃ prefix,
     url_base (urlparse _url) = prefix +:+ "/" ∧
     _errata_service_url urlparse _url = prefix +:+ "/errata/errata_service")
  ∨ ((∀ prefix, url_base (urlparse _url) ≠ prefix +:+ "/") ∧
     _errata_service_url urlparse _url
     = url_base (urlparse _url) +:+ "/errata/errata_service").
Proof.
  unfold _errata_service_url. fold (url_base (urlparse _url)).
  assert (Str.truthy (url_base (urlparse _url)) = true) as Hbase.
  { unfold url_base. destruct (Url.scheme (urlparse _url)); [done | done]. }
  unfold Posix.join. rewrite Hbase.
  change (Str.startswith "/" "errata/errata_service") with false.
  cbv beta iota. simpl negb. rewrite orb_false_l.
  destruct (Posix.endswith "/" (url_base (urlparse _url))) eqn:Hend.
  - left. apply endswith_spec in Hend as [prefix Hprefix].
    exists prefix. split; [done |]. rewrite Hprefix.
    by rewrite append_assoc.
  - right. split; [|done]. intros prefix Hprefix.
    assert (Posix.endswith "/" (url_base (urlparse _url)) = true) as Htrue
      by (apply endswith_spec; by exists prefix).
    congruence.
Qed.

End service_url_extras.

(** ** The further properties on concrete advisories

    The classes of the items are those of [plain_model]. *)

Section further_concrete_advisories.
#[local] Existing Instance plain_model.

(** Koji does not have the RPM of the file list. *)
Lemma rpm_not_found_witness :
  (_rpm_push_items_from_build id (koji_of_build "foo-1.0-1" "NOTFOUND")
     source_no_filter advisory "foo-1.0-1" (foo_info ["repoA"]) empty_world).2
  = Raise (ValueError
      "Advisory refers to foo-1.0-1.x86_64.rpm but RPM was not found in koji").
Proof.
  apply (rpm_not_found_is_fatal id (koji_of_build "foo-1.0-1" "NOTFOUND")
           source_no_filter advisory "foo-1.0-1" (foo_info ["repoA"])
           empty_world [] []
           (koji_item RpmPushItem "foo-1.0-1.x86_64.rpm" "NOTFOUND" "foo-1.0-1"
              None) []).
  - reflexivity.
  - reflexivity.
  - constructor.
  - reflexivity.
Defined.

(** Koji yields an RPM the file list does not hold: there is no
    destination to give it, and the class refuses that. *)
Lemma rpm_refused_witness :
  (_rpm_push_items_from_build id koji_unlisted_rpm source_no_filter advisory
     "foo-1.0-1" (foo_info ["repoA"]) empty_world).2
  = Raise TypeError.
Proof.
  apply (rpm_refused_by_class_is_fatal id koji_unlisted_rpm source_no_filter
           advisory "foo-1.0-1" (foo_info ["repoA"]) empty_world [] []
           (koji_item RpmPushItem "bar-1.0-1.x86_64.rpm" "PENDING" "bar-1.0-1"
              None) []).
  - reflexivity.
  - reflexivity.
  - constructor.
  - discriminate.
  - reflexivity.
Defined.

(** The file list has an RPM for two architectures and the filter keeps
    one: koji is asked for that one, and the item is given the
    destinations of the file list. *)
Lemma rpm_items_enriched_witness :
  (_rpm_push_items_from_build id (koji_of_build "foo-1.0-1" "PENDING")
     source_x86_64 advisory "foo-1.0-1" two_arch_info empty_world).2
  = Ok [foo_rpm ["repoA"]].
Proof.
  apply (rpm_items_enriched_from_file_list id
           (koji_of_build "foo-1.0-1" "PENDING") source_x86_64 advisory
           "foo-1.0-1" two_arch_info empty_world [foo_rpm ["repoA"]]).
  - reflexivity.
  - vm_compute. repeat constructor. discriminate.
Defined.

Lemma rpm_query_witness :
  koji_events
    (_rpm_push_items_from_build id (koji_of_build "foo-1.0-1" "PENDING")
       source_x86_64 advisory "foo-1.0-1" two_arch_info empty_world).1
  = [KojiGet foo_rpm_selector] ∧
  heap
    (_rpm_push_items_from_build id (koji_of_build "foo-1.0-1" "PENDING")
       source_x86_64 advisory "foo-1.0-1" two_arch_info empty_world).1
  = [].
Proof.
  apply (rpm_query_is_filtered id (koji_of_build "foo-1.0-1" "PENDING")
           source_x86_64 advisory "foo-1.0-1" two_arch_info empty_world).
  reflexivity.
Defined.

(** An RPM, a module and a module source through the FTP step. *)
Lemma ftp_paths_keep_order_witness :
  [foo_rpm ["repoA"; "/ftp/pub/os/"; "repoA"]; foo_module;
   foo_module_source "foo-1.0-1" ["/ftp/pub/modules/"]]
  = concat (ftp_merged raw_full <$>
              [foo_rpm ["repoA"]; foo_module; foo_module_source "foo-1.0-1" []]).
Proof.
  apply (ftp_paths_keep_order string
           [foo_rpm ["repoA"]; foo_module; foo_module_source "foo-1.0-1" []]
           advisory raw_full foo_world foo_world).
  vm_compute. reflexivity.
Defined.

(** Module reconciliation of [foo-1.0-1]. *)
Lemma module_koji_source_witness :
  koji_events
    (_module_push_items_from_build (koji_of_build "foo-1.0-1" "PENDING")
       source_no_filter advisory "foo-1.0-1" foo_module_info foo_world).1
  = [KojiGet foo_module_selector; KojiEnter foo_module_selector;
     KojiExit foo_module_selector].
Proof.
  apply (module_koji_source_always_exited (koji_of_build "foo-1.0-1" "PENDING")
           source_no_filter advisory "foo-1.0-1" foo_module_info foo_world).
  reflexivity.
Defined.

(** Koji holds the module source of [foo-1.0-1] and not the module the
    file list declares. *)
Lemma modules_missing_witness :
  (_module_push_items_from_build (koji_sources_only "foo-1.0-1")
     source_no_filter advisory "foo-1.0-1" foo_module_info foo_world).2
  = Raise (missing_modules_error advisory "foo-1.0-1" ["modulemd.x86_64.txt"]).
Proof.
  apply (modules_missing_from_koji_are_fatal (koji_sources_only "foo-1.0-1")
           source_no_filter advisory "foo-1.0-1" foo_module_info foo_world).
  - reflexivity.
  - vm_compute. repeat constructor. by intros H%elem_of_nil.
  - vm_compute. repeat constructor. by eexists.
Defined.

(** One container build with one image. *)
Lemma container_koji_source_witness :
  koji_events
    (_push_items_from_container_manifests (koji_of_build "foo-1.0-1" "PENDING")
       source_no_filter advisory
       (Some [("img-1.0-1", docker_entry image_repos)]) empty_world).1
  = [KojiGet (SelContainer ["img-1.0-1"]);
     KojiEnter (SelContainer ["img-1.0-1"]);
     KojiExit (SelContainer ["img-1.0-1"])] ∧
  heap
    (_push_items_from_container_manifests (koji_of_build "foo-1.0-1" "PENDING")
       source_no_filter advisory
       (Some [("img-1.0-1", docker_entry image_repos)]) empty_world).1
  = [].
Proof.
  apply (container_koji_source_always_exited
           (koji_of_build "foo-1.0-1" "PENDING") source_no_filter advisory
           ("img-1.0-1", docker_entry image_repos) [] empty_world).
  reflexivity.
Defined.

Lemma container_items_witness :
  Forall2
    (container_kept source_no_filter advisory
       [("img-1.0-1", docker_entry image_repos)])
    (filter (λ item, cls item = ContainerImagePushItem ∨
                     cls item = OperatorManifestPushItem)
       (koji_of_build "foo-1.0-1" "PENDING" (SelContainer ["img-1.0-1"])))
    [evolve_origin image_enriched "RHSA-2020:0001"].
Proof.
  apply (container_items_in_koji_order (koji_of_build "foo-1.0-1" "PENDING")
           source_no_filter advisory ("img-1.0-1", docker_entry image_repos) []
           empty_world
           (_push_items_from_container_manifests
              (koji_of_build "foo-1.0-1" "PENDING") source_no_filter advisory
              (Some [("img-1.0-1", docker_entry image_repos)]) empty_world).1).
  vm_compute. reflexivity.
Defined.

(** The repositories carry the signing key in upper case: the item holds
    it as the class converts it. *)
Lemma container_signing_key_witness :
  ∃ d key,
    image_enriched = evolve_container image_item d key ∧
    dest image_enriched = Some d ∧
    dest_signing_key image_enriched = dest_signing_key_converter key ∧
    ∀ k, is_sig_key
           (container_repos source_no_filter
              [("img-1.0-1", docker_entry image_repos_upper_key)] image_item) k
         ↔ key = Some k.
Proof.
  apply (container_signing_key_attached source_no_filter advisory
           [("img-1.0-1", docker_entry image_repos_upper_key)] image_item
           image_enriched).
  vm_compute. reflexivity.
Defined.

(** The advisory [raw_full] without a koji source, and an advisory
    without builds. *)
Lemma advisory_with_builds_witness :
  ∃ w',
    _push_items_from_raw string advisory_item id
      (koji_of_build "foo-1.0-1" "PENDING") source_no_koji raw_full foo_world
    = (w', Raise koji_required_error) ∧
    heap w' = heap foo_world ∧ koji_events w' = koji_events foo_world.
Proof.
  apply (advisory_with_builds_needs_koji string advisory_item id
           (koji_of_build "foo-1.0-1" "PENDING") source_no_koji raw_full
           foo_world).
  - discriminate.
  - by left.
Defined.

Lemma advisory_without_builds_witness :
  ∃ w',
    _push_items_from_raw string advisory_item id
      (koji_of_build "foo-1.0-1" "PENDING") source_no_koji raw_no_builds
      foo_world
    = (w', Ok [evolve_dest advisory (Some [])]) ∧
    heap w' = heap foo_world ∧ koji_events w' = koji_events foo_world.
Proof.
  apply (advisory_without_builds_needs_no_koji string advisory_item id
           (koji_of_build "foo-1.0-1" "PENDING") source_no_koji raw_no_builds
           foo_world).
  - reflexivity.
  - by left.
Defined.

(** The advisory [raw_full]: an RPM, a module, FTP paths and a container
    image. *)
Lemma advisory_dest_witness :
  ∃ w1 items d rest,
    _push_items_from_rpms id (koji_of_build "foo-1.0-1" "PENDING")
      source_x86_64 (advisory_item (advisory_cdn_metadata raw_full))
      (advisory_cdn_file_list raw_full) foo_world = (w1, Ok items) ∧
    raw_full_output
    = evolve_dest (advisory_item (advisory_cdn_metadata raw_full)) (Some d)
      :: rest ∧
    StronglySorted String.le d ∧ NoDup d ∧
    ∀ x, x ∈ d ↔
         x ∈ default [] (dest (advisory_item (advisory_cdn_metadata raw_full)))
         ∨ ∃ item d_item, item ∈ items ∧ dest item = Some d_item ∧ x ∈ d_item.
Proof.
  apply (advisory_dest_is_union string advisory_item id
           (koji_of_build "foo-1.0-1" "PENDING") source_x86_64 raw_full
           foo_world
           (_push_items_from_raw string advisory_item id
              (koji_of_build "foo-1.0-1" "PENDING") source_x86_64 raw_full
              foo_world).1).
  vm_compute. reflexivity.
Defined.

Lemma items_origin_witness :
  Forall (λ item, origin item = Some "RHSA-2020:0001") (tail raw_full_output).
Proof.
  apply Forall_forall.
  apply (items_origin_is_advisory string advisory_item id
           (koji_of_build "foo-1.0-1" "PENDING") source_x86_64 raw_full
           foo_world
           (_push_items_from_raw string advisory_item id
              (koji_of_build "foo-1.0-1" "PENDING") source_x86_64 raw_full
              foo_world).1).
  vm_compute. reflexivity.
Defined.

(** The filter set to x86_64, on a file list with another architecture
    and a file that is no RPM. *)
Lemma arch_filter_listed_witness :
  ∃ w',
    _filter_rpms_by_arch id source_x86_64 advisory
      ["foo-1.0-1.x86_64.rpm"; "foo-1.0-1.s390x.rpm"; "README.txt"] empty_world
    = (w', Ok (filter (λ f, arch_filter_keeps id (id <$> ["x86_64"]) f)
                 ["foo-1.0-1.x86_64.rpm"; "foo-1.0-1.s390x.rpm"; "README.txt"])) ∧
    ∀ filename,
      arch_filter_keeps id (id <$> ["x86_64"]) filename = true ↔
      ∃ arch, rpm_of_arch filename arch ∧ id arch ∈ id <$> ["x86_64"].
Proof.
  apply (arch_filter_keeps_listed_arches id source_x86_64 advisory ["x86_64"]
           ["foo-1.0-1.x86_64.rpm"; "foo-1.0-1.s390x.rpm"; "README.txt"]
           empty_world).
  reflexivity.
Defined.

(** Two builds list [foo-1.0-1.x86_64.rpm]; a third lists another RPM. *)
Lemma rpm_paths_last_build_witness :
  matched_rpm_paths raw_two_builds "foo-1.0-1.x86_64.rpm" = ["/ftp/pub/updates/"].
Proof.
  apply (rpm_paths_last_build_wins raw_two_builds
           [("foo-1.0-1",
             Ftp.mk (Some [("foo-1.0-1.x86_64.rpm", ["/ftp/pub/os/"])]) None None)]
           "foo-1.0-2"
           (Ftp.mk (Some [("foo-1.0-1.x86_64.rpm", ["/ftp/pub/updates/"])])
              None None)
           [("bar-2.0-1",
             Ftp.mk (Some [("bar-2.0-1.noarch.rpm", ["/ftp/pub/os/"])]) None None)]
           [("foo-1.0-1.x86_64.rpm", ["/ftp/pub/updates/"])]).
  - reflexivity.
  - reflexivity.
  - apply NoDup_singleton.
  - apply list_elem_of_here.
  - repeat constructor. simpl. intros H%list_elem_of_singleton. discriminate H.
Defined.

(** Koji holds the module of [foo-1.0-1] and its source. *)
Lemma module_items_dest_witness :
  [foo_module; foo_module_source "foo-1.0-1" []]
  = module_enriched advisory (declared_modules foo_module_info foo_world) <$>
      koji_of_build "foo-1.0-1" "PENDING"
        (module_selector "foo-1.0-1" foo_module_info foo_world).
Proof.
  apply (module_items_get_declared_dest (koji_of_build "foo-1.0-1" "PENDING")
           source_no_filter advisory "foo-1.0-1" foo_module_info foo_world).
  - reflexivity.
  - vm_compute. repeat constructor. by intros H%elem_of_nil.
  - vm_compute. repeat constructor; by eexists.
  - vm_compute. repeat constructor.
    + intros H%list_elem_of_singleton. discriminate H.
    + by intros H%elem_of_nil.
  - vm_compute. reflexivity.
Defined.

(** An advisory with a container build only, without a koji source. *)
Lemma advisory_with_containers_witness :
  ∃ w',
    _push_items_from_raw string advisory_item id
      (koji_of_build "foo-1.0-1" "PENDING") source_no_koji raw_containers_only
      empty_world
    = (w', Raise koji_required_error) ∧
    heap w' = heap empty_world ∧ koji_events w' = koji_events empty_world.
Proof.
  apply (advisory_with_containers_needs_koji string advisory_item id
           (koji_of_build "foo-1.0-1" "PENDING") source_no_koji
           raw_containers_only ("img-1.0-1", docker_entry image_repos) []
           empty_world).
  - reflexivity.
  - reflexivity.
  - by left.
Defined.

(** The advisory [raw_full], stage by stage. *)
Lemma module_sources_and_containers_witness :
  ∃ w1 w2 rpm_items erratum items containers,
    _push_items_from_rpms id (koji_of_build "foo-1.0-1" "PENDING") source_x86_64
      (advisory_item (advisory_cdn_metadata raw_full))
      (advisory_cdn_file_list raw_full) foo_world = (w1, Ok rpm_items) ∧
    erratum = evolve_dest (advisory_item (advisory_cdn_metadata raw_full))
                (dest erratum) ∧
    _add_ftp_paths string rpm_items erratum raw_full w1 = (w2, Ok items) ∧
    _push_items_from_container_manifests (koji_of_build "foo-1.0-1" "PENDING")
      source_x86_64 erratum (advisory_cdn_docker_file_list raw_full) w2
    = ((_push_items_from_raw string advisory_item id
          (koji_of_build "foo-1.0-1" "PENDING") source_x86_64 raw_full
          foo_world).1, Ok containers) ∧
    raw_full_output = erratum :: items ++ containers ∧
    items = concat (ftp_merged raw_full <$> rpm_items) ∧
    (∀ item, item ∈ items → cls item = ModuleMdSourcePushItem →
       opt_truthy (dest item) = true) ∧
    (∀ item, item ∈ containers →
       cls item = OperatorManifestPushItem ∨
       (cls item = ContainerImagePushItem ∧ opt_truthy (dest item) = true)) ∧
    match advisory_cdn_docker_file_list raw_full with
    | Some (entry :: docker_file_list) =>
        Forall2 (container_kept source_x86_64 erratum (entry :: docker_file_list))
          (filter (λ item, cls item = ContainerImagePushItem ∨
                           cls item = OperatorManifestPushItem)
             (koji_of_build "foo-1.0-1" "PENDING"
                (SelContainer (dict_keys (entry :: docker_file_list)))))
          containers ∧
        ∀ item,
          item ∈ koji_of_build "foo-1.0-1" "PENDING"
                   (SelContainer (dict_keys (entry :: docker_file_list))) →
          cls item = ContainerImagePushItem →
          ∃ x, is_repo_tag
                 (container_repos source_x86_64 (entry :: docker_file_list) item) x
    | _ => containers = []
    end.
Proof.
  apply (module_sources_and_containers_have_destinations string advisory_item
           id (koji_of_build "foo-1.0-1" "PENDING") source_x86_64 raw_full
           foo_world
           (_push_items_from_raw string advisory_item id
              (koji_of_build "foo-1.0-1" "PENDING") source_x86_64 raw_full
              foo_world).1 raw_full_output).
  vm_compute. reflexivity.
Defined.

End further_concrete_advisories.
